(** * The chatbot of the carbon calculator: classifier, extractor, dispatcher

    A shallow embedding of [src/intelligent-chatbot.js] (classes
    [IntelligentChatbot], [IntentClassifier], [EntityExtractor] and
    [CarbonKnowledgeBase]) and the properties of its message pipeline.

    Conventions of the embedding.
    - A JavaScript string is a sequence of UTF-16 code units; the strings
      modelled here are those whose code units are below 256, written as
      Rocq strings (one character per code unit).
    - An integer-valued JavaScript number (a keyword score, a length) is a
      [Z]; a confidence is an IEEE 754 binary64 value, Rocq's primitive
      [float], so [0.7 + score * 0.02] rounds here as it does in the program.
      A number read from digits by [parseInt], which can be any size, is the
      binary64 datum nearest to the integer read, a [spec_float] of the
      Standard Library's specification of IEEE 754.
    - A JavaScript object whose key order matters ([this.intents], [scores],
      [this.patterns]) is an association list in insertion order; the
      session store [this.contextMemory], only ever read by key, is a [gmap]
      of its own properties. A read by a name that the object inherits from
      [Object.prototype] ([inherited]) finds the inherited value where the
      object has no own property of that name.
    - A thrown exception is the [Throw] outcome of a state-and-error monad;
      mutations made before the throw persist, as they do in the program.
    - [Math.random] and [new Date] are inputs of the pipeline ([Env]). *)

From Stdlib Require Import ZArith List String Ascii Bool Lia.
From Stdlib Require Import Floats.PrimFloat Floats.SpecFloat.
From stdpp Require Import gmap strings.
Import ListNotations.

Set Warnings "-inexact-float".
Local Open Scope string_scope.
Local Open Scope Z_scope.

(** ** Outcomes of a call that may throw *)

Inductive error : Type :=
| TypeError (what : string).

Inductive result (A : Type) : Type :=
| Ok (a : A)
| Throw (e : error).
Arguments Ok {A} a.
Arguments Throw {A} e.

Definition result_bind {A B : Type} (r : result A) (f : A -> result B) : result B :=
  match r with
  | Ok a => f a
  | Throw e => Throw e
  end.

(** ** JavaScript strings *)

Module JsString.

Definition code (c : ascii) : N := N_of_ascii c.

(** [\s] of a regular expression and the characters [trim] strips, among
    the code units below 256: TAB, LF, VT, FF, CR, SPACE and NBSP. *)
Definition is_space (c : ascii) : bool :=
  let n := code c in
  ((9 <=? n) && (n <=? 13) || (n =? 32) || (n =? 160))%N.

Definition is_digit (c : ascii) : bool :=
  let n := code c in ((48 <=? n) && (n <=? 57))%N.

(** [\w]: ASCII letters, digits and the underscore. *)
Definition is_word (c : ascii) : bool :=
  let n := code c in
  ((65 <=? n) && (n <=? 90) || (97 <=? n) && (n <=? 122)
   || (48 <=? n) && (n <=? 57) || (n =? 95))%N.

(** Characters with a lower-case partner 32 code units above: A-Z and the
    Latin-1 capitals U+00C0-U+00DE without the multiplication sign. *)
Definition is_upper (c : ascii) : bool :=
  let n := code c in
  ((65 <=? n) && (n <=? 90)
   || (192 <=? n) && (n <=? 222) && negb (n =? 215))%N.

Definition lower_char (c : ascii) : ascii :=
  if is_upper c then ascii_of_N (code c + 32) else c.

Fixpoint toLowerCase (s : string) : string :=
  match s with
  | EmptyString => EmptyString
  | String c s' => String (lower_char c) (toLowerCase s')
  end.

Fixpoint trimStart (s : string) : string :=
  match s with
  | EmptyString => EmptyString
  | String c s' => if is_space c then trimStart s' else s
  end.

Fixpoint trimEnd (s : string) : string :=
  match s with
  | EmptyString => EmptyString
  | String c s' =>
      match trimEnd s' with
      | EmptyString => if is_space c then EmptyString else String c EmptyString
      | t => String c t
      end
  end.

Definition trim (s : string) : string := trimEnd (trimStart s).

(** [s.split(' ')]: the pieces between single SPACE characters; never
    empty (the empty string splits into one empty piece). *)
Fixpoint split (s : string) : list string :=
  match s with
  | EmptyString => [EmptyString]
  | String c s' =>
      if Ascii.eqb c " " then EmptyString :: split s'
      else match split s' with
           | w :: ws => String c w :: ws
           | [] => [String c EmptyString]
           end
  end.

(** [s.includes(t)]: [t] occurs in [s] as a substring. *)
Fixpoint includes (s t : string) : bool :=
  String.prefix t s
  || match s with
     | EmptyString => false
     | String _ s' => includes s' t
     end.

(** [array.includes(w)] on an array of strings. *)
Definition array_includes (l : list string) (w : string) : bool :=
  existsb (String.eqb w) l.

Definition length (s : string) : Z := Z.of_nat (String.length s).

End JsString.

(** ** JavaScript objects with ordered string keys *)

Definition obj (V : Type) : Type := list (string * V).

Fixpoint obj_get {V : Type} (o : obj V) (k : string) : option V :=
  match o with
  | [] => None
  | (k', v) :: o' => if String.eqb k' k then Some v else obj_get o' k
  end.

(** [o[k] = v]: an existing key keeps its place, a new key goes last. *)
Fixpoint obj_set {V : Type} (o : obj V) (k : string) (v : V) : obj V :=
  match o with
  | [] => [(k, v)]
  | (k', v') :: o' =>
      if String.eqb k' k then (k', v) :: o' else (k', v') :: obj_set o' k v
  end.

Definition obj_keys {V : Type} (o : obj V) : list string := map fst o.

(** An object literal, read left to right: a repeated key overwrites the
    earlier value and stays at the earlier position. *)
Definition obj_literal {V : Type} (l : list (string * V)) : obj V :=
  fold_left (fun o kv => obj_set o (fst kv) (snd kv)) l [].

(** The properties every plain object inherits from [Object.prototype]:
    a read [o[k]] of such a name on an object without an own [k] gives
    the inherited value (a function; for [__proto__] the prototype
    itself), which is truthy. *)
Definition inherited_names : list string :=
  ["constructor"; "__defineGetter__"; "__defineSetter__"; "hasOwnProperty";
   "__lookupGetter__"; "__lookupSetter__"; "isPrototypeOf";
   "propertyIsEnumerable"; "toString"; "valueOf"; "__proto__"; "toLocaleString"].

Definition inherited (k : string) : bool := existsb (String.eqb k) inherited_names.

(** ** Numbers *)

Module JsNumber.

(** The binary64 value of an integer (exact below 2^53). *)
Fixpoint of_pos (p : positive) : float :=
  match p with
  | xH => 1%float
  | xO q => (2 * of_pos q)%float
  | xI q => (2 * of_pos q + 1)%float
  end.

Definition of_Z (z : Z) : float :=
  match z with
  | Z0 => 0%float
  | Zpos p => of_pos p
  | Zneg p => (- of_pos p)%float
  end.

(** The Number value of a mathematical integer: the nearest binary64
    value, ties to even, infinite beyond the range. *)
Definition of_integer (n : Z) : spec_float := binary_normalize 53 1024 n 0 false.

(** [Math.min(a, b)]. *)
Definition min (a b : float) : float :=
  if is_nan a || is_nan b then nan
  else if (a <? b)%float then a
  else if (b <? a)%float then b
  else if get_sign a then a else b.

End JsNumber.

(** ** The intent classifier ([class IntentClassifier]) *)

Module Intent.
Record t : Type := mk {
  name : string;
  confidence : float;
  scores : obj Z
}.
End Intent.

Module IntentClassifier.
Import JsString.

(** The object literal of the constructor, entry by entry as written;
    six keys are written twice. *)
Definition intents_literal : list (string * list string) :=
  [ ("greeting",
      ["hello"; "hi"; "hey"; "good morning"; "good afternoon"; "good evening";
       "greetings"; "welcome"; "start"; "begin"; "sup"; "howdy"]);
    ("goodbye",
      ["bye"; "goodbye"; "see you"; "farewell"; "exit"; "quit"; "leave";
       "thank you"; "thanks"; "done"]);
    ("basic_concepts",
      ["what is"; "define"; "explain"; "meaning of"; "carbon footprint";
       "emission factor"; "scope 1"; "scope 2"; "scope 3"; "renewable energy";
       "greenhouse gas"; "co2"; "sustainability"; "climate change"]);
    ("calculator_usage",
      ["how do i enter"; "how to add"; "how to input"; "data entry";
       "energy usage"; "travel data"; "waste management"; "fuel types";
       "remote work"; "employee data"; "usage calculator"]);
    ("industry_benchmarks",
      ["benchmark"; "compare"; "industry average"; "performance";
       "technology companies"; "manufacturers"; "retail sector";
       "how does my company"; "average carbon footprint"]);
    ("recommendations",
      ["how can i reduce"; "reduce carbon"; "best practices"; "quick wins";
       "energy savings"; "travel emissions"; "scope 3 reduction";
       "renewable energy transition"; "carbon reduction strategies"]);
    ("advanced_analytics",
      ["projected"; "prediction"; "forecast"; "next year"; "future";
       "electric vehicles"; "reduction potential"; "money save";
       "carbon neutrality"; "milestones"; "targets"]);
    ("ai_ml_features",
      ["ai improve"; "machine learning"; "ml models"; "confidence scores";
       "ai recommend"; "system learn"; "algorithms"; "artificial intelligence";
       "how does ai"; "neural network"]);
    ("reporting_tracking",
      ["track emissions"; "monthly tracking"; "breakdown"; "report";
       "science-based targets"; "emissions by source"; "carbon reporting"]);
    ("industry_specific",
      ["green software"; "tech companies"; "manufacturers optimize";
       "retailers reduce"; "finance companies"; "healthcare organizations";
       "packaging emissions"; "green portfolios"]);
    ("general_info",
      ["who made"; "ecoleaf analytics"; "demo"; "sustainability goals";
       "cost of carbon"; "about this"; "company information"]);
    ("calculate_carbon",
      ["calculate"; "footprint"; "emissions"; "carbon"; "co2"; "compute";
       "estimate"; "measure"; "assessment"; "audit"]);
    ("get_recommendations",
      ["recommend"; "suggest"; "advice"; "tips"; "best practices";
       "improve"; "reduce"; "optimize"; "strategies"]);
    ("explain_concept",
      ["what is"; "explain"; "define"; "meaning"; "understand";
       "how does"; "why"; "difference between"]);
    ("compliance_standards",
      ["ghg protocol"; "iso 14064"; "sbti"; "tcfd"; "cdp";
       "compliance"; "regulation"; "standard"; "reporting"]);
    ("cost_analysis",
      ["cost"; "price"; "investment"; "roi"; "savings"; "budget";
       "financial"; "economic"; "payback"]);
    ("reduction_strategies",
      ["reduce"; "decrease"; "lower"; "cut"; "minimize";
       "strategy"; "plan"; "roadmap"; "targets"]);
    ("get_recommendations",
      ["recommend"; "suggest"; "advice"; "tips"; "best practices";
       "improve"; "reduce"; "optimize"; "strategies"]);
    ("explain_concept",
      ["what is"; "explain"; "define"; "meaning"; "understand";
       "how does"; "why"; "difference between"]);
    ("industry_specific",
      ["manufacturing"; "retail"; "technology"; "healthcare"; "finance";
       "automotive"; "aviation"; "construction"; "agriculture"]);
    ("compliance_standards",
      ["ghg protocol"; "iso 14064"; "sbti"; "tcfd"; "cdp";
       "compliance"; "regulation"; "standard"; "reporting"]);
    ("cost_analysis",
      ["cost"; "price"; "investment"; "roi"; "savings"; "budget";
       "financial"; "economic"; "payback"]);
    ("reduction_strategies",
      ["reduce"; "decrease"; "lower"; "cut"; "minimize";
       "strategy"; "plan"; "roadmap"; "targets"]) ].

(** [this.intents] after the constructor. *)
Definition intents_init : obj (list string) :=
  Eval vm_compute in obj_literal intents_literal.

Definition greeting_words : list string := ["hello"; "hi"; "hey"; "sup"; "howdy"].
Definition goodbye_words : list string := ["bye"; "goodbye"; "thanks"; "thank"].

(** [scores[intent] += n]; every key the loops touch was initialised. *)
Definition obj_add (sc : obj Z) (intent : string) (n : Z) : obj Z :=
  match obj_get sc intent with
  | Some v => obj_set sc intent (v + n)
  | None => sc
  end.

(** The body of [keywords.forEach]: the phrase match, then the
    word-by-word match. *)
Definition score_keyword (cleanMessage : string) (words : list string)
    (intent : string) (sc : obj Z) (keyword : string) : obj Z :=
  let keywordLower := toLowerCase keyword in
  let sc1 :=
    if includes cleanMessage keywordLower
    then obj_add sc intent (Z.of_nat (List.length (split keywordLower)) * 3)
    else sc in
  fold_left
    (fun s word =>
       if includes keywordLower word && (2 <? JsString.length word)
       then obj_add s intent 1 else s)
    words sc1.

Definition score_intent (cleanMessage : string) (words : list string)
    (sc : obj Z) (entry : string * list string) : obj Z :=
  fold_left (score_keyword cleanMessage words (fst entry)) (snd entry) sc.

(** The [scores] object before the keyword loops: every intent at 0, then
    the special handling of short greetings and goodbyes. *)
Definition initial_scores (intents : obj (list string)) (message : string) : obj Z :=
  let cleanMessage := trim (toLowerCase message) in
  let words := split cleanMessage in
  let scores0 := fold_left (fun sc intent => obj_set sc intent 0) (obj_keys intents) [] in
  if (Z.of_nat (List.length words) <=? 2) then
    let firstWord := hd EmptyString words in
    let sc := if array_includes greeting_words firstWord
              then obj_set scores0 "greeting" 100 else scores0 in
    if array_includes goodbye_words firstWord
    then obj_set sc "goodbye" 100 else sc
  else scores0.

(** The [scores] object when the loops are done. *)
Definition compute_scores (intents : obj (list string)) (message : string) : obj Z :=
  let cleanMessage := trim (toLowerCase message) in
  let words := split cleanMessage in
  fold_left (score_intent cleanMessage words) intents (initial_scores intents message).

(** [x > y] on two property reads; a missing property compares false. *)
Definition gt_read (x y : option Z) : bool :=
  match x, y with
  | Some a, Some b => b <? a
  | _, _ => false
  end.

(** [Object.entries(scores).reduce((a, b) => scores[a[0]] > scores[b[0]] ? a : b)];
    [reduce] without an initial value throws on an empty array. *)
Definition bestIntent (sc : obj Z) : result (string * Z) :=
  match sc with
  | [] => Throw (TypeError "Reduce of empty array with no initial value")
  | e :: es =>
      Ok (fold_left
            (fun a b => if gt_read (obj_get sc (fst a)) (obj_get sc (fst b)) then a else b)
            es e)
  end.

Definition confidence_of (score : Z) : float :=
  if 100 <=? score then 0.95%float
  else if 5 <? score then JsNumber.min 0.9 (0.7 + JsNumber.of_Z score * 0.02)
  else if 0 <? score then JsNumber.min 0.7 (0.4 + JsNumber.of_Z score * 0.1)
  else 0.2%float.

Definition classify (intents : obj (list string)) (message : string) : result Intent.t :=
  let sc := compute_scores intents message in
  result_bind (bestIntent sc) (fun best =>
    let conf := confidence_of (snd best) in
    let intentName :=
      if (snd best =? 0) || (conf <? 0.3)%float then "unknown" else fst best in
    Ok (Intent.mk intentName conf sc)).

(** [reinforcePattern(message, intentName)]: words longer than three
    characters are pushed onto the intent's keyword list when new. *)
Definition reinforcePattern (intents : obj (list string)) (message intentName : string)
    : obj (list string) :=
  let words := split (toLowerCase message) in
  let relevantWords := List.filter (fun word => 3 <? JsString.length word) words in
  match obj_get intents intentName with
  | Some _ =>
      if 0 <? Z.of_nat (List.length relevantWords) then
        fold_left
          (fun tbl word =>
             match obj_get tbl intentName with
             | Some kws =>
                 if negb (array_includes kws word)
                 then obj_set tbl intentName (kws ++ [word])%list else tbl
             | None => tbl
             end)
          relevantWords intents
      else intents
  | None => intents
  end.

End IntentClassifier.


(** ** Regular expressions of the entity patterns

    The fragment the eight patterns are written in, with the backtracking
    order of JavaScript: alternatives left to right, quantifiers greedy.
    All eight patterns carry the [i] flag and start with their only
    capturing group, so a pattern is the pair of that group and what
    follows it. *)

Module Regex.
Import JsString.

Inductive regex : Type :=
| Eps
| Chr (c : ascii)
| Cls (p : ascii -> bool)
| Seq (r1 r2 : regex)
| Alt (r1 r2 : regex)
| Star (r : regex).

Definition plus (r : regex) : regex := Seq r (Star r).
Definition opt (r : regex) : regex := Alt r Eps.

Fixpoint lit (s : string) : regex :=
  match s with
  | EmptyString => Eps
  | String c s' => Seq (Chr c) (lit s')
  end.

Fixpoint alts (rs : list regex) : regex :=
  match rs with
  | [] => Eps
  | [r] => r
  | r :: rs' => Alt r (alts rs')
  end.

(** Two characters are the same under the [i] flag. *)
Definition ci_eq (x c : ascii) : bool := Ascii.eqb (lower_char x) (lower_char c).

(** [run r s k]: match [r] at the start of [s] and hand what is left to
    [k]; when [k] fails the next way of matching [r] is tried. An
    iteration of [Star] that consumes nothing is not taken. *)
Fixpoint run (r : regex) (s : string) (k : string -> option string) : option string :=
  match r with
  | Eps => k s
  | Chr c =>
      match s with
      | String x s' => if ci_eq x c then k s' else None
      | EmptyString => None
      end
  | Cls p =>
      match s with
      | String x s' => if p x then k s' else None
      | EmptyString => None
      end
  | Seq r1 r2 => run r1 s (fun s1 => run r2 s1 k)
  | Alt r1 r2 =>
      match run r1 s k with
      | Some x => Some x
      | None => run r2 s k
      end
  | Star r1 =>
      (fix loop (fuel : nat) (s : string) : option string :=
         match fuel with
         | O => k s
         | S fuel' =>
             match run r1 s (fun s1 =>
                               if (String.length s1 <? String.length s)%nat
                               then loop fuel' s1 else None) with
             | Some x => Some x
             | None => k s
             end
         end) (String.length s) s
  end.

Record pattern : Type := mkPattern {
  group1 : regex;
  rest : regex
}.

(** The text of group 1 when the pattern matches at the start of [s]. *)
Definition exec_at (p : pattern) (s : string) : option string :=
  match run (group1 p) s (fun s1 => run (rest p) s1 (fun _ => Some s1)) with
  | Some s1 => Some (String.substring 0 (String.length s - String.length s1) s)
  | None => None
  end.

(** [s.match(p)[1]] for a pattern without the [g] flag: the leftmost
    match; [None] is the [null] of no match. *)
Fixpoint match1 (p : pattern) (s : string) : option string :=
  match exec_at p s with
  | Some c => Some c
  | None =>
      match s with
      | EmptyString => None
      | String _ s' => match1 p s'
      end
  end.

End Regex.

(** ** The entity extractor ([class EntityExtractor]) *)

Module Entity.
Record t : Type := mk {
  type : string;
  value : string;
  confidence : float
}.
End Entity.

Module EntityExtractor.
Import JsString Regex.

Definition d : regex := Cls is_digit.
Definition ws : regex := Star (Cls is_space).
(** [\d+(?:,\d{3})*] *)
Definition grouped_int : regex :=
  Seq (plus d) (Star (Seq (Chr ",") (Seq d (Seq d d)))).
(** [\d+(?:,\d{3})*(?:\.\d+)?] *)
Definition grouped_num : regex :=
  Seq grouped_int (opt (Seq (Chr ".") (plus d))).

(** [this.patterns], in the order of the literal. *)
Definition patterns : obj pattern :=
  [ ("energy",
      mkPattern grouped_num
        (Seq ws (alts [lit "kwh"; lit "kilowatt"; lit "energy"])));
    ("fuel",
      mkPattern grouped_num
        (Seq ws (alts [Seq (lit "liter") (opt (lit "s"));
                       Seq (lit "litre") (opt (lit "s"));
                       Seq (lit "gallon") (opt (lit "s"));
                       lit "fuel"])));
    ("employees",
      mkPattern grouped_int
        (Seq ws (alts [Seq (lit "employee") (opt (lit "s"));
                       Seq (lit "worker") (opt (lit "s"));
                       lit "staff"])));
    ("travel",
      mkPattern grouped_num
        (Seq ws (alts [lit "km";
                       Seq (lit "kilometer") (opt (lit "s"));
                       Seq (lit "mile") (opt (lit "s"));
                       lit "travel"])));
    ("waste",
      mkPattern grouped_num
        (Seq ws (alts [Seq (lit "ton") (opt (lit "s"));
                       Seq (lit "tonne") (opt (lit "s"));
                       lit "waste"])));
    ("percentage",
      mkPattern (Seq (plus d) (opt (Seq (Chr ".") (plus d))))
        (Seq ws (alts [lit "%"; lit "percent"])));
    ("industry",
      mkPattern
        (alts [lit "manufacturing"; lit "retail"; lit "technology";
               lit "healthcare"; lit "finance"; lit "automotive";
               lit "aviation"; lit "construction"; lit "agriculture"])
        Eps);
    ("timeframe",
      mkPattern (plus d)
        (Seq ws (alts [Seq (lit "year") (opt (lit "s"));
                       Seq (lit "month") (opt (lit "s"))]))) ].

(** The body of the [forEach] of [extract]. *)
Definition extract_step (message : string) (entities : list Entity.t)
    (entry : string * pattern) : list Entity.t :=
  match match1 (snd entry) message with
  | Some m1 => (entities ++ [Entity.mk (fst entry) m1 0.9%float])%list
  | None => entities
  end.

Definition extract (message : string) : list Entity.t :=
  fold_left (extract_step message) patterns [].

End EntityExtractor.


(** ** Responses

    The canned texts are data the program never inspects: a text is named
    by the table and position (or template and arguments) it comes from;
    the fallback strings, which the properties below speak of, are spelled
    out. *)

Inductive Recommendation : Type :=
| SwitchToRenewables
| EmissionsTracking
| OptimizeTransport
| CircularEconomy
| ScienceBasedTargets
| OptimizeCloud
| LeanManufacturing.

Record CalculationData : Type := mkCalculationData {
  hasPartialData : bool;
  mentionedFields : list string;
  missingFields : list string;
  extractedValues : list Entity.t
}.

Inductive Text : Type :=
| Lit (s : string)
| Greetings (i : nat)
| Goodbyes (i : nat)
| CalculationPartialText (mentioned missing : list string)
| CalculationText
| RecommendationsText (industry : string) (recommendations : list Recommendation)
| ConceptText (concept : string)
| ConceptDefaultText
| ComplianceText (standard : string)
| InheritedValue (name : string)
| CostAnalysisText (timeframe : string)
| ReductionText (targetReduction : spec_float)
| BasicConceptsDefaultText
| CalculatorUsageText
| IndustryBenchmarksText
| AdvancedAnalyticsText
| AIMLFeaturesText
| ReportingTrackingText
| IndustrySpecificText
| GeneralInfoText.

Inductive Data : Type :=
| NoData
| Null
| CalculationPayload (extractedData : CalculationData)
| RecommendationsPayload (recommendations : list Recommendation)
    (industry emissionLevel : string)
| ConceptPayload (concept : string) (relatedConcepts : list string)
| CompliancePayload (standard region : string)
| CostPayload (timeframe : string)
| ReductionPayload (targetReduction : spec_float) (timeframe : string).

Module Response.
Record t : Type := mk {
  text : Text;
  suggestions : list string;
  confidence : float;
  data : Data
}.
End Response.

(** What [processMessage] hands back: [{response, suggestions, data, confidence}]. *)
Module Reply.
Record t : Type := mk {
  response : Text;
  suggestions : list string;
  data : Data;
  confidence : float
}.
End Reply.

(** ** The knowledge base ([class CarbonKnowledgeBase]) *)

Module CarbonKnowledgeBase.

Record ConceptInfo : Type := mkConceptInfo {
  related : list string;
  info_confidence : float
}.

Definition concepts : obj ConceptInfo :=
  [ ("carbon_footprint", mkConceptInfo ["scope_1"; "scope_2"; "scope_3"] 0.95%float);
    ("scope_1", mkConceptInfo ["scope_2"; "scope_3"; "ghg_protocol"] 0.95%float);
    ("scope_2", mkConceptInfo ["scope_1"; "scope_3"; "renewable_energy"] 0.95%float) ].

(** [r.replace('_', ' ')]: the first underscore only. *)
Fixpoint replace_first_underscore (s : string) : string :=
  match s with
  | EmptyString => EmptyString
  | String c s' =>
      if Ascii.eqb c "_" then String " " s'
      else String c (replace_first_underscore s')
  end.

Record Explanation : Type := mkExplanation {
  ex_text : Text;
  ex_related : list string;
  ex_confidence : float;
  relatedTopics : list string
}.

(** For a name the table inherits, [this.concepts[concept]] is the
    inherited value: it is truthy and has no [related], so
    [info.related.map] throws. *)
Definition explainConcept (concept : string) : result Explanation :=
  match obj_get concepts concept with
  | Some info =>
      Ok (mkExplanation (ConceptText concept) (related info) (info_confidence info)
            (map (fun r => "Learn about " ++ replace_first_underscore r) (related info)))
  | None =>
      if inherited concept
      then Throw (TypeError "Cannot read properties of undefined (reading 'map')")
      else Ok (mkExplanation ConceptDefaultText [] 0.6%float
                 ["Carbon footprint basics"; "Emission scopes"; "GHG Protocol"])
  end.

Definition getRecommendations (industry level : string) : list Recommendation :=
  let baseRecommendations :=
    [SwitchToRenewables; EmissionsTracking; OptimizeTransport;
     CircularEconomy; ScienceBasedTargets] in
  if String.eqb industry "technology" then OptimizeCloud :: baseRecommendations
  else if String.eqb industry "manufacturing" then LeanManufacturing :: baseRecommendations
  else baseRecommendations.

(** [compliance[standard] || compliance['ghg_protocol']]: the text of the
    standard, the inherited value when the table inherits the name, else
    the text of the GHG protocol. *)
Definition getComplianceInfo (standard region : string) : Text :=
  if String.eqb standard "ghg_protocol" || String.eqb standard "iso_14064"
  then ComplianceText standard
  else if inherited standard then InheritedValue standard
  else ComplianceText "ghg_protocol".

End CarbonKnowledgeBase.

(** ** The chatbot ([class IntelligentChatbot]) *)

Module Context.
Record t : Type := mk {
  intents : list Intent.t;
  entities : list Entity.t;
  topics : list string;
  lastAction : option string
}.
End Context.

Record Conversation : Type := mkConversation {
  timestamp : string;
  conv_sessionId : string;
  userMessage : string;
  botResponse : Text;
  conv_intent : Intent.t;
  conv_confidence : float;
  conv_entities : list Entity.t
}.

(** The mutable fields of a chatbot; [intents] is the keyword table of its
    classifier. *)
Record Chatbot : Type := mkChatbot {
  conversationHistory : list Conversation;
  contextMemory : gmap string Context.t;
  intents : obj (list string)
}.

(** What a call draws from outside: the index [Math.floor(Math.random() * n)]
    comes out as [draw mod n], and [now] is [new Date().toISOString()]. *)
Record Env : Type := mkEnv {
  draw : nat;
  now : string
}.

(** State and exceptions: a computation runs on a chatbot and either
    returns or throws, leaving the chatbot as mutated so far. *)
Definition M (A : Type) : Type := Chatbot -> result A * Chatbot.

Definition ret {A : Type} (a : A) : M A := fun bot => (Ok a, bot).

Definition bind {A B : Type} (c : M A) (f : A -> M B) : M B :=
  fun bot =>
    match c bot with
    | (Ok a, bot') => f a bot'
    | (Throw e, bot') => (Throw e, bot')
    end.

(** A computation that reads the chatbot and may throw. *)
Definition read {A : Type} (f : Chatbot -> result A) : M A :=
  fun bot => (f bot, bot).

(** A mutation that cannot throw. *)
Definition modify (f : Chatbot -> Chatbot) : M unit :=
  fun bot => (Ok tt, f bot).

(** [try { body } catch (error) { handler }]. *)
Definition try_catch {A : Type} (body : M A) (handler : error -> M A) : M A :=
  fun bot =>
    match body bot with
    | (Ok a, bot') => (Ok a, bot')
    | (Throw e, bot') => handler e bot'
    end.

Notation "x <- c1 ;; c2" := (bind c1 (fun x => c2))
  (at level 100, c1 at next level, right associativity).
Notation "c1 ;;; c2" := (bind c1 (fun _ => c2))
  (at level 100, right associativity).

Module IntelligentChatbot.
Import JsString.

Definition new : Chatbot := mkChatbot [] ∅ IntentClassifier.intents_init.

(** [array[Math.floor(Math.random() * array.length)]] *)
Definition pick {A : Type} (env : Env) (l : list A) (default : A) : A :=
  nth (draw env mod List.length l) l default.

(** [.replace(/[^\w\s.-]/g, ' ')] *)
Definition strip_char (c : ascii) : ascii :=
  if is_word c || is_space c || Ascii.eqb c "." || Ascii.eqb c "-" then c else " "%char.

Fixpoint strip_punctuation (s : string) : string :=
  match s with
  | EmptyString => EmptyString
  | String c s' => String (strip_char c) (strip_punctuation s')
  end.

(** [.replace(/\s+/g, ' ')]; [in_run] says the previous character was
    white space. *)
Fixpoint collapse_spaces (in_run : bool) (s : string) : string :=
  match s with
  | EmptyString => EmptyString
  | String c s' =>
      if is_space c
      then if in_run then collapse_spaces true s'
           else String " " (collapse_spaces true s')
      else String c (collapse_spaces false s')
  end.

Definition preprocessMessage (message : string) : string :=
  collapse_spaces false (strip_punctuation (trim (toLowerCase message))).

(** [array.slice(-n)] *)
Definition slice_last {A : Type} (n : nat) (l : list A) : list A :=
  skipn (List.length l - n) l.

(** [this.contextMemory] is a plain object: a read by a session id
    finds the session's own context if the store has one, and else, for a
    name every object inherits, the inherited value. *)
Definition finds_inherited (bot : Chatbot) (sessionId : string) : bool :=
  match contextMemory bot !! sessionId with
  | Some _ => false
  | None => inherited sessionId
  end.

(** An inherited value is truthy, so no context is created for it, and
    it has no [intents], so [context.intents.push] throws before anything
    is changed. *)
Definition updateContext (intent : Intent.t) (entities : list Entity.t)
    (sessionId : string) : M unit :=
  fun bot =>
    if finds_inherited bot sessionId
    then (Throw (TypeError "Cannot read properties of undefined (reading 'push')"), bot)
    else
      let context :=
        match contextMemory bot !! sessionId with
        | Some c => c
        | None => Context.mk [] [] [] None
        end in
      let intents1 := (Context.intents context ++ [intent])%list in
      let entities1 := (Context.entities context ++ entities)%list in
      let lastAction1 := Some (Intent.name intent) in
      let context1 :=
        if (10 <? List.length intents1)%nat
        then Context.mk (slice_last 10 intents1) (slice_last 20 entities1)
               (Context.topics context) lastAction1
        else Context.mk intents1 entities1 (Context.topics context) lastAction1 in
      (Ok tt,
       mkChatbot (conversationHistory bot)
         (<[sessionId := context1]> (contextMemory bot))
         (intents bot)).

(** [this.contextMemory[sessionId] || {}], as far as a handler reads it:
    the own context of the session, if there is one; [None] stands for
    the empty object and for an inherited value, neither of which has a
    [lastAction]. *)
Definition readContext (bot : Chatbot) (sessionId : string) : option Context.t :=
  contextMemory bot !! sessionId.

(** [context.lastAction] of what [readContext] gave. *)
Definition lastAction_of (context : option Context.t) : option string :=
  match context with
  | Some c => Context.lastAction c
  | None => None
  end.

(** *** Entity helpers *)

Definition find_type (entities : list Entity.t) (type : string) : option Entity.t :=
  List.find (fun e => String.eqb (Entity.type e) type) entities.

Definition value_or (entities : list Entity.t) (type default : string) : string :=
  match find_type entities type with
  | Some e => Entity.value e
  | None => default
  end.

Definition extractCalculationData (entities : list Entity.t) : CalculationData :=
  let fields := ["energy"; "fuel"; "employees"; "travel"; "waste"] in
  let mentioned := List.filter (fun e => array_includes fields (Entity.type e)) entities in
  let mentionedFields := map Entity.type mentioned in
  let missingFields := List.filter (fun f => negb (array_includes mentionedFields f)) fields in
  mkCalculationData (0 <? List.length mentioned)%nat mentionedFields missingFields mentioned.

Definition extractIndustry (entities : list Entity.t) : string :=
  value_or entities "industry" "general".
Definition extractEmissionLevel (entities : list Entity.t) : string :=
  value_or entities "emission_level" "medium".
Definition extractConcept (entities : list Entity.t) : string :=
  value_or entities "concept" "carbon_footprint".
Definition extractStandard (entities : list Entity.t) : string :=
  value_or entities "standard" "ghg_protocol".
Definition extractRegion (entities : list Entity.t) : string :=
  value_or entities "region" "global".
Definition extractAnalysisType (entities : list Entity.t) : string :=
  value_or entities "analysis_type" "cost_benefit".
Definition extractTimeframe (entities : list Entity.t) : string :=
  value_or entities "timeframe" "5_years".

(** The digits of [parseInt]: the value of the longest prefix of digits
    of the radix, [None] when there is none. *)
Definition digit_value (radix : Z) (c : ascii) : option Z :=
  let n := Z.of_N (code c) in
  let v := if (48 <=? n) && (n <=? 57) then n - 48
           else if (97 <=? n) && (n <=? 122) then n - 87
           else if (65 <=? n) && (n <=? 90) then n - 55
           else radix in
  if v <? radix then Some v else None.

Fixpoint parse_digits (radix : Z) (acc : option Z) (s : string) : option Z :=
  match s with
  | EmptyString => acc
  | String c s' =>
      match digit_value radix c with
      | Some v => parse_digits radix (Some (default 0 acc * radix + v)) s'
      | None => acc
      end
  end.

(** [parseInt(s)]: white space and a sign are skipped, the longest prefix
    of digits is read (hexadecimal after [0x]), and the result is the
    Number value of the integer read, correctly rounded, as engines
    compute it (the language lets an engine drop decimal digits after the
    twentieth before it rounds); [NaN] when there is no digit. *)
Definition parseInt (s : string) : spec_float :=
  let t := trimStart s in
  let '(negative, t1) :=
    match t with
    | String "-" t' => (true, t')
    | String "+" t' => (false, t')
    | _ => (false, t)
    end in
  let r :=
    match t1 with
    | String "0" (String "x" t2) | String "0" (String "X" t2) => parse_digits 16 None t2
    | _ => parse_digits 10 None t1
    end in
  match r with
  | Some n => if negative then SFopp (JsNumber.of_integer n) else JsNumber.of_integer n
  | None => S754_nan
  end.

Definition extractTargetReduction (entities : list Entity.t) : spec_float :=
  match find_type entities "percentage" with
  | Some e => parseInt (Entity.value e)
  | None => JsNumber.of_integer 50
  end.

(** *** Handlers

    Each handler is a function of the entities and the context;
    [handleRecommendations] and [handleConceptExplanation] can throw. *)

Definition handleGreeting (env : Env) : Response.t :=
  let randomGreeting := pick env [Greetings 0; Greetings 1; Greetings 2; Greetings 3] (Greetings 0) in
  Response.mk randomGreeting
    ["Calculate my carbon footprint";
     "How does AI improve carbon calculations?";
     "Get carbon reduction recommendations";
     "Explain machine learning in sustainability"]
    0.95%float NoData.

Definition handleGoodbye (env : Env) : Response.t :=
  let randomGoodbye := pick env [Goodbyes 0; Goodbyes 1; Goodbyes 2; Goodbyes 3] (Goodbyes 0) in
  Response.mk randomGoodbye [] 0.95%float NoData.

Definition handleCarbonCalculation (entities : list Entity.t) : Response.t :=
  let suggestions :=
    ["Try our Carbon Calculator above";
     "Tell me your energy consumption";
     "What's your company size?";
     "Need help with data collection?"] in
  let extractedData := extractCalculationData entities in
  if hasPartialData extractedData then
    Response.mk
      (CalculationPartialText (mentionedFields extractedData) (missingFields extractedData))
      suggestions 0.9%float (CalculationPayload extractedData)
  else
    Response.mk CalculationText suggestions 0.85%float Null.

(** [this.personalizeRecommendations] is a method the class does not
    define: the call in the personalised branch throws. *)
Definition handleRecommendations (entities : list Entity.t)
    (context : option Context.t) : result Response.t :=
  let industry := extractIndustry entities in
  let emissionLevel := extractEmissionLevel entities in
  let recommendations := CarbonKnowledgeBase.getRecommendations industry emissionLevel in
  result_bind
    (match lastAction_of context with
     | Some action =>
         if String.eqb action "calculate_carbon"
         then Throw (TypeError "this.personalizeRecommendations is not a function")
         else Ok recommendations
     | None => Ok recommendations
     end)
    (fun recommendations =>
       Ok (Response.mk
             (RecommendationsText
                (if String.eqb industry EmptyString then "your business" else industry)
                recommendations)
             ["How much can I save?";
              "Implementation timeline?";
              "Industry best practices";
              "Government incentives?"]
             0.92%float
             (RecommendationsPayload recommendations industry emissionLevel))).

Definition handleConceptExplanation (entities : list Entity.t) : result Response.t :=
  let concept := extractConcept entities in
  result_bind (CarbonKnowledgeBase.explainConcept concept) (fun explanation =>
    Ok (Response.mk (CarbonKnowledgeBase.ex_text explanation)
          (CarbonKnowledgeBase.relatedTopics explanation)
          (CarbonKnowledgeBase.ex_confidence explanation)
          (ConceptPayload concept (CarbonKnowledgeBase.ex_related explanation)))).

Definition handleComplianceQuestions (entities : list Entity.t) : Response.t :=
  let standard := extractStandard entities in
  let region := extractRegion entities in
  Response.mk (CarbonKnowledgeBase.getComplianceInfo standard region)
    ["Implementation steps?";
     "Required documentation?";
     "Certification process?";
     "Deadlines and timelines?"]
    0.90%float (CompliancePayload standard region).

Definition handleCostAnalysis (entities : list Entity.t) : Response.t :=
  let timeframe := extractTimeframe entities in
  Response.mk (CostAnalysisText timeframe)
    ["ROI calculations?"; "Financing options?"; "Government incentives?"; "Payback period?"]
    0.85%float (CostPayload timeframe).

Definition handleReductionStrategies (entities : list Entity.t) : Response.t :=
  let targetReduction := extractTargetReduction entities in
  let timeframe := extractTimeframe entities in
  Response.mk (ReductionText targetReduction)
    ["Conduct energy audit"; "Set interim milestones";
     "Develop investment plan"; "Engage suppliers"]
    0.87%float (ReductionPayload targetReduction timeframe).

(** [entities.concept] of an array is [undefined], so the lookup is
    always on the key [general], which the table lacks. *)
Definition handleBasicConcepts : Response.t :=
  Response.mk BasicConceptsDefaultText
    ["Calculate my carbon footprint"; "What are Scope 1 emissions?";
     "Explain emission factors"; "How does AI help with carbon accounting?"]
    0.9%float NoData.

Definition handleCalculatorUsage : Response.t :=
  Response.mk CalculatorUsageText
    ["How to add travel data?"; "What fuel types are supported?";
     "How to include waste data?"; "Start carbon calculation"]
    0.95%float NoData.

Definition handleIndustryBenchmarks : Response.t :=
  Response.mk IndustryBenchmarksText
    ["Compare my company performance"; "Get industry-specific recommendations";
     "View detailed benchmarks"; "Calculate my footprint"]
    0.88%float NoData.

Definition handleAdvancedAnalytics : Response.t :=
  Response.mk AdvancedAnalyticsText
    ["Predict next year's emissions"; "Calculate carbon neutrality timeline";
     "Analyze reduction potential"; "Get cost savings estimates"]
    0.92%float NoData.

Definition handleAIMLFeatures : Response.t :=
  Response.mk AIMLFeaturesText
    ["How does the AI calculate confidence?"; "What ML models are used?";
     "Get AI recommendations"; "Learn about neural networks"]
    0.95%float NoData.

Definition handleReportingTracking : Response.t :=
  Response.mk ReportingTrackingText
    ["Generate emissions report"; "Set science-based targets";
     "Track monthly progress"; "View analytics dashboard"]
    0.90%float NoData.

Definition handleIndustrySpecific : Response.t :=
  Response.mk IndustrySpecificText
    ["Get tech industry tips"; "Manufacturing best practices";
     "Retail sustainability guide"; "Healthcare carbon reduction"]
    0.87%float NoData.

Definition handleGeneralInfo : Response.t :=
  Response.mk GeneralInfoText
    ["Request a demo"; "Learn about our AI technology";
     "Calculate carbon footprint"; "Get started with sustainability"]
    0.88%float NoData.

(** The [case] labels of the [switch] in [generateResponse]. *)
Definition dispatch_names : list string :=
  ["greeting"; "goodbye"; "basic_concepts"; "calculator_usage";
   "industry_benchmarks"; "recommendations"; "advanced_analytics";
   "ai_ml_features"; "reporting_tracking"; "industry_specific";
   "general_info"; "calculate_carbon"; "get_recommendations";
   "explain_concept"; "compliance_standards"; "cost_analysis";
   "reduction_strategies"; "data_interpretation"].

(** The [switch] of [generateResponse]. [handleDataInterpretation] and
    the [handleGeneralQuery] of the [default] branch are methods the
    class does not define: calling them throws. *)
Definition generateResponse (bot : Chatbot) (env : Env) (intent : Intent.t)
    (entities : list Entity.t) (sessionId : string) : result Response.t :=
  let context := readContext bot sessionId in
  let n := Intent.name intent in
  if String.eqb n "greeting" then Ok (handleGreeting env)
  else if String.eqb n "goodbye" then Ok (handleGoodbye env)
  else if String.eqb n "basic_concepts" then Ok handleBasicConcepts
  else if String.eqb n "calculator_usage" then Ok handleCalculatorUsage
  else if String.eqb n "industry_benchmarks" then Ok handleIndustryBenchmarks
  else if String.eqb n "recommendations" then handleRecommendations entities context
  else if String.eqb n "advanced_analytics" then Ok handleAdvancedAnalytics
  else if String.eqb n "ai_ml_features" then Ok handleAIMLFeatures
  else if String.eqb n "reporting_tracking" then Ok handleReportingTracking
  else if String.eqb n "industry_specific" then Ok handleIndustrySpecific
  else if String.eqb n "general_info" then Ok handleGeneralInfo
  else if String.eqb n "calculate_carbon" then Ok (handleCarbonCalculation entities)
  else if String.eqb n "get_recommendations" then handleRecommendations entities context
  else if String.eqb n "explain_concept" then handleConceptExplanation entities
  else if String.eqb n "compliance_standards" then Ok (handleComplianceQuestions entities)
  else if String.eqb n "cost_analysis" then Ok (handleCostAnalysis entities)
  else if String.eqb n "reduction_strategies" then Ok (handleReductionStrategies entities)
  else if String.eqb n "data_interpretation"
  then Throw (TypeError "this.handleDataInterpretation is not a function")
  else Throw (TypeError "this.handleGeneralQuery is not a function").

(** *** Storing the conversation

    [updateLearningModel] runs in a [try] of its own; of its three
    updates only the first has an effect on the state: the conversation
    it is given has no entities and no [response] property. *)

Definition updateLearningModel (conversation : Conversation) (bot : Chatbot) : Chatbot :=
  if (0.8 <? Intent.confidence (conv_intent conversation))%float
  then mkChatbot (conversationHistory bot) (contextMemory bot)
         (IntentClassifier.reinforcePattern (intents bot)
            (userMessage conversation) (Intent.name (conv_intent conversation)))
  else bot.

Definition storeConversation (env : Env) (userMessage : string)
    (botResponse : Response.t) (intent : Intent.t) (sessionId : string)
    (bot : Chatbot) : Chatbot :=
  let conversation :=
    mkConversation (now env) sessionId userMessage (Response.text botResponse)
      intent (Intent.confidence intent) [] in
  updateLearningModel conversation
    (mkChatbot (conversationHistory bot ++ [conversation])%list
       (contextMemory bot) (intents bot)).

(** *** The fallback *)

Definition fallbacks : list string :=
  ["I'm here to help with carbon accounting questions. Could you rephrase that?";
   "I specialize in sustainability and carbon footprint topics. What would you like to know?";
   "Let me help you with carbon accounting. Try asking about calculations, recommendations, or industry standards.";
   "I can assist with carbon footprint calculations, reduction strategies, and compliance questions. What interests you?"].

Definition getFallbackResponse (env : Env) : Reply.t :=
  Reply.mk (Lit (pick env fallbacks EmptyString))
    ["Calculate carbon footprint";
     "Get reduction recommendations";
     "Learn about standards";
     "Industry best practices"]
    Null 0.5%float.

(** *** The pipeline *)

(** The body of the [try] block of [processMessage], for a call during
    which no other call of the chatbot runs (see [pipeline_among] for a
    call among others). *)
Definition pipeline (env : Env) (message sessionId : string) : M Reply.t :=
  let cleanMessage := preprocessMessage message in
  intent <- read (fun bot => IntentClassifier.classify (intents bot) cleanMessage) ;;
  let entities := EntityExtractor.extract cleanMessage in
  updateContext intent entities sessionId ;;;
  response <- read (fun bot => generateResponse bot env intent entities sessionId) ;;
  modify (storeConversation env message response intent sessionId) ;;;
  ret (Reply.mk (Response.text response) (Response.suggestions response)
         (Response.data response) (Response.confidence response)).

Definition processMessage (env : Env) (message sessionId : string) : M Reply.t :=
  try_catch (pipeline env message sessionId)
    (fun error => ret (getFallbackResponse env)).

End IntelligentChatbot.

(** ** Calls in flight together

    [processMessage] is an [async] function: at each [await] it is
    suspended, and other calls of the same chatbot can run before it
    resumes; between two awaits it runs without interruption. To the
    chatbot a call does two things, the update of a context and the
    storing of a conversation, so what the other calls do during one
    suspension is a sequence of such steps. *)

Inductive Step : Type :=
| UpdateStep (intent : Intent.t) (entities : list Entity.t) (sessionId : string)
| StoreStep (env : Env) (userMessage : string) (botResponse : Response.t)
    (intent : Intent.t) (sessionId : string).

Definition run_step (bot : Chatbot) (step : Step) : Chatbot :=
  match step with
  | UpdateStep intent entities sessionId =>
      snd (IntelligentChatbot.updateContext intent entities sessionId bot)
  | StoreStep env userMessage botResponse intent sessionId =>
      IntelligentChatbot.storeConversation env userMessage botResponse intent sessionId bot
  end.

Definition run_steps (steps : list Step) (bot : Chatbot) : Chatbot :=
  fold_left run_step steps bot.

(** The steps of the other calls during each suspension of one call:
    at [await this.intentClassifier.classify], at
    [await this.entityExtractor.extract], at the [await] inside the
    handler (on the knowledge base), and while the response travels back
    through [return await] and [await this.generateResponse]. *)
Record Others : Type := mkOthers {
  during_classify : list Step;
  during_extract : list Step;
  during_handler : list Step;
  during_return : list Step
}.

(** No other call in flight. *)
Definition alone : Others := mkOthers [] [] [] [].

(** The body of the [try] block of [processMessage] among other calls.
    [classify] reads the keyword table when it is called; the context is
    read by the handler through the object that [updateContext] has just
    filled, after the handler's own [await], so it sees what the other
    calls have done to that session in between; the conversation is
    stored in the chatbot as it is when the response has come back. *)
Definition pipeline_among (others : Others) (env : Env) (message sessionId : string)
    : M Reply.t :=
  fun bot =>
    let cleanMessage := IntelligentChatbot.preprocessMessage message in
    let classified := IntentClassifier.classify (intents bot) cleanMessage in
    let bot1 := run_steps (during_classify others) bot in
    match classified with
    | Throw e => (Throw e, bot1)
    | Ok intent =>
        let entities := EntityExtractor.extract cleanMessage in
        let bot2 := run_steps (during_extract others) bot1 in
        match IntelligentChatbot.updateContext intent entities sessionId bot2 with
        | (Throw e, bot3) => (Throw e, bot3)
        | (Ok _, bot3) =>
            let bot4 := run_steps (during_handler others) bot3 in
            let generated :=
              IntelligentChatbot.generateResponse bot4 env intent entities sessionId in
            let bot5 := run_steps (during_return others) bot4 in
            match generated with
            | Throw e => (Throw e, bot5)
            | Ok response =>
                (Ok (Reply.mk (Response.text response) (Response.suggestions response)
                       (Response.data response) (Response.confidence response)),
                 IntelligentChatbot.storeConversation env message response intent
                   sessionId bot5)
            end
        end
    end.

Definition processMessage_among (others : Others) (env : Env)
    (message sessionId : string) : M Reply.t :=
  try_catch (pipeline_among others env message sessionId)
    (fun error => ret (IntelligentChatbot.getFallbackResponse env)).

(** * The vocabulary of the properties

    Runs of calls, the arithmetic of the scoring loops and the checks
    that the theorems below are stated with. *)

Section Vocabulary.
Import JsString IntentClassifier Regex EntityExtractor IntelligentChatbot.

(** A run of [updateContext] calls on one session, oldest first. *)
Definition updateAll (calls : list (Intent.t * list Entity.t)) (sessionId : string)
    (bot : Chatbot) : Chatbot :=
  fold_left (fun b call => snd (updateContext (fst call) (snd call) sessionId b)) calls bot.

(** The context a session has before its first update. *)
Definition fresh : Context.t := Context.mk [] [] [] None.

Definition context_of (bot : Chatbot) (sessionId : string) : Context.t :=
  default fresh (contextMemory bot !! sessionId).

(** A message that mentions all eight entity types. *)
Definition busy_message : string :=
  "50 kwh 3 liters 20 employees 5 km 2 tons 10 percent retail 3 years".

(** The chatbot after [processMessage] has handled the messages in turn. *)
Definition after_messages (env : Env) (messages : list string) (sessionId : string)
    (bot : Chatbot) : Chatbot :=
  fold_left (fun b message => snd (processMessage env message sessionId b)) messages bot.

(** The entities one pattern-table entry contributes: one or none. *)
Definition emitted (message : string) (entry : string * pattern) : list Entity.t :=
  match match1 (snd entry) message with
  | Some m1 => [Entity.mk (fst entry) m1 0.9%float]
  | None => []
  end.

Definition nonneg (sc : obj Z) : Prop := List.Forall (fun kv => 0 <= snd kv) sc.

(** A well-formed scores object: distinct keys, no negative score. *)
Definition wf_scores (sc : obj Z) : Prop := List.NoDup (obj_keys sc) /\ nonneg sc.

(** The keyword tables a classifier can come to hold: the one its
    constructor installs, and what [reinforcePattern] makes of such a table. *)
Inductive learned : obj (list string) -> Prop :=
| learned_init : learned intents_init
| learned_reinforce (intents : obj (list string)) (message intentName : string) :
    learned intents -> learned (reinforcePattern intents message intentName).

(** The callback of the [reduce]. *)
Definition keep_better (sc : obj Z) (a b : string * Z) : string * Z :=
  if gt_read (obj_get sc (fst a)) (obj_get sc (fst b)) then a else b.

(** What the scores 1 to 99 are checked for, one by one. *)
Definition confidence_ok (score : Z) : bool :=
  let c := confidence_of score in
  ((0.2 <=? c) && (0.5 <=? c) && (c <=? 0.95) && negb (c <? 0.3))%float.

(** The keyword adds nothing: it is not a phrase of the message and no
    word of the message longer than two characters occurs in it. *)
Definition keyword_misses (cleanMessage : string) (words : list string)
    (keyword : string) : bool :=
  let keywordLower := toLowerCase keyword in
  negb (includes cleanMessage keywordLower)
  && forallb (fun word => negb (includes keywordLower word && (2 <? JsString.length word)))
       words.

(** Zero keyword overlap across every intent of the table. *)
Definition no_overlap (intents : obj (list string)) (message : string) : bool :=
  let cleanMessage := trim (toLowerCase message) in
  let words := split cleanMessage in
  forallb (fun entry => forallb (keyword_misses cleanMessage words) (snd entry)) intents.

(** What the two matches of [score_keyword] add for one keyword. *)
Definition word_hits (keywordLower : string) (words : list string) : Z :=
  Z.of_nat (List.length
              (List.filter (fun word => includes keywordLower word && (2 <? JsString.length word))
                 words)).

Definition keyword_points (cleanMessage : string) (words : list string)
    (keyword : string) : Z :=
  let keywordLower := toLowerCase keyword in
  (if includes cleanMessage keywordLower
   then Z.of_nat (List.length (split keywordLower)) * 3 else 0)
  + word_hits keywordLower words.

Definition intent_points (cleanMessage : string) (words : list string)
    (keywords : list string) : Z :=
  fold_right (fun keyword acc => keyword_points cleanMessage words keyword + acc) 0 keywords.

(** The most a keyword list can add for a message of at most two words. *)
Definition cap (keywords : list string) : Z :=
  fold_right
    (fun keyword acc => Z.of_nat (List.length (split (toLowerCase keyword))) * 3 + 2 + acc)
    0 keywords.

(** Every character of the string is its own lower case. *)
Fixpoint lowered (s : string) : Prop :=
  match s with
  | EmptyString => True
  | String c s' => lower_char c = c /\ lowered s'
  end.

(** Tokens as the specification words them (tokenize on white space): the
    maximal runs of characters that are not white space. *)
Fixpoint whitespace_pieces (s : string) : list string :=
  match s with
  | EmptyString => [EmptyString]
  | String c s' =>
      if is_space c then EmptyString :: whitespace_pieces s'
      else match whitespace_pieces s' with
           | w :: ws => String c w :: ws
           | [] => [String c EmptyString]
           end
  end.

Definition whitespace_tokens (s : string) : list string :=
  List.filter (fun w => negb (String.eqb w EmptyString)) (whitespace_pieces s).

(** An utterance that teaches the classifier [n] new keywords, each
    containing the word [there]: [therea], [thereaa], and so on. *)
Fixpoint lesson_words (n : nat) (suffix : string) : string :=
  match n with
  | O => EmptyString
  | S n' => " there" ++ String "a" suffix ++ lesson_words n' (String "a" suffix)
  end.

Definition lesson : string :=
  "calculate carbon footprint emissions" ++ lesson_words 110 EmptyString.

(** The scores of a short greeting before the keyword loops. *)
Definition greeting_scores : obj Z :=
  Eval vm_compute in
    obj_set (fold_left (fun sc intent => obj_set sc intent 0) (obj_keys intents_init) [])
      "greeting" 100.

(** No intent other than [greeting] can reach 101 on two words, and each
    starts from 0. *)
Definition others_capped : bool :=
  forallb
    (fun entry =>
       String.eqb (fst entry) "greeting"
       || (cap (snd entry) <=? 100)
          && match obj_get greeting_scores (fst entry) with
             | Some v => v =? 0
             | None => false
             end)
    intents_init.

(** *** What a pattern can match

    The language of a regular expression of the fragment, and the
    characters a match of it can contain. *)

Inductive matches : regex -> string -> Prop :=
| matches_eps : matches Eps EmptyString
| matches_chr (c x : ascii) : ci_eq x c = true -> matches (Chr c) (String x EmptyString)
| matches_cls (p : ascii -> bool) (x : ascii) :
    p x = true -> matches (Cls p) (String x EmptyString)
| matches_seq (r1 r2 : regex) (s1 s2 : string) :
    matches r1 s1 -> matches r2 s2 -> matches (Seq r1 r2) (s1 ++ s2)
| matches_alt_l (r1 r2 : regex) (s : string) : matches r1 s -> matches (Alt r1 r2) s
| matches_alt_r (r1 r2 : regex) (s : string) : matches r2 s -> matches (Alt r1 r2) s
| matches_star_nil (r : regex) : matches (Star r) EmptyString
| matches_star_cons (r : regex) (s1 s2 : string) :
    matches r s1 -> matches (Star r) s2 -> matches (Star r) (s1 ++ s2).

Fixpoint may_use (r : regex) (x : ascii) : bool :=
  match r with
  | Eps => false
  | Chr c => ci_eq x c
  | Cls p => p x
  | Seq r1 r2 | Alt r1 r2 => may_use r1 x || may_use r2 x
  | Star r1 => may_use r1 x
  end.

Fixpoint all_chars (P : ascii -> bool) (s : string) : bool :=
  match s with
  | EmptyString => true
  | String c s' => P c && all_chars P s'
  end.

(** A digit, a comma or a dot: the characters of a captured quantity. *)
Definition numeric_char (c : ascii) : bool :=
  is_digit c || Ascii.eqb c "," || Ascii.eqb c ".".

Definition starts_with_digit (s : string) : bool :=
  match s with
  | String c _ => is_digit c
  | EmptyString => false
  end.

(** The predicate every match of the expression starts with, when the
    expression cannot match the empty string by its shape. *)
Fixpoint leading (r : regex) : option (ascii -> bool) :=
  match r with
  | Eps => None
  | Chr c => Some (fun x => ci_eq x c)
  | Cls p => Some p
  | Seq r1 _ => leading r1
  | Alt r1 r2 =>
      match leading r1, leading r2 with
      | Some p1, Some p2 => Some (fun x => p1 x || p2 x)
      | _, _ => None
      end
  | Star _ => None
  end.

(** The 256 characters. *)
Definition all_ascii : list ascii := map ascii_of_nat (seq 0 256).

(** The group matches quantities only: it starts with a digit and uses
    digits, commas and dots. *)
Definition numeric_group (r : regex) : bool :=
  match leading r with
  | Some p => forallb (fun x => implb (p x) (is_digit x)) all_ascii
  | None => false
  end
  && forallb (fun x => implb (may_use r x) (numeric_char x)) all_ascii.

(** The industries of the [industry] pattern. *)
Definition industry_names : list string :=
  ["manufacturing"; "retail"; "technology"; "healthcare"; "finance";
   "automotive"; "aviation"; "construction"; "agriculture"].

(** A captured quantity: it starts with a digit and is made of digits,
    commas and dots. *)
Definition quantity (s : string) : bool :=
  starts_with_digit s && all_chars numeric_char s.

Definition no_digit (c : ascii) : bool := negb (is_digit c).

Definition digit_or_dot (c : ascii) : bool := is_digit c || Ascii.eqb c ".".

(** A number that is neither [NaN] nor negative. *)
Definition not_negative (x : spec_float) : bool :=
  match x with
  | S754_zero false | S754_infinity false | S754_finite false _ _ => true
  | _ => false
  end.

(** The fields of [extractCalculationData]. *)
Definition calculation_fields : list string :=
  ["energy"; "fuel"; "employees"; "travel"; "waste"].

(** Group 1 of the leftmost match of the pattern of the type, if the
    table has the type and its pattern matches. *)
Definition capture (message type : string) : option string :=
  match obj_get patterns type with
  | Some p => match1 p message
  | None => None
  end.

(** The pattern of the type matches somewhere in the message. *)
Definition has_match (message type : string) : bool :=
  match capture message type with Some _ => true | None => false end.

(** The entity of a type, if its pattern matches. *)
Definition entity_of (message type : string) : list Entity.t :=
  match capture message type with
  | Some m1 => [Entity.mk type m1 0.9%float]
  | None => []
  end.

(** *** What preprocessing leaves

    The characters of a preprocessed message: lower-case ASCII letters,
    digits, the underscore, the space, the dot and the hyphen. *)
Definition clean_char (c : ascii) : bool :=
  is_word c && negb (is_upper c)
  || Ascii.eqb c " " || Ascii.eqb c "." || Ascii.eqb c "-".

Definition starts_with_space (s : string) : bool :=
  match s with
  | String c _ => Ascii.eqb c " "
  | EmptyString => false
  end.

Fixpoint ends_with_space (s : string) : bool :=
  match s with
  | EmptyString => false
  | String c EmptyString => Ascii.eqb c " "
  | String _ s' => ends_with_space s'
  end.

(** No two spaces in a row. *)
Fixpoint no_double_space (s : string) : bool :=
  match s with
  | EmptyString => true
  | String c s' => negb (Ascii.eqb c " " && starts_with_space s') && no_double_space s'
  end.

(** *** Learning and scoring *)

(** The callback of the [forEach] of [reinforcePattern]. *)
Definition push_new (intentName : string) (tbl : obj (list string)) (word : string)
    : obj (list string) :=
  match obj_get tbl intentName with
  | Some kws =>
      if negb (array_includes kws word)
      then obj_set tbl intentName (kws ++ [word])%list else tbl
  | None => tbl
  end.

(** [relevantWords] of [reinforcePattern]. *)
Definition relevantWords (message : string) : list string :=
  List.filter (fun word => 3 <? JsString.length word) (split (toLowerCase message)).

(** The words of a list in their order, each kept at its first
    occurrence only. *)
Fixpoint first_occurrences (ws : list string) : list string :=
  match ws with
  | [] => []
  | w :: ws' => w :: List.filter (fun x => negb (String.eqb x w)) (first_occurrences ws')
  end.

(** The words [reinforcePattern] adds to a keyword list: the relevant
    words of the message that are not keywords yet, in the order of the
    message, each once. *)
Definition new_keywords (kws : list string) (message : string) : list string :=
  first_occurrences
    (List.filter (fun word => negb (array_includes kws word)) (relevantWords message)).

(** What an intent starts with before the keyword loops: 100 for
    [greeting] and [goodbye] when the message has at most two words and
    its first word is in the intent's special list, 0 otherwise. *)
Definition head_start (message intent : string) : Z :=
  let words := split (trim (toLowerCase message)) in
  let firstWord := hd EmptyString words in
  if (Z.of_nat (List.length words) <=? 2)
     && (String.eqb intent "greeting" && array_includes greeting_words firstWord
         || String.eqb intent "goodbye" && array_includes goodbye_words firstWord)
  then 100 else 0.

(** *** Conversations *)

(** The reply [processMessage] makes of a handler's response. *)
Definition reply_of (response : Response.t) : Reply.t :=
  Reply.mk (Response.text response) (Response.suggestions response)
    (Response.data response) (Response.confidence response).

Definition confidence_in_range (c : float) : bool :=
  ((0.5 <=? c) && (c <=? 0.95))%float.

(** No step of the list updates the context of the session. *)
Definition quiet (sessionId : string) (steps : list Step) : bool :=
  forallb
    (fun step =>
       match step with
       | UpdateStep _ _ sid => negb (String.eqb sid sessionId)
       | StoreStep _ _ _ _ _ => true
       end)
    steps.

(** The record [storeConversation] pushes. *)
Definition record_of (env : Env) (message sessionId : string) (response : Response.t)
    (intent : Intent.t) : Conversation :=
  mkConversation (now env) sessionId message (Response.text response)
    intent (Intent.confidence intent) [].

(** The chatbots a program gets by constructing one and sending it
    messages. *)
Inductive reachable : Chatbot -> Prop :=
| reachable_new : reachable new
| reachable_step (env : Env) (message sessionId : string) (bot : Chatbot) :
    reachable bot -> reachable (snd (processMessage env message sessionId bot)).

(** What holds of every stored context of such a chatbot. *)
Definition context_ok (c : Context.t) : Prop :=
  (1 <= List.length (Context.intents c) <= 10)%nat
  /\ (List.length (Context.entities c) <= 8 * List.length (Context.intents c))%nat
  /\ Context.topics c = []
  /\ exists older intent,
      Context.intents c = (older ++ [intent])%list
      /\ Context.lastAction c = Some (Intent.name intent).

End Vocabulary.

(** * Properties *)

(** ** Ordered objects *)

Section ObjFacts.
Context {V : Type}.
Implicit Types (o : obj V) (k : string) (v : V).

Lemma obj_get_set_eq o k v : obj_get (obj_set o k v) k = Some v.
Proof.
  induction o as [| [k' v'] o IH]; simpl.
  - rewrite String.eqb_refl. reflexivity.
  - destruct (String.eqb k' k) eqn:E; simpl; rewrite E; [reflexivity | exact IH].
Qed.

Lemma obj_get_set_ne o k k' v : k <> k' -> obj_get (obj_set o k v) k' = obj_get o k'.
Proof.
  intros Hne. induction o as [| [k0 v0] o IH]; simpl.
  - apply String.eqb_neq in Hne. rewrite Hne. reflexivity.
  - destruct (String.eqb k0 k) eqn:E; simpl.
    + apply String.eqb_eq in E. subst k0.
      apply String.eqb_neq in Hne. rewrite Hne. reflexivity.
    + destruct (String.eqb k0 k'); [reflexivity | exact IH].
Qed.

Lemma obj_get_In o k v : List.NoDup (obj_keys o) -> In (k, v) o -> obj_get o k = Some v.
Proof.
  induction o as [| [k' v'] o IH]; simpl; intros Hnd Hin; [contradiction |].
  apply NoDup_cons_iff in Hnd as [Hnotin Hnd].
  destruct Hin as [E | Hin].
  - inversion E; subst. rewrite String.eqb_refl. reflexivity.
  - destruct (String.eqb k' k) eqn:E.
    + apply String.eqb_eq in E. subst k'. exfalso. apply Hnotin.
      apply (in_map fst) in Hin. exact Hin.
    + apply IH; assumption.
Qed.

Lemma obj_get_Some_In o k v : obj_get o k = Some v -> In (k, v) o.
Proof.
  induction o as [| [k' v'] o IH]; simpl; [discriminate |].
  destruct (String.eqb k' k) eqn:E.
  - apply String.eqb_eq in E. intros [= ->]. left. subst. reflexivity.
  - intros H. right. apply IH, H.
Qed.

Lemma obj_keys_set_In o k v k' :
  In k' (obj_keys (obj_set o k v)) <-> In k' (obj_keys o) \/ k' = k.
Proof.
  induction o as [| [k0 v0] o IH]; simpl.
  - intuition.
  - destruct (String.eqb k0 k) eqn:E; simpl.
    + apply String.eqb_eq in E. subst. intuition.
    + rewrite IH. intuition.
Qed.

Lemma obj_set_NoDup o k v : List.NoDup (obj_keys o) -> List.NoDup (obj_keys (obj_set o k v)).
Proof.
  induction o as [| [k0 v0] o IH]; simpl; intros Hnd.
  - constructor; [simpl; tauto | constructor].
  - apply NoDup_cons_iff in Hnd as [Hnotin Hnd].
    destruct (String.eqb k0 k) eqn:E; simpl.
    + constructor; assumption.
    + constructor; [| apply IH, Hnd].
      intros H. apply (proj1 (obj_keys_set_In o k v k0)) in H.
      destruct H as [H | H]; [exact (Hnotin H) |].
      subst. rewrite String.eqb_refl in E. discriminate.
Qed.

End ObjFacts.

(** ** The conversation context store *)

Section ContextStore.
Import IntelligentChatbot.

Lemma slice_last_short {A : Type} (n : nat) (l : list A) :
  (List.length l <= n)%nat -> slice_last n l = l.
Proof.
  intros H. unfold slice_last.
  replace (List.length l - n)%nat with 0%nat by lia. reflexivity.
Qed.

Lemma slice_last_length {A : Type} (n : nat) (l : list A) :
  List.length (slice_last n l) = Nat.min n (List.length l).
Proof. unfold slice_last. rewrite length_skipn. lia. Qed.

Lemma slice_last_app {A : Type} (n : nat) (l1 l2 : list A) :
  (n <= List.length l2)%nat -> slice_last n (l1 ++ l2) = slice_last n l2.
Proof.
  intros H. unfold slice_last. rewrite length_app.
  rewrite skipn_app.
  replace (List.length l1 + List.length l2 - n - List.length l1)%nat
    with (List.length l2 - n)%nat by lia.
  rewrite (skipn_all2 l1) by lia. reflexivity.
Qed.

(** Truncating, appending and truncating again is truncating once. *)
Lemma slice_last_snoc {A : Type} (n : nat) (l : list A) (x : A) :
  slice_last (S n) (slice_last (S n) l ++ [x]) = slice_last (S n) (l ++ [x]).
Proof.
  destruct (Nat.le_gt_cases (List.length l) (S n)) as [Hle | Hgt].
  - rewrite (slice_last_short (S n) l) by exact Hle. reflexivity.
  - assert (Hlen : List.length (slice_last (S n) l) = S n)
      by (rewrite slice_last_length; lia).
    unfold slice_last in *.
    rewrite !length_app, Hlen. simpl.
    rewrite !skipn_app, Hlen, skipn_skipn.
    f_equal; f_equal; lia.
Qed.

(** A session id that is not an inherited name never finds an inherited
    value. *)
Lemma not_inherited (bot : Chatbot) (sessionId : string) :
  inherited sessionId = false -> finds_inherited bot sessionId = false.
Proof. intros H. unfold finds_inherited. rewrite H. destruct (_ !! _); reflexivity. Qed.

(** An update that finds the session's own context, or none at all,
    returns; an update that finds an inherited value throws and changes
    nothing. *)
Lemma updateContext_own (intent : Intent.t) (entities : list Entity.t)
    (sessionId : string) (bot : Chatbot) :
  finds_inherited bot sessionId = false ->
  updateContext intent entities sessionId bot
  = (Ok tt, snd (updateContext intent entities sessionId bot)).
Proof. intros H. unfold updateContext. rewrite H. reflexivity. Qed.

Lemma updateContext_inherited (intent : Intent.t) (entities : list Entity.t)
    (sessionId : string) (bot : Chatbot) :
  finds_inherited bot sessionId = true ->
  updateContext intent entities sessionId bot
  = (Throw (TypeError "Cannot read properties of undefined (reading 'push')"), bot).
Proof. intros H. unfold updateContext. rewrite H. reflexivity. Qed.

(** What one update leaves in the store for its session. *)
Lemma updateContext_lookup (intent : Intent.t) (entities : list Entity.t)
    (sessionId : string) (bot : Chatbot) :
  finds_inherited bot sessionId = false ->
  let old := context_of bot sessionId in
  let intents1 := (Context.intents old ++ [intent])%list in
  let entities1 := (Context.entities old ++ entities)%list in
  contextMemory (snd (updateContext intent entities sessionId bot)) !! sessionId =
    Some (if (10 <? List.length intents1)%nat
          then Context.mk (slice_last 10 intents1) (slice_last 20 entities1)
                 (Context.topics old) (Some (Intent.name intent))
          else Context.mk intents1 entities1
                 (Context.topics old) (Some (Intent.name intent))).
Proof.
  intros H. unfold updateContext, context_of. rewrite H. simpl. rewrite lookup_insert_eq.
  destruct (contextMemory bot !! sessionId); reflexivity.
Qed.

Lemma updateContext_intents (intent : Intent.t) (entities : list Entity.t)
    (sessionId : string) (bot : Chatbot) :
  inherited sessionId = false ->
  Context.intents
    (context_of (snd (updateContext intent entities sessionId bot)) sessionId)
  = slice_last 10 (Context.intents (context_of bot sessionId) ++ [intent]).
Proof.
  intros H. unfold context_of at 1.
  rewrite updateContext_lookup by (apply not_inherited, H). simpl.
  destruct (10 <? _)%nat eqn:E; simpl; [reflexivity |].
  apply Nat.ltb_ge in E. symmetry. apply slice_last_short. exact E.
Qed.

Lemma updateAll_snoc (calls : list (Intent.t * list Entity.t))
    (call : Intent.t * list Entity.t) (sessionId : string) (bot : Chatbot) :
  updateAll (calls ++ [call]) sessionId bot
  = snd (updateContext (fst call) (snd call) sessionId (updateAll calls sessionId bot)).
Proof. unfold updateAll. rewrite fold_left_app. reflexivity. Qed.

(** After at least one update the intent history is the last ten of
    everything appended to it. *)
Lemma updateAll_intents (call : Intent.t * list Entity.t)
    (calls : list (Intent.t * list Entity.t)) (sessionId : string) (bot : Chatbot) :
  inherited sessionId = false ->
  Context.intents (context_of (updateAll (call :: calls) sessionId bot) sessionId)
  = slice_last 10 (Context.intents (context_of bot sessionId) ++ map fst (call :: calls)).
Proof.
  intros H. induction calls as [| last calls IH] using rev_ind.
  - simpl. apply updateContext_intents, H.
  - rewrite app_comm_cons, updateAll_snoc, updateContext_intents, IH by exact H.
    rewrite slice_last_snoc. rewrite <- app_assoc.
    rewrite <- app_comm_cons, !map_cons, map_app. reflexivity.
Qed.

Lemma updateAll_lookup (call : Intent.t * list Entity.t)
    (calls : list (Intent.t * list Entity.t)) (sessionId : string) (bot : Chatbot) :
  inherited sessionId = false ->
  readContext (updateAll (call :: calls) sessionId bot) sessionId
  = Some (context_of (updateAll (call :: calls) sessionId bot) sessionId).
Proof.
  intros H. unfold readContext, context_of.
  destruct (exists_last (l := call :: calls)) as (front & last & E); [discriminate |].
  rewrite E, updateAll_snoc, updateContext_lookup by (apply not_inherited, H). reflexivity.
Qed.

(** Counterexample to C5 as stated: three updates that each bring the
    eight entities of one message leave 24 entities in the history of
    their session, which is not cut because its intent history holds only
    3 entries; three calls of [processMessage] with that message do the
    same. *)
Lemma entity_history_can_exceed_20 :
  let entities := EntityExtractor.extract busy_message in
  let intent := Intent.mk "unknown" 0.2%float [] in
  let bot := updateAll [(intent, entities); (intent, entities); (intent, entities)]
               "default" new in
  let bot' := after_messages (mkEnv 0 "") [busy_message; busy_message; busy_message]
                "default" new in
  List.length entities = 8%nat
  /\ (exists c,
        readContext bot "default" = Some c
        /\ List.length (Context.intents c) = 3%nat
        /\ List.length (Context.entities c) = 24%nat
        /\ ~ (List.length (Context.entities c) <= 20)%nat)
  /\ (exists c,
        readContext bot' "default" = Some c
        /\ List.length (Context.intents c) = 3%nat
        /\ List.length (Context.entities c) = 24%nat
        /\ ~ (List.length (Context.entities c) <= 20)%nat).
Proof.
  split; [reflexivity |].
  split; (eexists; split; [vm_compute; reflexivity |]; repeat split; simpl; lia).
Qed.

(** C5 (amended): for a session id that is not the name of an inherited
    property, one update returns, appends the intent and the entities and
    records the intent's name; the two histories are cut to their last 10
    and last 20 entries only when the intent history has grown beyond 10.
    So the intent history never exceeds 10 entries once it is within 10,
    and the entity history is within 20 after every update of a session
    that already held 10 intents. *)
Theorem updateContext_truncates_on_overflow :
  forall (bot : Chatbot) (intent : Intent.t) (entities : list Entity.t)
         (sessionId : string),
    inherited sessionId = false ->
    let old := context_of bot sessionId in
    exists c,
      fst (updateContext intent entities sessionId bot) = Ok tt
      /\ readContext (snd (updateContext intent entities sessionId bot)) sessionId = Some c
      /\ Context.lastAction c = Some (Intent.name intent)
      /\ ((List.length (Context.intents old) < 10)%nat ->
          Context.intents c = (Context.intents old ++ [intent])%list
          /\ Context.entities c = (Context.entities old ++ entities)%list)
      /\ ((10 <= List.length (Context.intents old))%nat ->
          Context.intents c = slice_last 10 (Context.intents old ++ [intent])
          /\ Context.entities c = slice_last 20 (Context.entities old ++ entities)
          /\ (List.length (Context.entities c) <= 20)%nat)
      /\ ((List.length (Context.intents old) <= 10)%nat ->
          (List.length (Context.intents c) <= 10)%nat).
Proof.
  intros bot intent entities sessionId Hown old.
  eexists. split; [rewrite updateContext_own by (apply not_inherited, Hown); reflexivity |].
  split; [apply updateContext_lookup, not_inherited, Hown |].
  fold old. rewrite length_app. simpl.
  destruct (10 <? _)%nat eqn:E; simpl.
  - apply Nat.ltb_lt in E. repeat split; try lia.
    + rewrite slice_last_length. lia.
    + rewrite slice_last_length. lia.
  - apply Nat.ltb_ge in E. repeat split; try lia.
    rewrite length_app. simpl. lia.
Qed.

Lemma updateContext_truncates_on_overflow_witness :
  let old := context_of new "default" in
  exists c,
    fst (updateContext (Intent.mk "greeting" 0.95%float []) [] "default" new) = Ok tt
    /\ readContext (snd (updateContext (Intent.mk "greeting" 0.95%float []) [] "default" new))
         "default" = Some c
    /\ Context.lastAction c = Some (Intent.name (Intent.mk "greeting" 0.95%float []))
    /\ ((List.length (Context.intents old) < 10)%nat ->
        Context.intents c = (Context.intents old ++ [Intent.mk "greeting" 0.95%float []])%list
        /\ Context.entities c = (Context.entities old ++ [])%list)
    /\ ((10 <= List.length (Context.intents old))%nat ->
        Context.intents c
        = slice_last 10 (Context.intents old ++ [Intent.mk "greeting" 0.95%float []])
        /\ Context.entities c = slice_last 20 (Context.entities old ++ [])
        /\ (List.length (Context.entities c) <= 20)%nat)
    /\ ((List.length (Context.intents old) <= 10)%nat ->
        (List.length (Context.intents c) <= 10)%nat).
Proof.
  apply (updateContext_truncates_on_overflow new (Intent.mk "greeting" 0.95%float []) []
           "default").
  reflexivity.
Defined.

(** C8: for a session id that is not the name of an inherited property,
    an update returns, a read of the session right after it gives the name
    of the intent just appended as [lastAction], and after 11 updates the
    intent history holds exactly 10 intents, the last 10 appended, oldest
    first. For a session id that names an inherited property ([constructor],
    [toString], ...) and has no context of its own in the store, as none
    ever gets one, the update throws a [TypeError] and leaves the store as
    it was, so the read does not show the intent. *)
Theorem update_then_read :
  forall (bot : Chatbot) (sessionId : string),
    (inherited sessionId = false ->
     (forall (intent : Intent.t) (entities : list Entity.t),
         fst (updateContext intent entities sessionId bot) = Ok tt
         /\ lastAction_of
              (readContext (snd (updateContext intent entities sessionId bot)) sessionId)
            = Some (Intent.name intent))
     /\ (forall calls : list (Intent.t * list Entity.t),
         List.length calls = 11%nat ->
         exists c,
           readContext (updateAll calls sessionId bot) sessionId = Some c
           /\ List.length (Context.intents c) = 10%nat
           /\ Context.intents c = skipn 1 (map fst calls)))
    /\ (inherited sessionId = true ->
        readContext bot sessionId = None ->
        forall (intent : Intent.t) (entities : list Entity.t),
          updateContext intent entities sessionId bot
          = (Throw (TypeError "Cannot read properties of undefined (reading 'push')"), bot)
          /\ lastAction_of
               (readContext (snd (updateContext intent entities sessionId bot)) sessionId)
             = None).
Proof.
  intros bot sessionId. split.
  - intros Hown. split.
    + intros intent entities.
      split; [rewrite updateContext_own by (apply not_inherited, Hown); reflexivity |].
      unfold readContext.
      rewrite updateContext_lookup by (apply not_inherited, Hown). simpl.
      destruct (10 <? _)%nat; reflexivity.
    + intros calls Hlen. destruct calls as [| call calls]; [discriminate |].
      eexists. split; [apply updateAll_lookup, Hown |].
      rewrite updateAll_intents by exact Hown.
      assert (Hmap : List.length (map fst (call :: calls)) = 11%nat)
        by (rewrite length_map; exact Hlen).
      rewrite slice_last_app by lia.
      unfold slice_last. rewrite Hmap. change (11 - 10)%nat with 1%nat.
      split; [| reflexivity].
      rewrite length_skipn, Hmap. reflexivity.
  - intros Hin Hnone intent entities.
    assert (Hfinds : finds_inherited bot sessionId = true).
    { unfold finds_inherited. unfold readContext in Hnone. rewrite Hnone. exact Hin. }
    rewrite updateContext_inherited by exact Hfinds. cbn [snd]. rewrite Hnone.
    split; reflexivity.
Qed.

(** The failing input of C8: on a new chatbot an update of the session
    [constructor] throws, and the read that follows finds no last action. *)
Lemma update_then_read_witness :
  updateContext (Intent.mk "greeting" 0.95%float []) [] "constructor" new
  = (Throw (TypeError "Cannot read properties of undefined (reading 'push')"), new)
  /\ lastAction_of
       (readContext
          (snd (updateContext (Intent.mk "greeting" 0.95%float []) [] "constructor" new))
          "constructor")
     = None.
Proof.
  apply (proj2 (update_then_read new "constructor") eq_refl eq_refl
           (Intent.mk "greeting" 0.95%float []) []).
Defined.

End ContextStore.

(** ** The entity extractor *)

Section Extractor.
Import Regex EntityExtractor.

Lemma extract_steps (message : string) (table : obj pattern) (acc : list Entity.t) :
  fold_left (extract_step message) table acc
  = (acc ++ flat_map (emitted message) table)%list.
Proof.
  revert acc. induction table as [| entry table IH]; intros acc; simpl.
  - rewrite app_nil_r. reflexivity.
  - rewrite IH. unfold extract_step, emitted.
    destruct (match1 (snd entry) message); simpl.
    + rewrite <- app_assoc. reflexivity.
    + reflexivity.
Qed.

Lemma extract_flat_map (message : string) :
  extract message = flat_map (emitted message) patterns.
Proof. unfold extract. rewrite extract_steps. reflexivity. Qed.

Lemma emitted_types (message : string) (table : obj pattern) (t : string) :
  In t (map Entity.type (flat_map (emitted message) table)) -> In t (obj_keys table).
Proof.
  induction table as [| entry table IH]; simpl; [tauto |].
  rewrite map_app, in_app_iff. intros [H | H]; [| right; apply IH, H].
  left. unfold emitted in H. destruct (match1 _ _); simpl in H; [| tauto].
  destruct H as [H | []]. exact H.
Qed.

Lemma emitted_NoDup (message : string) (table : obj pattern) :
  List.NoDup (obj_keys table) ->
  List.NoDup (map Entity.type (flat_map (emitted message) table)).
Proof.
  induction table as [| entry table IH]; simpl; intros Hnd; [constructor |].
  apply NoDup_cons_iff in Hnd as [Hnotin Hnd].
  rewrite map_app. unfold emitted at 1.
  destruct (match1 _ _); simpl; [| apply IH, Hnd].
  constructor; [| apply IH, Hnd].
  intros Hin. apply Hnotin. apply (emitted_types message), Hin.
Qed.

Lemma patterns_NoDup : List.NoDup (obj_keys patterns).
Proof.
  unfold patterns, obj_keys. simpl.
  repeat (constructor; [simpl; intuition discriminate |]).
  constructor.
Qed.

(** Every entity of the result belongs to a key of the pattern table and
    carries the first group of that pattern's leftmost match. *)
Lemma extract_values (message : string) :
  Forall (fun e => exists p,
              obj_get patterns (Entity.type e) = Some p
              /\ match1 p message = Some (Entity.value e))
    (extract message).
Proof.
  rewrite extract_flat_map.
  apply List.Forall_forall. intros e He. apply in_flat_map in He as (entry & Hentry & He).
  unfold emitted in He. destruct (match1 _ _) eqn:E; simpl in He; [| tauto].
  destruct He as [<- | []]. cbn [Entity.type Entity.value].
  exists (snd entry). split; [| exact E].
  apply obj_get_In; [apply patterns_NoDup |]. destruct entry; exact Hentry.
Qed.

(** C7: for every input, [extract] returns at most one entity per type:
    the types of the returned entities are pairwise distinct, each
    returned entity belongs to a key of the pattern table and carries the
    first group of that pattern's first match as its value and 0.9 as its
    confidence, and a pattern that matches contributes its entity. *)
Theorem extract_one_entity_per_type :
  forall message : string,
    List.NoDup (map Entity.type (extract message))
    /\ Forall (fun e => Entity.confidence e = 0.9%float) (extract message)
    /\ Forall (fun e => exists p,
                   obj_get patterns (Entity.type e) = Some p
                   /\ match1 p message = Some (Entity.value e))
         (extract message)
    /\ (forall (type : string) (p : pattern) (m1 : string),
           obj_get patterns type = Some p -> match1 p message = Some m1 ->
           In (Entity.mk type m1 0.9%float) (extract message)).
Proof.
  intros message. split; [| split; [| split]].
  - rewrite extract_flat_map. apply emitted_NoDup, patterns_NoDup.
  - rewrite extract_flat_map.
    apply List.Forall_forall. intros e He. apply in_flat_map in He as (entry & _ & He).
    unfold emitted in He. destruct (match1 _ _); simpl in He; [| tauto].
    destruct He as [<- | []]. reflexivity.
  - apply extract_values.
  - rewrite extract_flat_map.
    intros type p m1 Hget Hm. apply in_flat_map. exists (type, p). split.
    + apply obj_get_Some_In, Hget.
    + unfold emitted. simpl. rewrite Hm. left. reflexivity.
Qed.

End Extractor.

(** ** The response dispatcher and the pipeline *)

Section Dispatcher.
Import JsString IntelligentChatbot.

(** C1: for an intent whose name is none of the [case] labels, such as
    [unknown], [generateResponse] reaches the [default] branch, whose
    handler [handleGeneralQuery] the class does not define: the call
    throws a [TypeError] and no fallback response is returned. *)
Theorem generateResponse_default_throws :
  forall (bot : Chatbot) (env : Env) (intent : Intent.t)
         (entities : list Entity.t) (sessionId : string),
    array_includes dispatch_names (Intent.name intent) = false ->
    generateResponse bot env intent entities sessionId
    = Throw (TypeError "this.handleGeneralQuery is not a function").
Proof.
  intros bot env intent entities sessionId H.
  unfold array_includes, dispatch_names in H. cbn [existsb] in H.
  repeat (apply orb_false_iff in H as [?E H]).
  unfold generateResponse.
  repeat match goal with
         | E : String.eqb _ _ = false |- _ => rewrite E; clear E
         end.
  reflexivity.
Qed.

Lemma generateResponse_default_throws_witness :
  generateResponse new (mkEnv 0 "") (Intent.mk "unknown" 0.2%float []) [] "default"
  = Throw (TypeError "this.handleGeneralQuery is not a function").
Proof.
  apply (generateResponse_default_throws new (mkEnv 0 "")
           (Intent.mk "unknown" 0.2%float []) [] "default").
  reflexivity.
Defined.

(** C9: [handleRecommendations] returns the generic list, with confidence
    0.92, whenever [context.lastAction] is not [calculate_carbon]; when it
    is, the handler calls [personalizeRecommendations], which the class
    does not define, and throws instead of returning. *)
Theorem handleRecommendations_outcome :
  forall (entities : list Entity.t) (context : option Context.t),
    (lastAction_of context = Some "calculate_carbon" ->
     handleRecommendations entities context
     = Throw (TypeError "this.personalizeRecommendations is not a function"))
    /\ (lastAction_of context <> Some "calculate_carbon" ->
        exists r,
          handleRecommendations entities context = Ok r
          /\ Response.confidence r = 0.92%float
          /\ Response.data r
             = RecommendationsPayload
                 (CarbonKnowledgeBase.getRecommendations
                    (extractIndustry entities) (extractEmissionLevel entities))
                 (extractIndustry entities) (extractEmissionLevel entities)).
Proof.
  intros entities context. unfold handleRecommendations. split.
  - intros ->. reflexivity.
  - intros Hne. destruct (lastAction_of context) as [action |] eqn:E.
    + destruct (String.eqb action "calculate_carbon") eqn:Eq.
      * apply String.eqb_eq in Eq. subst. congruence.
      * simpl. eexists. repeat split.
    + simpl. eexists. repeat split.
Qed.

(** Whatever the body of a [try] does, catching with the fallback gives
    a computation that returns. *)
Lemma try_catch_fallback (env : Env) (body : M Reply.t) (bot : Chatbot) :
  exists (reply : Reply.t) (bot' : Chatbot),
    try_catch body (fun _ => ret (getFallbackResponse env)) bot = (Ok reply, bot')
    /\ (forall e bot1, body bot = (Throw e, bot1) ->
        reply = getFallbackResponse env /\ bot' = bot1)
    /\ (forall r bot1, body bot = (Ok r, bot1) -> reply = r /\ bot' = bot1).
Proof.
  unfold try_catch, ret. destruct (body bot) as [[r | e] bot1].
  - exists r, bot1. repeat split; congruence.
  - exists (getFallbackResponse env), bot1. repeat split; congruence.
Qed.

Lemma pick_In {A : Type} (env : Env) (l : list A) (default : A) :
  l <> [] -> In (pick env l default) l.
Proof.
  intros Hne. unfold pick. apply nth_In.
  apply Nat.mod_upper_bound. destruct l; [congruence | discriminate].
Qed.

(** C2: [processMessage] always returns a reply and never throws; when
    anything in the body of its [try] throws, the reply is the fallback,
    whose confidence is 0.5 and whose text is one of the four fallback
    strings. *)
Theorem processMessage_always_replies :
  forall (env : Env) (message sessionId : string) (bot : Chatbot),
    exists (reply : Reply.t) (bot' : Chatbot),
      processMessage env message sessionId bot = (Ok reply, bot')
      /\ (forall e bot1,
             pipeline env message sessionId bot = (Throw e, bot1) ->
             reply = getFallbackResponse env
             /\ bot' = bot1
             /\ Reply.confidence reply = 0.5%float
             /\ exists s, Reply.response reply = Lit s /\ In s fallbacks).
Proof.
  intros env message sessionId bot. unfold processMessage.
  destruct (try_catch_fallback env (pipeline env message sessionId) bot)
    as (reply & bot' & Hrun & Hthrow & _).
  exists reply, bot'. split; [exact Hrun |].
  intros e bot1 Hbody. destruct (Hthrow e bot1 Hbody) as [-> ->].
  repeat split. eexists. split; [reflexivity |].
  apply pick_In. discriminate.
Qed.

(** The body of the [try] does throw: an utterance with no keyword in it
    is classified [unknown], the dispatcher throws, and the caller gets
    the fallback. *)
Example processMessage_unknown_utterance :
  fst (pipeline (mkEnv 2 "") "xyzzy plugh" "default" new)
  = Throw (TypeError "this.handleGeneralQuery is not a function")
  /\ fst (processMessage (mkEnv 2 "") "xyzzy plugh" "default" new)
     = Ok (getFallbackResponse (mkEnv 2 "")).
Proof. split; vm_compute; reflexivity. Qed.

(** *** The preprocessed message is in lower case *)

Lemma lower_char_fixed (c : ascii) : lower_char (lower_char c) = lower_char c.
Proof. destruct c as [[] [] [] [] [] [] [] []]; reflexivity. Qed.

Lemma strip_char_lowered (c : ascii) :
  lower_char c = c -> lower_char (strip_char c) = strip_char c.
Proof.
  intros H. unfold strip_char.
  destruct (is_word c || is_space c || Ascii.eqb c "." || Ascii.eqb c "-");
    [exact H | reflexivity].
Qed.

Lemma lowered_toLowerCase (s : string) : lowered (toLowerCase s).
Proof.
  induction s as [| c s IH]; simpl; [exact I |]. split; [apply lower_char_fixed | exact IH].
Qed.

Lemma lowered_trimStart (s : string) : lowered s -> lowered (trimStart s).
Proof.
  induction s as [| c s IH]; simpl; [tauto |].
  intros [Hc Hs]. destruct (is_space c); [apply IH, Hs | split; assumption].
Qed.

Lemma lowered_trimEnd (s : string) : lowered s -> lowered (trimEnd s).
Proof.
  induction s as [| c s IH]; simpl; [tauto |].
  intros [Hc Hs]. specialize (IH Hs).
  destruct (trimEnd s) as [| c' t].
  - destruct (is_space c); simpl; tauto.
  - split; assumption.
Qed.

Lemma lowered_strip_punctuation (s : string) : lowered s -> lowered (strip_punctuation s).
Proof.
  induction s as [| c s IH]; simpl; [tauto |].
  intros [Hc Hs]. split; [apply strip_char_lowered, Hc | apply IH, Hs].
Qed.

Lemma lowered_collapse_spaces (in_run : bool) (s : string) :
  lowered s -> lowered (collapse_spaces in_run s).
Proof.
  revert in_run. induction s as [| c s IH]; intros in_run; simpl; [tauto |].
  intros [Hc Hs]. destruct (is_space c).
  - destruct in_run; [apply IH, Hs |]. split; [reflexivity | apply IH, Hs].
  - split; [exact Hc | apply IH, Hs].
Qed.

Lemma lowered_fixed (s : string) : lowered s -> toLowerCase s = s.
Proof.
  induction s as [| c s IH]; simpl; [reflexivity |].
  intros [Hc Hs]. rewrite Hc, (IH Hs). reflexivity.
Qed.

Lemma preprocessMessage_lowered (message : string) : lowered (preprocessMessage message).
Proof.
  unfold preprocessMessage, trim.
  apply lowered_collapse_spaces, lowered_strip_punctuation, lowered_trimEnd,
    lowered_trimStart, lowered_toLowerCase.
Qed.

(** What [processMessage] leaves in the context store when the
    classification returns: the update made with the entities extracted
    from the preprocessed message. *)
Lemma processMessage_context (env : Env) (message sessionId : string)
    (bot : Chatbot) (intent : Intent.t) :
  IntentClassifier.classify (intents bot) (preprocessMessage message) = Ok intent ->
  contextMemory (snd (processMessage env message sessionId bot))
  = contextMemory
      (snd (updateContext intent (EntityExtractor.extract (preprocessMessage message))
              sessionId bot)).
Proof.
  intros Hclassify.
  unfold processMessage, try_catch, pipeline, bind, read, modify, ret.
  rewrite Hclassify.
  destruct (updateContext intent _ sessionId bot) as [[[] | e] bot1]; [| reflexivity].
  destruct (generateResponse _ env intent _ sessionId) as [response | e];
    [| reflexivity].
  unfold storeConversation, updateLearningModel.
  cbn [conv_intent userMessage contextMemory snd].
  destruct (0.8 <? _)%float; reflexivity.
Qed.

(** Counterexample to C6 as stated: in the original utterance below
    the first groups of the first matches are [50,000] and [Technology];
    the pipeline records [000] and [technology], the matches in the
    preprocessed message. *)
Lemma pipeline_entities_differ_from_original :
  let message := "Our Technology firm used 50,000 kWh" in
  let bot := snd (processMessage (mkEnv 0 "") message "default" new) in
  EntityExtractor.extract message
  = [Entity.mk "energy" "50,000" 0.9%float; Entity.mk "industry" "Technology" 0.9%float]
  /\ preprocessMessage message = "our technology firm used 50 000 kwh"
  /\ option_map Context.entities (readContext bot "default")
     = Some [Entity.mk "energy" "000" 0.9%float;
             Entity.mk "industry" "technology" 0.9%float]
  /\ option_map Context.entities (readContext bot "default")
     <> Some (EntityExtractor.extract message).
Proof.
  split; [vm_compute; reflexivity |].
  split; [vm_compute; reflexivity |].
  assert (H : option_map Context.entities
                (readContext (snd (processMessage (mkEnv 0 "")
                                     "Our Technology firm used 50,000 kWh" "default" new))
                   "default")
              = Some [Entity.mk "energy" "000" 0.9%float;
                      Entity.mk "industry" "technology" 0.9%float])
    by (vm_compute; reflexivity).
  split; [exact H |].
  cbv zeta. rewrite H.
  replace (EntityExtractor.extract "Our Technology firm used 50,000 kWh")
    with [Entity.mk "energy" "50,000" 0.9%float; Entity.mk "industry" "Technology" 0.9%float]
    by (vm_compute; reflexivity).
  intros E. injection E as E _. discriminate.
Qed.

(** C6 (amended): in the pipeline the extractor is given the message that
    [preprocessMessage] returns, which is in lower case, and not the
    message [processMessage] received: the entities that reach the context
    store are those extracted from the preprocessed message, and the value
    of each is the first group of the first match of its pattern in that
    preprocessed message. *)
Theorem pipeline_extracts_from_preprocessed_message :
  forall (env : Env) (message sessionId : string) (bot : Chatbot),
    let cleanMessage := preprocessMessage message in
    toLowerCase cleanMessage = cleanMessage
    /\ (forall intent : Intent.t,
           IntentClassifier.classify (intents bot) cleanMessage = Ok intent ->
           contextMemory (snd (processMessage env message sessionId bot))
           = contextMemory
               (snd (updateContext intent (EntityExtractor.extract cleanMessage)
                       sessionId bot)))
    /\ Forall (fun e => exists p,
                   obj_get EntityExtractor.patterns (Entity.type e) = Some p
                   /\ Regex.match1 p cleanMessage = Some (Entity.value e))
         (EntityExtractor.extract cleanMessage).
Proof.
  intros env message sessionId bot cleanMessage. split; [| split].
  - apply lowered_fixed, preprocessMessage_lowered.
  - intros intent. apply processMessage_context.
  - apply extract_values.
Qed.

End Dispatcher.

(** ** The intent classifier *)

Section Scores.
Import JsString IntentClassifier.

Lemma obj_set_keys_present {V : Type} (o : obj V) (k : string) (v0 v : V) :
  obj_get o k = Some v0 -> obj_keys (obj_set o k v) = obj_keys o.
Proof.
  induction o as [| [k' v'] o IH]; simpl; [discriminate |].
  destruct (String.eqb k' k); simpl; [reflexivity |].
  intros H. f_equal. apply IH, H.
Qed.

Lemma obj_add_keys (sc : obj Z) (k : string) (n : Z) :
  obj_keys (obj_add sc k n) = obj_keys sc.
Proof.
  unfold obj_add. destruct (obj_get sc k) eqn:E; [| reflexivity].
  eapply obj_set_keys_present, E.
Qed.

Lemma obj_add_get_eq (sc : obj Z) (k : string) (n v : Z) :
  obj_get sc k = Some v -> obj_get (obj_add sc k n) k = Some (v + n).
Proof. intros H. unfold obj_add. rewrite H. apply obj_get_set_eq. Qed.

Lemma obj_add_get_ne (sc : obj Z) (k k' : string) (n : Z) :
  k <> k' -> obj_get (obj_add sc k n) k' = obj_get sc k'.
Proof.
  intros H. unfold obj_add. destruct (obj_get sc k); [| reflexivity].
  apply obj_get_set_ne, H.
Qed.

Lemma obj_set_nonneg (sc : obj Z) (k : string) (v : Z) :
  nonneg sc -> 0 <= v -> nonneg (obj_set sc k v).
Proof.
  unfold nonneg. induction sc as [| [k' v'] sc IH]; simpl; intros Hsc Hv.
  - constructor; [exact Hv | constructor].
  - apply Forall_cons_iff in Hsc as [H1 H2].
    destruct (String.eqb k' k); constructor; auto.
Qed.

Lemma obj_add_nonneg (sc : obj Z) (k : string) (n : Z) :
  nonneg sc -> 0 <= n -> nonneg (obj_add sc k n).
Proof.
  intros Hsc Hn. unfold obj_add. destruct (obj_get sc k) as [v |] eqn:E; [| exact Hsc].
  apply obj_set_nonneg; [exact Hsc |].
  apply obj_get_Some_In in E. unfold nonneg in Hsc.
  rewrite List.Forall_forall in Hsc. specialize (Hsc _ E). simpl in Hsc. lia.
Qed.

Lemma obj_add_NoDup (sc : obj Z) (k : string) (n : Z) :
  List.NoDup (obj_keys sc) -> List.NoDup (obj_keys (obj_add sc k n)).
Proof. rewrite obj_add_keys. tauto. Qed.

Lemma wf_obj_set (sc : obj Z) (k : string) (v : Z) :
  wf_scores sc -> 0 <= v -> wf_scores (obj_set sc k v).
Proof. intros [H1 H2] Hv. split; [apply obj_set_NoDup, H1 | apply obj_set_nonneg; assumption]. Qed.

Lemma wf_obj_add (sc : obj Z) (k : string) (n : Z) :
  wf_scores sc -> 0 <= n -> wf_scores (obj_add sc k n).
Proof. intros [H1 H2] Hn. split; [apply obj_add_NoDup, H1 | apply obj_add_nonneg; assumption]. Qed.

(** A loop whose every step keeps a property of the scores keeps it. *)
Lemma fold_left_preserves {St A : Type} (P : St -> Prop) (f : St -> A -> St)
    (l : list A) (sc : St) :
  (forall s a, P s -> P (f s a)) -> P sc -> P (fold_left f l sc).
Proof.
  intros Hf. revert sc. induction l as [| a l IH]; simpl; intros sc H; [exact H |].
  apply IH, Hf, H.
Qed.

Lemma score_keyword_preserves (P : obj Z -> Prop) (cleanMessage : string)
    (words : list string) (intent : string) (sc : obj Z) (keyword : string) :
  (forall s n, 0 <= n -> P s -> P (obj_add s intent n)) ->
  P sc -> P (score_keyword cleanMessage words intent sc keyword).
Proof.
  intros Hadd H. unfold score_keyword. apply fold_left_preserves.
  - intros s w Hs. destruct (_ && _); [apply Hadd; [lia | exact Hs] | exact Hs].
  - destruct (includes _ _); [apply Hadd; [lia | exact H] | exact H].
Qed.

Lemma score_intent_preserves (P : obj Z -> Prop) (cleanMessage : string)
    (words : list string) (sc : obj Z) (entry : string * list string) :
  (forall s k n, 0 <= n -> P s -> P (obj_add s k n)) ->
  P sc -> P (score_intent cleanMessage words sc entry).
Proof.
  intros Hadd H. unfold score_intent. apply fold_left_preserves; [| exact H].
  intros s kw Hs. apply score_keyword_preserves; [| exact Hs].
  intros s' n Hn Hs'. apply Hadd; assumption.
Qed.

Lemma compute_scores_unfold (intents : obj (list string)) (message : string) :
  compute_scores intents message
  = fold_left (score_intent (trim (toLowerCase message))
                 (split (trim (toLowerCase message))))
      intents (initial_scores intents message).
Proof. reflexivity. Qed.

Lemma initial_scores_preserves (P : obj Z -> Prop) (intents : obj (list string))
    (message : string) :
  P [] -> (forall s k v, 0 <= v -> P s -> P (obj_set s k v)) ->
  P (initial_scores intents message).
Proof.
  intros Hnil Hset. unfold initial_scores.
  assert (H0 : P (fold_left (fun sc intent => obj_set sc intent 0) (obj_keys intents) [])).
  { apply fold_left_preserves; [| exact Hnil]. intros s a Hs. apply Hset; [lia | exact Hs]. }
  destruct (_ <=? 2); [| exact H0].
  destruct (array_includes greeting_words _), (array_includes goodbye_words _);
    repeat (apply Hset; [lia |]); exact H0.
Qed.

Lemma compute_scores_wf (intents : obj (list string)) (message : string) :
  wf_scores (compute_scores intents message).
Proof.
  rewrite compute_scores_unfold. apply fold_left_preserves.
  - intros s entry Hs. apply score_intent_preserves; [| exact Hs].
    intros s' k n Hn Hs'. apply wf_obj_add; assumption.
  - apply initial_scores_preserves.
    + split; constructor.
    + intros s k v Hv Hs. apply wf_obj_set; assumption.
Qed.

(** Every intent of the table has a score. *)
Lemma compute_scores_keys (intents : obj (list string)) (message : string) (k : string) :
  In k (obj_keys intents) -> In k (obj_keys (compute_scores intents message)).
Proof.
  intros Hk. rewrite compute_scores_unfold.
  apply (fold_left_preserves (fun sc => In k (obj_keys sc))).
  - intros s entry Hs.
    apply (score_intent_preserves (fun sc => In k (obj_keys sc))); [| exact Hs].
    intros s' k' n _ Hs'. rewrite obj_add_keys. exact Hs'.
  - unfold initial_scores.
    assert (H0 : In k (obj_keys (fold_left (fun sc intent => obj_set sc intent 0)
                                   (obj_keys intents) []))).
    { generalize (@nil (string * Z)). induction (obj_keys intents) as [| k' ks IH];
        simpl in *; [contradiction |].
      intros acc. destruct Hk as [-> | Hk]; [| apply IH, Hk].
      apply (fold_left_preserves (fun sc => In k (obj_keys sc))).
      - intros s a Hs. apply obj_keys_set_In. left. exact Hs.
      - apply obj_keys_set_In. right. reflexivity. }
    destruct (_ <=? 2); [| exact H0].
    destruct (array_includes greeting_words _), (array_includes goodbye_words _);
      repeat (apply obj_keys_set_In; left); exact H0.
Qed.

End Scores.

Section BestIntent.
Import JsString IntentClassifier.

Lemma keep_better_entries (sc : obj Z) (a b : string * Z) :
  List.NoDup (obj_keys sc) -> In a sc -> In b sc ->
  keep_better sc a b = if snd b <? snd a then a else b.
Proof.
  intros Hnd Ha Hb. unfold keep_better.
  destruct a as [ka va], b as [kb vb]. simpl.
  rewrite (obj_get_In sc ka va Hnd Ha), (obj_get_In sc kb vb Hnd Hb).
  reflexivity.
Qed.

Lemma reduce_max (sc : obj Z) (es : list (string * Z)) (a : string * Z) :
  List.NoDup (obj_keys sc) -> (forall x, In x (a :: es) -> In x sc) ->
  In (fold_left (keep_better sc) es a) (a :: es)
  /\ (forall x, In x (a :: es) -> snd x <= snd (fold_left (keep_better sc) es a)).
Proof.
  intros Hnd. revert a. induction es as [| b es IH]; intros a Hin; simpl.
  - split; [left; reflexivity |]. intros x [<- | []]. lia.
  - assert (Ha : In a sc) by (apply Hin; left; reflexivity).
    assert (Hb : In b sc) by (apply Hin; right; left; reflexivity).
    rewrite (keep_better_entries sc a b Hnd Ha Hb).
    destruct (snd b <? snd a) eqn:E.
    + apply Z.ltb_lt in E.
      destruct (IH a) as [H1 H2].
      { intros x [<- | Hx]; [exact Ha | apply Hin; right; right; exact Hx]. }
      split.
      * destruct H1 as [H1 | H1]; [left; exact H1 | right; right; exact H1].
      * intros x [<- | [<- | Hx]].
        -- apply H2. left. reflexivity.
        -- specialize (H2 a (or_introl eq_refl)). lia.
        -- apply H2. right. exact Hx.
    + apply Z.ltb_ge in E.
      destruct (IH b) as [H1 H2].
      { intros x [<- | Hx]; [exact Hb | apply Hin; right; right; exact Hx]. }
      split.
      * right. exact H1.
      * intros x [<- | [<- | Hx]].
        -- specialize (H2 b (or_introl eq_refl)). lia.
        -- apply H2. left. reflexivity.
        -- apply H2. right. exact Hx.
Qed.

(** The [reduce] returns an entry of the scores whose score is the maximum. *)
Lemma bestIntent_max (sc : obj Z) :
  sc <> [] -> List.NoDup (obj_keys sc) ->
  exists k v,
    bestIntent sc = Ok (k, v) /\ In (k, v) sc
    /\ (forall k' v', In (k', v') sc -> v' <= v).
Proof.
  intros Hne Hnd. destruct sc as [| e es]; [congruence |].
  destruct (reduce_max (e :: es) es e Hnd) as [H1 H2]; [tauto |].
  fold (keep_better (e :: es)) in *.
  destruct (fold_left (keep_better (e :: es)) es e) as [k v] eqn:E.
  exists k, v. split; [| split].
  - unfold bestIntent. fold (keep_better (e :: es)). rewrite E. reflexivity.
  - exact H1.
  - intros k' v' Hin. apply (H2 (k', v') Hin).
Qed.

(** A first entry that beats every other one is what the [reduce] returns. *)
Lemma bestIntent_first (e : string * Z) (es : list (string * Z)) :
  List.NoDup (obj_keys (e :: es)) -> (forall x, In x es -> snd x < snd e) ->
  bestIntent (e :: es) = Ok e.
Proof.
  intros Hnd Hlt. unfold bestIntent. fold (keep_better (e :: es)). f_equal.
  assert (H : forall l, (forall x, In x l -> In x es) ->
                        fold_left (keep_better (e :: es)) l e = e).
  { induction l as [| b l IH]; intros Hl; simpl; [reflexivity |].
    rewrite (keep_better_entries (e :: es) e b Hnd).
    - assert (Hb : snd b < snd e) by (apply Hlt, Hl; left; reflexivity).
      apply Z.ltb_lt in Hb. rewrite Hb. apply IH.
      intros x Hx. apply Hl. right. exact Hx.
    - left. reflexivity.
    - right. apply Hl. left. reflexivity. }
  apply H. tauto.
Qed.

End BestIntent.

Section Confidence.
Import IntentClassifier.

Lemma confidence_table : forallb confidence_ok (map Z.of_nat (seq 1 99)) = true.
Proof. vm_compute. reflexivity. Qed.

Lemma confidence_small (score : Z) : 0 < score < 100 -> confidence_ok score = true.
Proof.
  intros H. pose proof confidence_table as T.
  rewrite forallb_forall in T. apply T.
  replace score with (Z.of_nat (Z.to_nat score)) by lia.
  apply in_map, in_seq. lia.
Qed.

Lemma confidence_large (score : Z) : 100 <= score -> confidence_of score = 0.95%float.
Proof. intros H. unfold confidence_of. apply Z.leb_le in H. rewrite H. reflexivity. Qed.

Lemma confidence_zero (score : Z) : score <= 0 -> confidence_of score = 0.2%float.
Proof.
  intros H. unfold confidence_of.
  replace (100 <=? score) with false by (symmetry; apply Z.leb_gt; lia).
  replace (5 <? score) with false by (symmetry; apply Z.ltb_ge; lia).
  replace (0 <? score) with false by (symmetry; apply Z.ltb_ge; lia).
  reflexivity.
Qed.

Lemma confidence_positive (score : Z) : 0 < score -> confidence_ok score = true.
Proof.
  intros H. destruct (Z.lt_ge_cases score 100) as [Hlt | Hge].
  - apply confidence_small. lia.
  - unfold confidence_ok. rewrite confidence_large by lia. reflexivity.
Qed.

End Confidence.

Section Classify.
Import JsString IntentClassifier.

(** What [classify] returns, in terms of the entry its [reduce] picks. *)
Lemma classify_shape (intents : obj (list string)) (message : string) :
  intents <> [] ->
  exists winner score,
    bestIntent (compute_scores intents message) = Ok (winner, score)
    /\ In (winner, score) (compute_scores intents message)
    /\ (forall k v, In (k, v) (compute_scores intents message) -> v <= score)
    /\ 0 <= score
    /\ classify intents message
       = Ok (Intent.mk
               (if (score =? 0) || (confidence_of score <? 0.3)%float
                then "unknown" else winner)
               (confidence_of score)
               (compute_scores intents message)).
Proof.
  intros Hne.
  destruct (compute_scores_wf intents message) as [Hnd Hpos].
  assert (Hsc : compute_scores intents message <> []).
  { destruct intents as [| [k kws] rest]; [congruence |].
    pose proof (compute_scores_keys ((k, kws) :: rest) message k (or_introl eq_refl)) as Hk.
    intros E. rewrite E in Hk. exact Hk. }
  destruct (bestIntent_max _ Hsc Hnd) as (winner & score & Hbest & Hin & Hmax).
  exists winner, score. repeat split; try assumption.
  - unfold nonneg in Hpos. rewrite List.Forall_forall in Hpos. apply (Hpos _ Hin).
  - unfold classify. rewrite Hbest. reflexivity.
Qed.

(** *** Tables reachable by learning *)

Lemma reinforcePattern_grows (intents : obj (list string)) (message intentName : string) :
  obj_keys (reinforcePattern intents message intentName) = obj_keys intents
  /\ (forall k kws, obj_get intents k = Some kws ->
      exists more, obj_get (reinforcePattern intents message intentName) k
                   = Some (kws ++ more)%list).
Proof.
  assert (Hrefl : obj_keys intents = obj_keys intents
                  /\ (forall k kws, obj_get intents k = Some kws ->
                      exists more, obj_get intents k = Some (kws ++ more)%list)).
  { split; [reflexivity |]. intros k kws H. exists []. rewrite app_nil_r. exact H. }
  unfold reinforcePattern.
  destruct (obj_get intents intentName); [| exact Hrefl].
  destruct (0 <? _); [| exact Hrefl].
  apply (fold_left_preserves
           (fun tbl => obj_keys tbl = obj_keys intents
                       /\ (forall k kws, obj_get intents k = Some kws ->
                           exists more, obj_get tbl k = Some (kws ++ more)%list)));
    [| exact Hrefl].
  intros tbl word [Hkeys Hext].
  destruct (obj_get tbl intentName) as [kws_n |] eqn:En; [| split; assumption].
  destruct (negb (array_includes kws_n word)); [| split; assumption].
  split.
  - rewrite (obj_set_keys_present tbl intentName kws_n _ En). exact Hkeys.
  - intros k kws Hk. destruct (Hext k kws Hk) as [more Hmore].
    destruct (string_dec intentName k) as [-> | Hne].
    + rewrite obj_get_set_eq. rewrite Hmore in En. injection En as <-.
      exists (more ++ [word])%list. rewrite app_assoc. reflexivity.
    + rewrite obj_get_set_ne by exact Hne. exists more. exact Hmore.
Qed.

(** Learning keeps the intents and their order, and only appends keywords. *)
Lemma learned_grows (intents : obj (list string)) :
  learned intents ->
  obj_keys intents = obj_keys intents_init
  /\ (forall k kws, obj_get intents_init k = Some kws ->
      exists more, obj_get intents k = Some (kws ++ more)%list).
Proof.
  induction 1 as [| intents message intentName _ [IHkeys IHext]].
  - split; [reflexivity |]. intros k kws H. exists []. rewrite app_nil_r. exact H.
  - destruct (reinforcePattern_grows intents message intentName) as [Hkeys Hext].
    split; [congruence |].
    intros k kws Hk. destruct (IHext k kws Hk) as [more Hmore].
    destruct (Hext k _ Hmore) as [more' Hmore'].
    exists (more ++ more')%list. rewrite app_assoc. exact Hmore'.
Qed.

Lemma learned_nonempty (intents : obj (list string)) : learned intents -> intents <> [].
Proof.
  intros H E. apply learned_grows in H as [Hkeys _]. rewrite E in Hkeys. discriminate.
Qed.

Lemma initial_scores_learned (intents : obj (list string)) (message : string) :
  learned intents -> initial_scores intents message = initial_scores intents_init message.
Proof.
  intros H. apply learned_grows in H as [Hkeys _].
  unfold initial_scores. rewrite Hkeys. reflexivity.
Qed.

Lemma compute_scores_keys_learned (intents : obj (list string)) (message : string) :
  learned intents ->
  obj_keys (compute_scores intents message) = obj_keys intents_init.
Proof.
  intros H. rewrite compute_scores_unfold.
  apply (fold_left_preserves (fun sc => obj_keys sc = obj_keys intents_init)).
  - intros s entry Hs.
    apply (score_intent_preserves (fun sc => obj_keys sc = obj_keys intents_init));
      [| exact Hs].
    intros s' k n _ Hs'. rewrite obj_add_keys. exact Hs'.
  - rewrite (initial_scores_learned intents message H).
    unfold initial_scores. destruct (_ <=? 2); [| reflexivity].
    destruct (array_includes greeting_words _), (array_includes goodbye_words _);
      reflexivity.
Qed.

(** *** Utterances without keyword overlap *)

Lemma score_keyword_miss (cleanMessage : string) (words : list string)
    (intent : string) (sc : obj Z) (keyword : string) :
  keyword_misses cleanMessage words keyword = true ->
  score_keyword cleanMessage words intent sc keyword = sc.
Proof.
  unfold keyword_misses, score_keyword. intros H.
  apply andb_true_iff in H as [H1 H2]. apply negb_true_iff in H1. rewrite H1.
  induction words as [| w words IH]; simpl in *; [reflexivity |].
  apply andb_true_iff in H2 as [Hw H2]. apply negb_true_iff in Hw.
  rewrite Hw. apply IH, H2.
Qed.

Lemma no_overlap_scores (intents : obj (list string)) (message : string) :
  no_overlap intents message = true ->
  compute_scores intents message = initial_scores intents message.
Proof.
  unfold no_overlap. rewrite compute_scores_unfold.
  generalize (initial_scores intents message) as sc.
  induction intents as [| [k kws] rest IH]; simpl; intros sc H; [reflexivity |].
  apply andb_true_iff in H as [Hk Hrest].
  replace (score_intent _ _ sc (k, kws)) with sc; [apply IH, Hrest |].
  unfold score_intent. simpl. clear IH Hrest.
  induction kws as [| kw kws IHk]; simpl in *; [reflexivity |].
  apply andb_true_iff in Hk as [Hkw Hk].
  rewrite score_keyword_miss by exact Hkw. apply IHk, Hk.
Qed.

Lemma no_overlap_keyword (intents : obj (list string)) (message : string)
    (k : string) (kws : list string) (kw : string) :
  no_overlap intents message = true -> In (k, kws) intents -> In kw kws ->
  keyword_misses (trim (toLowerCase message)) (split (trim (toLowerCase message))) kw
  = true.
Proof.
  unfold no_overlap. intros H Hk Hkw.
  rewrite forallb_forall in H. specialize (H _ Hk). simpl in H.
  rewrite forallb_forall in H. apply H, Hkw.
Qed.

Lemma split_nonempty (s : string) : split s <> [].
Proof.
  destruct s as [| c s]; simpl; [discriminate |].
  destruct (Ascii.eqb c " "); [discriminate |].
  destruct (split s); discriminate.
Qed.

Lemma split_hd_prefix (s : string) : String.prefix (hd EmptyString (split s)) s = true.
Proof.
  induction s as [| c s IH]; simpl; [reflexivity |].
  destruct (Ascii.eqb c " "); simpl; [reflexivity |].
  destruct (split s) as [| w ws] eqn:E; simpl in *.
  - destruct (ascii_dec c c); [| congruence]. destruct s; reflexivity.
  - destruct (ascii_dec c c); [exact IH | congruence].
Qed.

Lemma includes_prefix (s t : string) : String.prefix t s = true -> includes s t = true.
Proof. intros H. destruct s; simpl in *; rewrite H; reflexivity. Qed.

Lemma includes_first_word (s : string) : includes s (hd EmptyString (split s)) = true.
Proof. apply includes_prefix, split_hd_prefix. Qed.

Lemma first_word_In (s : string) : In (hd EmptyString (split s)) (split s).
Proof. pose proof (split_nonempty s). destruct (split s); [congruence | left; reflexivity]. Qed.

Lemma array_includes_In (l : list string) (w : string) :
  array_includes l w = true -> In w l.
Proof.
  unfold array_includes. intros H. apply existsb_exists in H as (x & Hx & E).
  apply String.eqb_eq in E. subst. exact Hx.
Qed.

(** A first word from one of the two special lists is itself keyword
    overlap: eight of the nine words are keywords, and [thank] occurs in
    the keyword [thank you]. *)
Lemma no_overlap_not_special (intents : obj (list string)) (message : string) :
  learned intents ->
  no_overlap intents message = true ->
  let firstWord := hd EmptyString (split (trim (toLowerCase message))) in
  array_includes greeting_words firstWord = false
  /\ array_includes goodbye_words firstWord = false.
Proof.
  intros Hlearned H firstWord.
  destruct (learned_grows intents Hlearned) as [_ Hext].
  set (clean := trim (toLowerCase message)) in *.
  assert (Hmiss : forall k kws kw,
             obj_get intents_init k = Some kws -> In kw kws ->
             keyword_misses clean (split clean) kw = true).
  { intros k kws kw Hk Hkw. destruct (Hext k kws Hk) as [more Hmore].
    apply (no_overlap_keyword intents message k (kws ++ more) kw H).
    - apply obj_get_Some_In, Hmore.
    - apply in_or_app. left. exact Hkw. }
  assert (Hphrase : forall k kws kw,
             obj_get intents_init k = Some kws -> In kw kws ->
             toLowerCase kw = kw -> firstWord <> kw).
  { intros k kws kw Hk Hkw Hlow E.
    pose proof (Hmiss k kws kw Hk Hkw) as M.
    unfold keyword_misses in M. apply andb_true_iff in M as [M _].
    rewrite Hlow, <- E in M. unfold firstWord in M.
    fold clean in M. rewrite includes_first_word in M. discriminate. }
  split.
  - destruct (array_includes greeting_words firstWord) eqn:E; [| reflexivity].
    exfalso. apply array_includes_In in E.
    assert (Hg : obj_get intents_init "greeting"
                 = Some ["hello"; "hi"; "hey"; "good morning"; "good afternoon";
                         "good evening"; "greetings"; "welcome"; "start"; "begin";
                         "sup"; "howdy"]) by reflexivity.
    simpl in E. repeat destruct E as [E | E]; try contradiction;
      symmetry in E; revert E; eapply Hphrase; try exact Hg; try reflexivity;
      simpl; tauto.
  - destruct (array_includes goodbye_words firstWord) eqn:E; [| reflexivity].
    exfalso. apply array_includes_In in E.
    assert (Hg : obj_get intents_init "goodbye"
                 = Some ["bye"; "goodbye"; "see you"; "farewell"; "exit"; "quit";
                         "leave"; "thank you"; "thanks"; "done"]) by reflexivity.
    simpl in E. destruct E as [E | [E | [E | [E | []]]]].
    1-3: symmetry in E; revert E; eapply Hphrase; try exact Hg; try reflexivity;
      simpl; tauto.
    pose proof (Hmiss "goodbye" _ "thank you" Hg) as M.
    unfold keyword_misses in M. lapply M; [clear M; intros M | simpl; tauto].
    apply andb_true_iff in M as [_ M]. rewrite forallb_forall in M.
    specialize (M firstWord (first_word_In clean)).
    rewrite <- E in M. discriminate.
Qed.

Lemma no_overlap_zero (intents : obj (list string)) (message : string) :
  learned intents ->
  no_overlap intents message = true ->
  forall k v, In (k, v) (compute_scores intents message) -> v = 0.
Proof.
  intros Hlearned H k v. rewrite (no_overlap_scores _ _ H).
  rewrite (initial_scores_learned intents message Hlearned).
  destruct (no_overlap_not_special intents message Hlearned H) as [Hg Hb].
  unfold initial_scores. rewrite Hg, Hb.
  destruct (_ <=? 2); simpl; intros Hin;
    repeat (destruct Hin as [Hin | Hin]; [inversion Hin; reflexivity |]);
    contradiction.
Qed.

(** The keyword table of a chatbot only ever changes by learning. *)
Lemma processMessage_keeps_learned (env : Env) (message sessionId : string)
    (bot : Chatbot) :
  learned (intents bot) ->
  learned (intents (snd (IntelligentChatbot.processMessage env message sessionId bot))).
Proof.
  intros H.
  unfold IntelligentChatbot.processMessage, try_catch, IntelligentChatbot.pipeline,
    bind, read, modify, ret.
  destruct (classify (intents bot) _) as [intent | e]; [| exact H].
  assert (H1 : learned
                 (intents (snd (IntelligentChatbot.updateContext intent
                                  (EntityExtractor.extract
                                     (IntelligentChatbot.preprocessMessage message))
                                  sessionId bot)))).
  { unfold IntelligentChatbot.updateContext.
    destruct (IntelligentChatbot.finds_inherited bot sessionId); exact H. }
  destruct (IntelligentChatbot.updateContext intent _ sessionId bot) as [[[] | e] bot1];
    cbn [snd] in H1 |- *; [| exact H1].
  destruct (IntelligentChatbot.generateResponse _ env intent _ sessionId)
    as [response | e]; [| exact H1].
  unfold IntelligentChatbot.storeConversation, IntelligentChatbot.updateLearningModel.
  cbn [conv_intent userMessage intents snd].
  destruct (0.8 <? _)%float; cbn [intents snd]; [apply learned_reinforce |]; exact H1.
Qed.

End Classify.

Section ClassifyConfidence.
Import JsString IntentClassifier.

Lemma winner_is_known (intents : obj (list string)) (message winner : string) (score : Z) :
  learned intents ->
  In (winner, score) (compute_scores intents message) -> winner <> "unknown".
Proof.
  intros Hlearned Hin E. apply (in_map fst) in Hin. simpl in Hin.
  change (map fst (compute_scores intents message))
    with (obj_keys (compute_scores intents message)) in Hin.
  rewrite (compute_scores_keys_learned intents message Hlearned), E in Hin.
  simpl in Hin. intuition discriminate.
Qed.

(** C4: whatever the classifier has learned, the confidence [classify]
    returns is the step function of the winning score (the largest of the
    scores): 0.95 from 100 on, [min(0.9, 0.7 + score * 0.02)] between 5 and
    100, [min(0.7, 0.4 + score * 0.1)] from 1 to 5, and 0.2 at 0; the name
    is [unknown] exactly when the winning score is 0 or the confidence is
    below 0.3, and the winner's name otherwise. An utterance without
    keyword overlap with any intent is classified [unknown] with confidence
    0.2. *)
Theorem classify_confidence_step_function :
  forall (intents : obj (list string)) (message : string),
    learned intents ->
    exists (winner : string) (score : Z) (i : Intent.t),
      bestIntent (compute_scores intents message) = Ok (winner, score)
      /\ (forall k v, In (k, v) (compute_scores intents message) -> v <= score)
      /\ 0 <= score
      /\ classify intents message = Ok i
      /\ (100 <= score -> Intent.confidence i = 0.95%float)
      /\ (5 < score < 100 ->
          Intent.confidence i
          = JsNumber.min 0.9 (0.7 + JsNumber.of_Z score * 0.02)%float)
      /\ (0 < score <= 5 ->
          Intent.confidence i
          = JsNumber.min 0.7 (0.4 + JsNumber.of_Z score * 0.1)%float)
      /\ (score = 0 -> Intent.confidence i = 0.2%float)
      /\ Intent.name i
         = (if (score =? 0) || (Intent.confidence i <? 0.3)%float
            then "unknown" else winner)
      /\ winner <> "unknown"
      /\ (no_overlap intents message = true ->
          Intent.name i = "unknown" /\ Intent.confidence i = 0.2%float).
Proof.
  intros intents message Hlearned.
  destruct (classify_shape intents message (learned_nonempty intents Hlearned))
    as (winner & score & Hbest & Hin & Hmax & Hpos & Hclassify).
  eexists winner, score, _. split; [exact Hbest |].
  split; [exact Hmax |]. split; [exact Hpos |]. split; [exact Hclassify |].
  cbn [Intent.confidence Intent.name]. repeat split.
  - apply confidence_large.
  - intros [H1 H2]. unfold confidence_of.
    replace (100 <=? score) with false by (symmetry; apply Z.leb_gt; lia).
    replace (5 <? score) with true by (symmetry; apply Z.ltb_lt; lia).
    reflexivity.
  - intros [H1 H2]. unfold confidence_of.
    replace (100 <=? score) with false by (symmetry; apply Z.leb_gt; lia).
    replace (5 <? score) with false by (symmetry; apply Z.ltb_ge; lia).
    replace (0 <? score) with true by (symmetry; apply Z.ltb_lt; lia).
    reflexivity.
  - intros ->. reflexivity.
  - apply (winner_is_known intents message winner score Hlearned Hin).
  - rewrite (no_overlap_zero intents message Hlearned H winner score Hin). reflexivity.
  - rewrite (no_overlap_zero intents message Hlearned H winner score Hin). reflexivity.
Qed.

Lemma classify_confidence_step_function_witness :
  exists (winner : string) (score : Z) (i : Intent.t),
    bestIntent (compute_scores intents_init "xyzzy plugh") = Ok (winner, score)
    /\ (forall k v, In (k, v) (compute_scores intents_init "xyzzy plugh") -> v <= score)
    /\ 0 <= score
    /\ classify intents_init "xyzzy plugh" = Ok i
    /\ (100 <= score -> Intent.confidence i = 0.95%float)
    /\ (5 < score < 100 ->
        Intent.confidence i
        = JsNumber.min 0.9 (0.7 + JsNumber.of_Z score * 0.02)%float)
    /\ (0 < score <= 5 ->
        Intent.confidence i
        = JsNumber.min 0.7 (0.4 + JsNumber.of_Z score * 0.1)%float)
    /\ (score = 0 -> Intent.confidence i = 0.2%float)
    /\ Intent.name i
       = (if (score =? 0) || (Intent.confidence i <? 0.3)%float
          then "unknown" else winner)
    /\ winner <> "unknown"
    /\ (no_overlap intents_init "xyzzy plugh" = true ->
        Intent.name i = "unknown" /\ Intent.confidence i = 0.2%float).
Proof.
  apply (classify_confidence_step_function intents_init "xyzzy plugh").
  exact learned_init.
Defined.

(** C10: whatever the classifier has learned, the confidence [classify]
    returns lies between 0.2 and 0.95; the name is [unknown] exactly when
    the winning score is 0, and then the confidence is 0.2; a positive
    winning score gives a confidence of at least 0.5, so the test for a
    confidence below 0.3 never decides. *)
Theorem classify_confidence_range :
  forall (intents : obj (list string)) (message : string),
    learned intents ->
    exists (winner : string) (score : Z) (i : Intent.t),
      bestIntent (compute_scores intents message) = Ok (winner, score)
      /\ 0 <= score
      /\ classify intents message = Ok i
      /\ (0.2 <=? Intent.confidence i)%float = true
      /\ (Intent.confidence i <=? 0.95)%float = true
      /\ (Intent.name i = "unknown" <-> score = 0)
      /\ (score = 0 -> Intent.confidence i = 0.2%float)
      /\ (0 < score ->
          (0.5 <=? Intent.confidence i)%float = true
          /\ (Intent.confidence i <? 0.3)%float = false
          /\ Intent.name i = winner).
Proof.
  intros intents message Hlearned.
  destruct (classify_shape intents message (learned_nonempty intents Hlearned))
    as (winner & score & Hbest & Hin & Hmax & Hpos & Hclassify).
  eexists winner, score, _. split; [exact Hbest |].
  split; [exact Hpos |]. split; [exact Hclassify |].
  cbn [Intent.confidence Intent.name].
  pose proof (winner_is_known intents message winner score Hlearned Hin) as Hknown.
  destruct (Z.eq_dec score 0) as [-> | Hnz].
  - repeat split; try reflexivity; lia.
  - assert (Hok : confidence_ok score = true) by (apply confidence_positive; lia).
    unfold confidence_ok in Hok.
    apply andb_true_iff in Hok as [Hok H3]. apply andb_true_iff in Hok as [Hok H2].
    apply andb_true_iff in Hok as [H0 H1]. apply negb_true_iff in H3.
    replace (score =? 0) with false by (symmetry; apply Z.eqb_neq; exact Hnz).
    rewrite H3. simpl. repeat split; try assumption; try congruence; try lia.
Qed.

Lemma classify_confidence_range_witness :
  exists (winner : string) (score : Z) (i : Intent.t),
    bestIntent (compute_scores intents_init "reduce carbon") = Ok (winner, score)
    /\ 0 <= score
    /\ classify intents_init "reduce carbon" = Ok i
    /\ (0.2 <=? Intent.confidence i)%float = true
    /\ (Intent.confidence i <=? 0.95)%float = true
    /\ (Intent.name i = "unknown" <-> score = 0)
    /\ (score = 0 -> Intent.confidence i = 0.2%float)
    /\ (0 < score ->
        (0.5 <=? Intent.confidence i)%float = true
        /\ (Intent.confidence i <? 0.3)%float = false
        /\ Intent.name i = winner).
Proof.
  apply (classify_confidence_range intents_init "reduce carbon").
  exact learned_init.
Defined.

End ClassifyConfidence.

Section ShortGreeting.
Import JsString IntentClassifier.

Variables (cleanMessage : string) (words : list string).

Lemma word_loop_get (keywordLower intent : string) (ws : list string) (sc : obj Z) (v : Z) :
  obj_get sc intent = Some v ->
  obj_get
    (fold_left
       (fun s word =>
          if includes keywordLower word && (2 <? JsString.length word)
          then obj_add s intent 1 else s)
       ws sc) intent
  = Some (v + word_hits keywordLower ws).
Proof.
  unfold word_hits. revert sc v.
  induction ws as [| w ws IH]; intros sc v H; cbn [fold_left List.filter].
  - cbn [List.length]. rewrite Z.add_0_r. exact H.
  - destruct (includes keywordLower w && (2 <? JsString.length w)).
    + rewrite (IH _ (v + 1)) by (apply obj_add_get_eq, H).
      cbn [List.length]. rewrite Nat2Z.inj_succ. f_equal. lia.
    + apply IH, H.
Qed.

Lemma score_keyword_get (intent : string) (sc : obj Z) (keyword : string) (v : Z) :
  obj_get sc intent = Some v ->
  obj_get (score_keyword cleanMessage words intent sc keyword) intent
  = Some (v + keyword_points cleanMessage words keyword).
Proof.
  intros H. unfold score_keyword, keyword_points.
  destruct (includes cleanMessage (toLowerCase keyword)).
  - rewrite (word_loop_get _ _ _ _ (v + Z.of_nat (List.length (split (toLowerCase keyword))) * 3))
      by (apply obj_add_get_eq, H).
    f_equal. lia.
  - rewrite (word_loop_get _ _ _ _ v H). f_equal.
Qed.

Lemma score_intent_get (sc : obj Z) (k : string) (kws : list string) (v : Z) :
  obj_get sc k = Some v ->
  obj_get (score_intent cleanMessage words sc (k, kws)) k
  = Some (v + intent_points cleanMessage words kws).
Proof.
  unfold score_intent. simpl. revert sc v.
  induction kws as [| kw kws IH]; intros sc v H; simpl.
  - rewrite Z.add_0_r. exact H.
  - rewrite (IH _ (v + keyword_points cleanMessage words kw))
      by (apply score_keyword_get, H).
    f_equal. lia.
Qed.

Lemma score_intent_other (sc : obj Z) (entry : string * list string) (k : string) :
  fst entry <> k ->
  obj_get (score_intent cleanMessage words sc entry) k = obj_get sc k.
Proof.
  intros Hne. unfold score_intent.
  apply (fold_left_preserves (fun s => obj_get s k = obj_get sc k)); [| reflexivity].
  intros s kw Hs.
  apply (score_keyword_preserves (fun s' => obj_get s' k = obj_get sc k)); [| exact Hs].
  intros s' n _ Hs'. rewrite obj_add_get_ne by exact Hne. exact Hs'.
Qed.

Lemma scores_fold_other (table : obj (list string)) (sc : obj Z) (k : string) :
  ~ In k (obj_keys table) ->
  obj_get (fold_left (score_intent cleanMessage words) table sc) k = obj_get sc k.
Proof.
  revert sc. induction table as [| entry table IH]; intros sc Hk; simpl; [reflexivity |].
  simpl in Hk. rewrite IH by tauto. apply score_intent_other. tauto.
Qed.

(** The score of an intent when the loops are done: what it started
    with plus the points of its keywords. *)
Lemma scores_fold_get (table : obj (list string)) (sc : obj Z) (k : string)
    (kws : list string) (v : Z) :
  List.NoDup (obj_keys table) -> In (k, kws) table -> obj_get sc k = Some v ->
  obj_get (fold_left (score_intent cleanMessage words) table sc) k
  = Some (v + intent_points cleanMessage words kws).
Proof.
  revert sc. induction table as [| [k0 kws0] table IH]; intros sc Hnd Hin Hget;
    simpl in *; [contradiction |].
  apply NoDup_cons_iff in Hnd as [Hnotin Hnd].
  destruct Hin as [E | Hin].
  - inversion E; subst. rewrite scores_fold_other by exact Hnotin.
    apply score_intent_get, Hget.
  - apply IH; [exact Hnd | exact Hin |].
    rewrite score_intent_other; [exact Hget |].
    simpl. intros ->. apply Hnotin. apply (in_map fst) in Hin. exact Hin.
Qed.

Lemma word_hits_bounds (keywordLower : string) :
  0 <= word_hits keywordLower words <= Z.of_nat (List.length words).
Proof.
  unfold word_hits. split; [lia |]. apply inj_le.
  induction words as [| w ws IH]; cbn [List.filter List.length]; [lia |].
  destruct (_ && _); cbn [List.length]; lia.
Qed.

Lemma keyword_points_nonneg (keyword : string) : 0 <= keyword_points cleanMessage words keyword.
Proof.
  unfold keyword_points. pose proof (word_hits_bounds (toLowerCase keyword)).
  destruct (includes _ _); lia.
Qed.

Lemma intent_points_nonneg (kws : list string) : 0 <= intent_points cleanMessage words kws.
Proof.
  induction kws as [| kw kws IH]; simpl; [lia |].
  pose proof (keyword_points_nonneg kw). lia.
Qed.

Lemma intent_points_ge (kws : list string) (kw : string) :
  In kw kws -> keyword_points cleanMessage words kw <= intent_points cleanMessage words kws.
Proof.
  induction kws as [| kw' kws IH]; simpl; [contradiction |].
  pose proof (keyword_points_nonneg kw'). pose proof (intent_points_nonneg kws).
  intros [-> | Hin]; [lia | specialize (IH Hin); lia].
Qed.

Lemma intent_points_cap (kws : list string) :
  (List.length words <= 2)%nat -> intent_points cleanMessage words kws <= cap kws.
Proof.
  intros Hlen. induction kws as [| kw kws IH]; simpl; [lia |].
  unfold keyword_points. pose proof (word_hits_bounds (toLowerCase kw)).
  destruct (includes _ _); lia.
Qed.

End ShortGreeting.

Section ShortGreetingClaim.
Import JsString IntentClassifier IntelligentChatbot.

Lemma others_capped_true : others_capped = true.
Proof. vm_compute. reflexivity. Qed.

Lemma intents_init_NoDup : List.NoDup (obj_keys intents_init).
Proof.
  unfold intents_init, obj_keys. simpl.
  repeat (constructor; [simpl; intuition discriminate |]).
  constructor.
Qed.

Lemma greeting_initial_scores (message : string) :
  let words := split (trim (toLowerCase message)) in
  (List.length words <= 2)%nat ->
  array_includes greeting_words (hd EmptyString words) = true ->
  initial_scores intents_init message = greeting_scores.
Proof.
  intros words Hlen Hgreet. unfold initial_scores. fold words.
  replace (Z.of_nat (List.length words) <=? 2) with true
    by (symmetry; apply Z.leb_le; lia).
  cbv zeta. rewrite Hgreet.
  apply array_includes_In in Hgreet. simpl in Hgreet.
  destruct Hgreet as [E | [E | [E | [E | [E | []]]]]]; rewrite <- E; reflexivity.
Qed.

Lemma keyword_points_phrase (cleanMessage : string) (words : list string)
    (keyword : string) :
  includes cleanMessage (toLowerCase keyword) = true ->
  3 <= keyword_points cleanMessage words keyword.
Proof.
  intros H. unfold keyword_points. rewrite H.
  pose proof (word_hits_bounds words (toLowerCase keyword)).
  pose proof (split_nonempty (toLowerCase keyword)).
  destruct (split (toLowerCase keyword)); [congruence |].
  cbn [List.length]. lia.
Qed.

Lemma greeting_points (message : string) :
  let cleanMessage := trim (toLowerCase message) in
  let words := split cleanMessage in
  array_includes greeting_words (hd EmptyString words) = true ->
  forall kws, obj_get intents_init "greeting" = Some kws ->
  3 <= intent_points cleanMessage words kws.
Proof.
  intros cleanMessage words Hgreet kws Hkws.
  pose proof (includes_first_word cleanMessage) as Hinc. fold words in Hinc.
  injection Hkws as <-.
  apply array_includes_In in Hgreet. simpl in Hgreet.
  assert (Hlow : toLowerCase (hd EmptyString words) = hd EmptyString words).
  { destruct Hgreet as [E | [E | [E | [E | [E | []]]]]]; rewrite <- E; reflexivity. }
  etransitivity.
  - apply (keyword_points_phrase cleanMessage words (hd EmptyString words)).
    rewrite Hlow. exact Hinc.
  - apply intent_points_ge.
    destruct Hgreet as [E | [E | [E | [E | [E | []]]]]]; rewrite <- E; simpl; tauto.
Qed.

(** C3 (amended): when the lower-cased and trimmed utterance, split at
    every single space, has at most two pieces and the first piece is one
    of [hello], [hi], [hey], [sup], [howdy], the classifier built by the
    constructor returns the intent [greeting] with confidence 0.95. *)
Theorem classify_short_greeting :
  forall message : string,
    let words := split (trim (toLowerCase message)) in
    (List.length words <= 2)%nat ->
    array_includes greeting_words (hd EmptyString words) = true ->
    exists i : Intent.t,
      classify intents_init message = Ok i
      /\ Intent.name i = "greeting"
      /\ Intent.confidence i = 0.95%float.
Proof.
  intros message words Hlen Hgreet.
  set (cleanMessage := trim (toLowerCase message)) in *.
  pose proof (compute_scores_keys_learned intents_init message learned_init) as Hkeys.
  destruct (compute_scores_wf intents_init message) as [Hnd _].
  assert (Hget : forall k kws, In (k, kws) intents_init ->
                   forall v0, obj_get greeting_scores k = Some v0 ->
                   obj_get (compute_scores intents_init message) k
                   = Some (v0 + intent_points cleanMessage words kws)).
  { intros k kws Hin v0 Hv0. rewrite compute_scores_unfold.
    rewrite (greeting_initial_scores message Hlen Hgreet).
    apply scores_fold_get; [apply intents_init_NoDup | exact Hin | exact Hv0]. }
  destruct (compute_scores intents_init message) as [| [k0 v0] es] eqn:Esc;
    [discriminate |].
  injection Hkeys as Hk0 Hes. subst k0.
  assert (Hv0 : 103 <= v0).
  { pose proof (Hget "greeting" _ (or_introl eq_refl) 100 eq_refl) as H.
    cbn [obj_get] in H. rewrite String.eqb_refl in H. injection H as ->.
    pose proof (greeting_points message Hgreet _ eq_refl) as Hp.
    fold cleanMessage in Hp. fold words in Hp.
    unfold intent_points in Hp |- *. cbn [fold_right] in Hp |- *. lia. }
  assert (Hothers : forall x, In x es -> snd x < v0).
  { intros [k v] Hx. simpl.
    assert (Hk : In k (map fst (tl intents_init))).
    { change (map fst (tl intents_init)) with (tl (obj_keys intents_init)).
      simpl tl. rewrite <- Hes. apply (in_map fst) in Hx. exact Hx. }
    apply in_map_iff in Hk as ([k' kws] & Ek & Hin). simpl in Ek. subst k'.
    assert (Hin' : In (k, kws) intents_init) by (right; exact Hin).
    pose proof others_capped_true as Hcap. unfold others_capped in Hcap.
    rewrite forallb_forall in Hcap. specialize (Hcap _ Hin'). cbn [fst snd] in Hcap.
    assert (Hne : String.eqb k "greeting" = false).
    { apply String.eqb_neq. intros ->.
      apply NoDup_cons_iff in Hnd as [Hnotin _]. apply Hnotin.
      apply (in_map fst) in Hx. exact Hx. }
    rewrite Hne, orb_false_l in Hcap.
    apply andb_true_iff in Hcap as [Hcap Hzero].
    destruct (obj_get greeting_scores k) as [z |] eqn:Ez; [| discriminate].
    apply Z.eqb_eq in Hzero. subst z. apply Z.leb_le in Hcap.
    pose proof (Hget k kws Hin' 0 Ez) as Hscore.
    rewrite (obj_get_In _ k v Hnd (or_intror Hx)) in Hscore.
    injection Hscore as ->.
    pose proof (intent_points_cap cleanMessage words kws Hlen). lia. }
  unfold classify. rewrite Esc.
  rewrite (bestIntent_first ("greeting", v0) es Hnd Hothers). simpl.
  rewrite confidence_large by lia.
  replace (v0 =? 0) with false by (symmetry; apply Z.eqb_neq; lia).
  eexists. split; [reflexivity |]. split; reflexivity.
Qed.

Lemma classify_short_greeting_witness :
  exists i : Intent.t,
    classify intents_init "Hello there" = Ok i
    /\ Intent.name i = "greeting"
    /\ Intent.confidence i = 0.95%float.
Proof.
  apply (classify_short_greeting "Hello there").
  - simpl. lia.
  - reflexivity.
Defined.

(** Counterexample to C3 as stated: with two spaces between its two
    words the utterance has two white-space tokens, the first of them [hi],
    but the classifier splits it into three pieces, skips the greeting
    override and returns [greeting] with confidence 0.7. *)
Lemma short_greeting_two_spaces :
  let message := "hi  there" in
  let tokens := whitespace_tokens (trim (toLowerCase message)) in
  tokens = ["hi"; "there"]
  /\ (List.length tokens <= 2)%nat
  /\ array_includes greeting_words (hd EmptyString tokens) = true
  /\ split (trim (toLowerCase message)) = ["hi"; EmptyString; "there"]
  /\ exists i : Intent.t,
       classify intents_init message = Ok i
       /\ Intent.name i = "greeting"
       /\ Intent.confidence i = 0.7%float
       /\ Intent.confidence i <> 0.95%float.
Proof.
  repeat split; try (simpl; lia).
  eexists. split; [vm_compute; reflexivity |].
  repeat split.
  simpl. intros E. apply (f_equal (fun c => (c <? 0.8)%float)) in E.
  vm_compute in E. discriminate.
Qed.

(** Why the greeting theorem is stated for the constructor's table: one
    utterance can teach the classifier enough keywords containing [there]
    for [calculate_carbon] to reach the score of the greeting override. *)
Example learning_can_outvote_greeting :
  let bot := snd (processMessage (mkEnv 0 "") lesson "default" new) in
  learned (intents bot)
  /\ exists i : Intent.t,
       classify (intents bot) "hi there" = Ok i
       /\ Intent.name i = "calculate_carbon"
       /\ Intent.confidence i = 0.95%float.
Proof.
  split.
  - apply processMessage_keeps_learned. exact learned_init.
  - eexists. split; [vm_compute; reflexivity |]. split; reflexivity.
Qed.

End ShortGreetingClaim.

(** * Further properties of the code *)

(** ** What the entity patterns capture *)

Section RegexSoundness.
Import JsString Regex EntityExtractor.

Lemma append_cons (c : ascii) (s1 s2 : string) : String c s1 ++ s2 = String c (s1 ++ s2).
Proof. reflexivity. Qed.

Lemma append_empty_r (s : string) : s ++ EmptyString = s.
Proof.
  induction s as [| c s IH]; [reflexivity |]. rewrite append_cons, IH. reflexivity.
Qed.

Lemma append_assoc_string (s1 s2 s3 : string) : (s1 ++ s2) ++ s3 = s1 ++ (s2 ++ s3).
Proof.
  induction s1 as [| c s1 IH]; [reflexivity |]. rewrite !append_cons, IH. reflexivity.
Qed.

Lemma length_append_string (s1 s2 : string) :
  String.length (s1 ++ s2) = (String.length s1 + String.length s2)%nat.
Proof.
  induction s1 as [| c s1 IH]; [reflexivity |]. rewrite append_cons. simpl.
  rewrite IH. reflexivity.
Qed.

Lemma substring_prefix (s1 s2 : string) :
  String.substring 0 (String.length s1) (s1 ++ s2) = s1.
Proof.
  induction s1 as [| c s1 IH].
  - destruct s2; reflexivity.
  - rewrite append_cons. simpl. rewrite IH. reflexivity.
Qed.

(** A successful [run] has consumed a match of the expression and handed
    the rest to its continuation. *)
Lemma run_sound (r : regex) :
  forall (s : string) (k : string -> option string) (x : string),
    run r s k = Some x ->
    exists pre rest, s = pre ++ rest /\ matches r pre /\ k rest = Some x.
Proof.
  induction r as [| c | p | r1 IH1 r2 IH2 | r1 IH1 r2 IH2 | r1 IH1]; intros s k x H.
  - exists EmptyString, s. repeat split; [constructor | exact H].
  - simpl in H. destruct s as [| y s']; [discriminate |].
    destruct (ci_eq y c) eqn:E; [| discriminate].
    exists (String y EmptyString), s'. repeat split; [constructor; exact E | exact H].
  - simpl in H. destruct s as [| y s']; [discriminate |].
    destruct (p y) eqn:E; [| discriminate].
    exists (String y EmptyString), s'. repeat split; [constructor; exact E | exact H].
  - simpl in H. apply IH1 in H as (pre1 & rest1 & -> & M1 & H).
    apply IH2 in H as (pre2 & rest2 & -> & M2 & H).
    exists (pre1 ++ pre2), rest2. rewrite append_assoc_string.
    repeat split; [constructor; assumption | exact H].
  - simpl in H. destruct (run r1 s k) eqn:E.
    + injection H as ->. apply IH1 in E as (pre & rest & -> & M & E).
      exists pre, rest. repeat split; [apply matches_alt_l, M | exact E].
    + apply IH2 in H as (pre & rest & -> & M & H).
      exists pre, rest. repeat split; [apply matches_alt_r, M | exact H].
  - simpl in H. revert H. generalize (String.length s) as fuel. intros fuel. revert s.
    induction fuel as [| fuel IHf]; intros s H.
    + exists EmptyString, s. repeat split; [constructor | exact H].
    + match type of H with
      | match ?t with _ => _ end = _ => destruct t eqn:E
      end.
      * injection H as ->. apply IH1 in E as (pre1 & rest1 & -> & M1 & E).
        destruct (_ <? _)%nat; [| discriminate].
        apply IHf in E as (pre2 & rest2 & -> & M2 & E).
        exists (pre1 ++ pre2), rest2. rewrite append_assoc_string.
        repeat split; [apply matches_star_cons; assumption | exact E].
      * exists EmptyString, s. repeat split; [constructor | exact H].
Qed.

(** A match at the start of the message captures a prefix of it. *)
Lemma exec_at_sound (p : pattern) (s c : string) :
  exec_at p s = Some c -> exists rest, s = c ++ rest /\ matches (group1 p) c.
Proof.
  unfold exec_at. destruct (run (group1 p) s _) as [s1 |] eqn:E; [| discriminate].
  intros [= <-].
  apply run_sound in E as (pre & rest1 & -> & M & E).
  apply run_sound in E as (_ & _ & _ & _ & [= <-]).
  exists rest1. split; [| ].
  - rewrite length_append_string.
    replace (String.length pre + String.length rest1 - String.length rest1)%nat
      with (String.length pre) by lia.
    rewrite substring_prefix. reflexivity.
  - rewrite length_append_string.
    replace (String.length pre + String.length rest1 - String.length rest1)%nat
      with (String.length pre) by lia.
    rewrite substring_prefix. exact M.
Qed.

Lemma match1_sound (p : pattern) (s c : string) :
  match1 p s = Some c ->
  exists before rest, s = before ++ c ++ rest /\ matches (group1 p) c.
Proof.
  induction s as [| y s IH]; simpl.
  - destruct (exec_at p EmptyString) as [c' |] eqn:E; [| discriminate].
    intros [= <-]. apply exec_at_sound in E as (rest & E & M).
    exists EmptyString, rest. split; [exact E | exact M].
  - destruct (exec_at p (String y s)) as [c' |] eqn:E.
    + intros [= <-]. apply exec_at_sound in E as (rest & E & M).
      exists EmptyString, rest. split; [exact E | exact M].
    + intros H. apply IH in H as (before & rest & -> & M).
      exists (String y before), rest. split; [reflexivity | exact M].
Qed.

Lemma prefix_append (s1 s2 : string) : String.prefix s1 (s1 ++ s2) = true.
Proof.
  induction s1 as [| c s1 IH].
  - destruct s2; reflexivity.
  - rewrite append_cons. simpl. destruct (ascii_dec c c); [exact IH | congruence].
Qed.

Lemma includes_append (before c rest : string) : includes (before ++ c ++ rest) c = true.
Proof.
  induction before as [| y before IH].
  - change (EmptyString ++ c ++ rest) with (c ++ rest).
    apply includes_prefix, prefix_append.
  - rewrite append_cons. simpl. rewrite IH. apply orb_true_r.
Qed.

End RegexSoundness.

Section PatternLanguage.
Import JsString Regex EntityExtractor.

Lemma all_ascii_complete (P : ascii -> bool) :
  forallb P all_ascii = true -> forall x, P x = true.
Proof.
  intros H x. rewrite forallb_forall in H. apply H.
  unfold all_ascii. rewrite <- (ascii_nat_embedding x).
  apply in_map, in_seq. pose proof (nat_ascii_bounded x). lia.
Qed.

Lemma all_chars_append (P : ascii -> bool) (s1 s2 : string) :
  all_chars P (s1 ++ s2) = all_chars P s1 && all_chars P s2.
Proof.
  induction s1 as [| c s1 IH]; [reflexivity |].
  rewrite append_cons. simpl. rewrite IH, andb_assoc. reflexivity.
Qed.

Lemma all_chars_impl (P Q : ascii -> bool) (s : string) :
  (forall x, P x = true -> Q x = true) -> all_chars P s = true -> all_chars Q s = true.
Proof.
  intros HPQ. induction s as [| c s IH]; simpl; [reflexivity |].
  intros H. apply andb_true_iff in H as [Hc Hs].
  rewrite (HPQ c Hc), (IH Hs). reflexivity.
Qed.

(** A match is made of characters the expression can use. *)
Lemma matches_may_use (r : regex) (s : string) :
  matches r s -> all_chars (may_use r) s = true.
Proof.
  induction 1 as [| c x E | p x E | r1 r2 s1 s2 _ IH1 _ IH2 | r1 r2 s _ IH | r1 r2 s _ IH
                  | r | r s1 s2 _ IH1 _ IH2]; simpl.
  - reflexivity.
  - rewrite E. reflexivity.
  - rewrite E. reflexivity.
  - rewrite all_chars_append. apply andb_true_iff. split.
    + apply (all_chars_impl (may_use r1)); [| exact IH1]. intros x ->. reflexivity.
    + apply (all_chars_impl (may_use r2)); [| exact IH2].
      intros x ->. apply orb_true_r.
  - apply (all_chars_impl (may_use r1)); [| exact IH]. intros x ->. reflexivity.
  - apply (all_chars_impl (may_use r2)); [| exact IH]. intros x ->. apply orb_true_r.
  - reflexivity.
  - rewrite all_chars_append. apply andb_true_iff. split; [exact IH1 | exact IH2].
Qed.

Lemma matches_leading (r : regex) (s : string) :
  matches r s ->
  forall p, leading r = Some p -> exists x s', s = String x s' /\ p x = true.
Proof.
  induction 1 as [| c x E | p0 x E | r1 r2 s1 s2 _ IH1 _ _ | r1 r2 s _ IH | r1 r2 s _ IH
                  | r | r s1 s2 _ _ _ _]; simpl; intros p Hp; try discriminate.
  - injection Hp as <-. eauto.
  - injection Hp as <-. eauto.
  - destruct (IH1 p Hp) as (x & s' & -> & Hx). exists x, (s' ++ s2). split; [reflexivity | exact Hx].
  - destruct (leading r1) as [p1 |]; [| discriminate].
    destruct (leading r2) as [p2 |]; [| discriminate].
    injection Hp as <-. destruct (IH p1 eq_refl) as (x & s' & -> & Hx).
    exists x, s'. rewrite Hx. split; reflexivity.
  - destruct (leading r1) as [p1 |]; [| discriminate].
    destruct (leading r2) as [p2 |]; [| discriminate].
    injection Hp as <-. destruct (IH p2 eq_refl) as (x & s' & -> & Hx).
    exists x, s'. rewrite Hx. split; [reflexivity | apply orb_true_r].
Qed.

Lemma numeric_group_sound (r : regex) (s : string) :
  numeric_group r = true -> matches r s ->
  starts_with_digit s = true /\ all_chars numeric_char s = true.
Proof.
  unfold numeric_group. intros H M. apply andb_true_iff in H as [Hlead Huse].
  destruct (leading r) as [p |] eqn:E; [| discriminate]. split.
  - destruct (matches_leading r s M p E) as (x & s' & -> & Hx). simpl.
    pose proof (all_ascii_complete _ Hlead x) as Hi. simpl in Hi.
    rewrite Hx in Hi. exact Hi.
  - apply (all_chars_impl (may_use r)); [| apply matches_may_use, M].
    intros x Hx. pose proof (all_ascii_complete _ Huse x) as Hi. simpl in Hi.
    rewrite Hx in Hi. exact Hi.
Qed.

(** Every pattern but [industry] has a numeric group. *)
Lemma patterns_numeric :
  forallb (fun entry => String.eqb (fst entry) "industry" || numeric_group (group1 (snd entry)))
    patterns = true.
Proof. vm_compute. reflexivity. Qed.

Lemma matches_lit (w s : string) : matches (lit w) s -> toLowerCase s = toLowerCase w.
Proof.
  revert s. induction w as [| c w IH]; intros s M; simpl in M.
  - inversion M. reflexivity.
  - inversion M as [| | | r1 r2 s1 s2 M1 M2 | | | |]; subst.
    inversion M1 as [| c' x E | | | | | |]; subst.
    rewrite append_cons. change (EmptyString ++ s2) with s2.
    simpl. rewrite (IH _ M2).
    unfold ci_eq in E. apply Ascii.eqb_eq in E. rewrite E. reflexivity.
Qed.

Lemma matches_alts (rs : list regex) (s : string) :
  rs <> [] -> matches (alts rs) s -> exists r, In r rs /\ matches r s.
Proof.
  induction rs as [| r rs IH]; [congruence |]. intros _ M.
  destruct rs as [| r' rs'].
  - exists r. split; [left; reflexivity | exact M].
  - change (alts (r :: r' :: rs')) with (Alt r (alts (r' :: rs'))) in M.
    inversion M as [| | | | r1 r2 s0 M1 | r1 r2 s0 M2 | |]; subst.
    + exists r. split; [left; reflexivity | exact M1].
    + destruct (IH ltac:(discriminate) M2) as (r0 & Hin & Hr0).
      exists r0. split; [right; exact Hin | exact Hr0].
Qed.

Lemma industry_group_names (p : pattern) (s : string) :
  obj_get patterns "industry" = Some p -> matches (group1 p) s ->
  In (toLowerCase s) industry_names.
Proof.
  intros Hp M. vm_compute in Hp. injection Hp as <-. cbn [group1] in M.
  change (matches (alts (map lit industry_names)) s) in M.
  apply matches_alts in M as (r & Hr & M); [| discriminate].
  apply in_map_iff in Hr as (w & <- & Hw).
  rewrite (matches_lit w s M).
  unfold industry_names in Hw |- *. simpl in Hw.
  repeat (destruct Hw as [<- | Hw]; [simpl; tauto |]). contradiction.
Qed.

End PatternLanguage.

(** ** The entities of a message *)

Section ExtractedValues.
Import JsString Regex EntityExtractor IntelligentChatbot.

Lemma patterns_lookup_cases (type : string) (p : pattern) :
  obj_get patterns type = Some p ->
  type = "industry" \/ (String.eqb type "industry" = false /\ numeric_group (group1 p) = true).
Proof.
  intros Hget. apply obj_get_Some_In in Hget.
  pose proof patterns_numeric as H. rewrite forallb_forall in H.
  specialize (H _ Hget). cbn [fst snd] in H.
  destruct (String.eqb type "industry") eqn:E.
  - left. apply String.eqb_eq, E.
  - right. split; [reflexivity | exact H].
Qed.

(** Every entity carries a match of the group of its pattern, found
    inside the message. *)
Lemma extract_matches (message : string) :
  Forall (fun e => exists p before rest,
              obj_get patterns (Entity.type e) = Some p
              /\ matches (group1 p) (Entity.value e)
              /\ message = before ++ Entity.value e ++ rest)
    (extract message).
Proof.
  eapply List.Forall_impl; [| apply extract_values].
  intros e (p & Hget & Hm). apply match1_sound in Hm as (before & rest & Heq & M).
  exists p, before, rest. auto.
Qed.

Lemma captured_shape (type value : string) (p : pattern) :
  obj_get patterns type = Some p -> matches (group1 p) value ->
  if String.eqb type "industry"
  then In (toLowerCase value) industry_names
  else quantity value = true.
Proof.
  intros Hget M. destruct (patterns_lookup_cases type p Hget) as [-> | [E Hnum]].
  - rewrite String.eqb_refl. apply (industry_group_names p value Hget M).
  - rewrite E. destruct (numeric_group_sound _ _ Hnum M) as [H1 H2].
    unfold quantity. rewrite H1, H2. reflexivity.
Qed.

Lemma captured_nonempty (type value : string) (p : pattern) :
  obj_get patterns type = Some p -> matches (group1 p) value -> value <> EmptyString.
Proof.
  intros Hget M Hv. pose proof (captured_shape type value p Hget M) as H.
  subst value. destruct (String.eqb type "industry").
  - simpl in H. repeat (destruct H as [H | H]; [discriminate |]). contradiction.
  - discriminate.
Qed.

Lemma all_chars_inside (P : ascii -> bool) (before c rest : string) :
  all_chars P (before ++ c ++ rest) = true -> all_chars P c = true.
Proof.
  rewrite !all_chars_append. intros H.
  apply andb_true_iff in H as [_ H]. apply andb_true_iff in H as [H _]. exact H.
Qed.

Lemma find_type_absent (entities : list Entity.t) (type : string) :
  ~ In type (map Entity.type entities) -> find_type entities type = None.
Proof.
  intros Hnot. unfold find_type.
  destruct (List.find _ entities) as [e |] eqn:E; [| reflexivity].
  apply find_some in E as [Hin Heq]. apply String.eqb_eq in Heq.
  exfalso. apply Hnot. rewrite <- Heq. apply in_map, Hin.
Qed.

Lemma extract_types (message : string) (type : string) :
  In type (map Entity.type (extract message)) -> In type (obj_keys patterns).
Proof. rewrite extract_flat_map. apply emitted_types. Qed.

(** X1: every value [extract] returns is a non-empty piece of the
    message it was given: the message is some text, the value, and some
    more text, so [message.includes(value)] holds. *)
Theorem extract_values_occur :
  forall message : string,
    Forall (fun e => Entity.value e <> EmptyString
                     /\ includes message (Entity.value e) = true
                     /\ exists before rest, message = before ++ Entity.value e ++ rest)
      (extract message).
Proof.
  intros message. eapply List.Forall_impl; [| apply extract_matches].
  intros e (p & before & rest & Hget & M & Heq). split; [| split].
  - apply (captured_nonempty _ _ p Hget M).
  - rewrite Heq at 1. apply includes_append.
  - exists before, rest. exact Heq.
Qed.

(** X2: the value of an [industry] entity is, up to the case of its
    letters, one of the nine industry names; the value of every other
    entity starts with a digit and is made of digits, commas and dots. *)
Theorem extract_value_shapes :
  forall message : string,
    Forall (fun e => if String.eqb (Entity.type e) "industry"
                     then In (toLowerCase (Entity.value e)) industry_names
                     else quantity (Entity.value e) = true)
      (extract message).
Proof.
  intros message. eapply List.Forall_impl; [| apply extract_matches].
  intros e (p & before & rest & Hget & M & _). apply (captured_shape _ _ p Hget M).
Qed.

Lemma starts_with_digit_has_digit (s : string) :
  starts_with_digit s = true -> all_chars no_digit s = false.
Proof.
  destruct s as [| c s]; [discriminate |]. simpl. unfold no_digit.
  intros ->. reflexivity.
Qed.

Lemma only_industry_fields (entities : list Entity.t) :
  Forall (fun e => Entity.type e = "industry") entities ->
  List.filter (fun e => array_includes calculation_fields (Entity.type e)) entities = []
  /\ find_type entities "percentage" = None
  /\ find_type entities "timeframe" = None.
Proof.
  induction 1 as [| e l He _ IH]; [repeat split |].
  destruct IH as (IH1 & IH2 & IH3). unfold find_type in *. simpl.
  rewrite He. simpl. auto.
Qed.

(** X3: a message without a digit yields no entity but, possibly, the
    industry: the calculation data then lists all five fields as missing,
    and the target reduction and the time frame are the defaults. *)
Theorem extract_without_digits :
  forall message : string,
    all_chars no_digit message = true ->
    Forall (fun e => Entity.type e = "industry") (extract message)
    /\ extractCalculationData (extract message)
       = mkCalculationData false [] calculation_fields []
    /\ extractTargetReduction (extract message) = JsNumber.of_integer 50
    /\ extractTimeframe (extract message) = "5_years".
Proof.
  intros message Hno.
  assert (Hind : Forall (fun e => Entity.type e = "industry") (extract message)).
  { eapply List.Forall_impl; [| apply extract_matches].
    intros e (p & before & rest & Hget & M & Heq).
    pose proof (captured_shape _ _ p Hget M) as Hshape.
    destruct (String.eqb (Entity.type e) "industry") eqn:E; [apply String.eqb_eq, E |].
    unfold quantity in Hshape. apply andb_true_iff in Hshape as [Hd _].
    apply starts_with_digit_has_digit in Hd.
    rewrite Heq in Hno. apply all_chars_inside in Hno. congruence. }
  split; [exact Hind |].
  destruct (only_industry_fields _ Hind) as (H1 & H2 & H3).
  unfold extractCalculationData, extractTargetReduction, extractTimeframe, value_or.
  fold calculation_fields. rewrite H1, H2, H3. repeat split.
Qed.

Lemma extract_without_digits_witness :
  Forall (fun e => Entity.type e = "industry") (extract "we are a retail shop")
  /\ extractCalculationData (extract "we are a retail shop")
     = mkCalculationData false [] calculation_fields []
  /\ extractTargetReduction (extract "we are a retail shop") = JsNumber.of_integer 50
  /\ extractTimeframe (extract "we are a retail shop") = "5_years".
Proof. apply (extract_without_digits "we are a retail shop"). reflexivity. Defined.

Lemma digit_not_space :
  forallb (fun x => implb (is_digit x) (negb (is_space x))) all_ascii = true.
Proof. vm_compute. reflexivity. Qed.

Lemma digit_value_nonneg (radix : Z) (c : ascii) (v : Z) :
  0 <= radix -> digit_value radix c = Some v -> 0 <= v.
Proof.
  intros Hr. unfold digit_value. cbv zeta.
  set (n := Z.of_N (code c)).
  destruct ((48 <=? n) && (n <=? 57)) eqn:E1;
  [| destruct ((97 <=? n) && (n <=? 122)) eqn:E2;
     [| destruct ((65 <=? n) && (n <=? 90)) eqn:E3]];
  match goal with |- context [?a <? radix] => destruct (a <? radix) end;
  intros H; try discriminate; injection H as <-; lia.
Qed.

Lemma parse_digits_number (radix : Z) (s : string) :
  0 <= radix -> forall acc, 0 <= acc ->
  exists n, parse_digits radix (Some acc) s = Some n /\ 0 <= n.
Proof.
  intros Hr. induction s as [| c s IH]; intros acc Hacc; simpl.
  - exists acc. auto.
  - destruct (digit_value radix c) as [v |] eqn:E.
    + apply IH. apply digit_value_nonneg in E; [| exact Hr]. simpl. nia.
    + exists acc. auto.
Qed.

Lemma digit_value_digit (c : ascii) :
  is_digit c = true -> exists v, digit_value 10 c = Some v /\ 0 <= v.
Proof.
  intros H. unfold is_digit in H. unfold digit_value.
  replace ((48 <=? Z.of_N (code c)) && (Z.of_N (code c) <=? 57)) with true.
  - exists (Z.of_N (code c) - 48).
    apply andb_true_iff in H as [H1 H2].
    apply N.leb_le in H1. apply N.leb_le in H2.
    replace (Z.of_N (code c) - 48 <? 10) with true by lia. split; [reflexivity | lia].
  - apply andb_true_iff in H as [H1 H2].
    apply N.leb_le in H1. apply N.leb_le in H2. lia.
Qed.

(** [parseInt] of a string that starts with a digit and goes on with
    digits, commas and dots reads decimal digits. *)
Lemma parseInt_quantity (s : string) :
  quantity s = true -> exists n, 0 <= n /\ parseInt s = JsNumber.of_integer n.
Proof.
  unfold quantity. intros H. apply andb_true_iff in H as [Hd Hn].
  destruct s as [| c s]; [discriminate |]. simpl in Hd, Hn.
  apply andb_true_iff in Hn as [_ Hn].
  assert (Hparse : exists n, parse_digits 10 None (String c s) = Some n /\ 0 <= n).
  { simpl. destruct (digit_value_digit c Hd) as (v & -> & Hv).
    apply parse_digits_number; simpl; lia. }
  assert (Hsp : is_space c = false).
  { pose proof (all_ascii_complete _ digit_not_space c) as Hc. simpl in Hc.
    rewrite Hd in Hc. simpl in Hc. apply negb_true_iff, Hc. }
  destruct Hparse as (n & Hparse & Hn0). exists n. split; [exact Hn0 |].
  unfold parseInt. cbn [trimStart]. rewrite Hsp.
  destruct c as [b0 b1 b2 b3 b4 b5 b6 b7].
  destruct b0, b1, b2, b3, b4, b5, b6, b7; try discriminate Hd;
    try (rewrite Hparse; reflexivity).
  destruct s as [| c2 s]; [rewrite Hparse; reflexivity |].
  simpl in Hn. apply andb_true_iff in Hn as [Hc2 _].
  destruct c2 as [b0 b1 b2 b3 b4 b5 b6 b7].
  destruct b0, b1, b2, b3, b4, b5, b6, b7; try discriminate Hc2;
    rewrite Hparse; reflexivity.
Qed.

(** Rounding an integer that is not negative gives a number that is
    neither [NaN] nor negative: the shifts and the rounding step keep the
    mantissa from becoming negative. *)
Lemma shr_1_nonneg (mrs : shr_record) : 0 <= shr_m mrs -> 0 <= shr_m (shr_1 mrs).
Proof.
  destruct mrs as [m r sticky]. destruct m as [| q | q]; simpl; try lia.
  destruct q; simpl; lia.
Qed.

Lemma iter_shr_1_nonneg (q : positive) :
  forall mrs, 0 <= shr_m mrs -> 0 <= shr_m (SpecFloat.iter_pos shr_1 q mrs).
Proof.
  induction q as [q IH | q IH |]; intros mrs H; simpl.
  - apply IH, IH, shr_1_nonneg, H.
  - apply IH, IH, H.
  - apply shr_1_nonneg, H.
Qed.

Lemma shr_fexp_nonneg (m e : Z) (l : location) :
  0 <= m -> 0 <= shr_m (fst (shr_fexp 53 1024 m e l)).
Proof.
  intros H. unfold shr_fexp, shr.
  assert (H0 : 0 <= shr_m (shr_record_of_loc m l)) by (destruct l as [| []]; exact H).
  destruct (_ - e) as [| q | q]; cbn [fst]; [exact H0 | | exact H0].
  apply iter_shr_1_nonneg, H0.
Qed.

Lemma round_nearest_even_nonneg (m : Z) (l : location) :
  0 <= m -> 0 <= round_nearest_even m l.
Proof.
  intros H. destruct l as [| []]; simpl; try lia. destruct (Z.even m); lia.
Qed.

Lemma binary_round_aux_not_negative (m e : Z) (l : location) :
  0 <= m -> not_negative (binary_round_aux 53 1024 false m e l) = true.
Proof.
  intros H. unfold binary_round_aux.
  pose proof (shr_fexp_nonneg m e l H) as H1.
  destruct (shr_fexp 53 1024 m e l) as [mrs1 e1]. cbn [fst] in H1.
  pose proof (shr_fexp_nonneg _ e1 loc_Exact
                (round_nearest_even_nonneg _ (loc_of_shr_record mrs1) H1)) as H2.
  destruct (shr_fexp 53 1024 _ e1 loc_Exact) as [mrs2 e2]. cbn [fst] in H2.
  destruct (shr_m mrs2) as [| q | q]; [reflexivity | | lia].
  destruct (e2 <=? _); reflexivity.
Qed.

Lemma of_integer_not_negative (n : Z) :
  0 <= n -> not_negative (JsNumber.of_integer n) = true.
Proof.
  intros H. unfold JsNumber.of_integer, binary_normalize.
  destruct n as [| q | q]; [reflexivity | | lia].
  unfold binary_round. destruct (shl_align _ _ _) as [mz ez].
  apply binary_round_aux_not_negative. lia.
Qed.

(** X4: the target reduction read from the entities of a message is the
    binary64 value nearest to a non-negative integer (infinite when the
    digits are too many), so never [NaN] and never negative: a captured
    percentage starts with decimal digits, and [parseInt] reads them
    without seeing a sign or a hexadecimal prefix; without a percentage
    the target is 50. *)
Theorem extractTargetReduction_is_a_number :
  forall message : string,
    exists n : Z,
      0 <= n
      /\ extractTargetReduction (extract message) = JsNumber.of_integer n
      /\ not_negative (extractTargetReduction (extract message)) = true.
Proof.
  intros message.
  assert (H : exists n, 0 <= n
                        /\ extractTargetReduction (extract message) = JsNumber.of_integer n).
  { unfold extractTargetReduction, find_type.
    destruct (List.find _ (extract message)) as [e |] eqn:E.
    - apply find_some in E as [Hin Htype]. apply String.eqb_eq in Htype.
      pose proof (extract_matches message) as H. rewrite List.Forall_forall in H.
      destruct (H e Hin) as (p & before & rest & Hget & M & _).
      pose proof (captured_shape _ _ p Hget M) as Hshape.
      rewrite Htype in Hshape. simpl in Hshape.
      apply parseInt_quantity, Hshape.
    - exists 50. split; [lia | reflexivity]. }
  destruct H as (n & Hn & Heq). exists n. split; [exact Hn |]. split; [exact Heq |].
  rewrite Heq. apply of_integer_not_negative, Hn.
Qed.

(** The rounding is not the identity: sixteen digits can already be too
    many for binary64, and enough digits give infinity. *)
Example extractTargetReduction_rounds :
  extractTargetReduction (extract "cut 9007199254740993 percent")
  = JsNumber.of_integer 9007199254740992
  /\ JsNumber.of_integer 9007199254740993 = JsNumber.of_integer 9007199254740992
  /\ JsNumber.of_integer (10 ^ 309) = S754_infinity false.
Proof. repeat split; vm_compute; reflexivity. Qed.

Lemma value_or_absent (message type default : string) :
  ~ In type (obj_keys patterns) -> value_or (extract message) type default = default.
Proof.
  intros Hnot. unfold value_or. rewrite find_type_absent; [reflexivity |].
  intros Hin. apply Hnot, (extract_types message), Hin.
Qed.

(** X5: the extractor has no pattern for emission levels, concepts,
    standards, regions or analysis types, so on the entities of any
    message these lookups give their defaults, and the replies that
    explain a concept or a standard are the same for every message. *)
Theorem extract_never_names_a_concept :
  forall message : string,
    extractEmissionLevel (extract message) = "medium"
    /\ extractConcept (extract message) = "carbon_footprint"
    /\ extractStandard (extract message) = "ghg_protocol"
    /\ extractRegion (extract message) = "global"
    /\ extractAnalysisType (extract message) = "cost_benefit"
    /\ handleConceptExplanation (extract message) = handleConceptExplanation []
    /\ handleComplianceQuestions (extract message) = handleComplianceQuestions [].
Proof.
  intros message.
  assert (H1 : extractEmissionLevel (extract message) = "medium")
    by (apply value_or_absent; simpl; intuition discriminate).
  assert (H2 : extractConcept (extract message) = "carbon_footprint")
    by (apply value_or_absent; simpl; intuition discriminate).
  assert (H3 : extractStandard (extract message) = "ghg_protocol")
    by (apply value_or_absent; simpl; intuition discriminate).
  assert (H4 : extractRegion (extract message) = "global")
    by (apply value_or_absent; simpl; intuition discriminate).
  assert (H5 : extractAnalysisType (extract message) = "cost_benefit")
    by (apply value_or_absent; simpl; intuition discriminate).
  repeat split; try assumption.
  - unfold handleConceptExplanation. rewrite H2. reflexivity.
  - unfold handleComplianceQuestions. rewrite H3, H4. reflexivity.
Qed.

Lemma array_includes_iff (l : list string) (w : string) :
  array_includes l w = true <-> In w l.
Proof.
  unfold array_includes. rewrite existsb_exists. split.
  - intros (x & Hin & Heq). apply String.eqb_eq in Heq. subst. exact Hin.
  - intros Hin. exists w. split; [exact Hin | apply String.eqb_refl].
Qed.

Lemma mentionedFields_iff (entities : list Entity.t) (f : string) :
  In f (mentionedFields (extractCalculationData entities))
  <-> In f calculation_fields /\ In f (map Entity.type entities).
Proof.
  unfold extractCalculationData. cbn [mentionedFields]. fold calculation_fields.
  rewrite !in_map_iff. split.
  - intros (e & <- & He). apply filter_In in He as [Hin Hf].
    split; [apply array_includes_iff, Hf | exists e; auto].
  - intros (Hf & e & <- & Hin). exists e. split; [reflexivity |].
    apply filter_In. split; [exact Hin | apply array_includes_iff, Hf].
Qed.

Lemma missingFields_iff (entities : list Entity.t) (f : string) :
  In f (missingFields (extractCalculationData entities))
  <-> In f calculation_fields /\ ~ In f (map Entity.type entities).
Proof.
  pose proof (mentionedFields_iff entities f) as Hm. revert Hm.
  unfold extractCalculationData. cbn [mentionedFields missingFields].
  fold calculation_fields. intros Hm.
  rewrite filter_In, negb_true_iff, <- not_true_iff_false, array_includes_iff, Hm.
  tauto.
Qed.

(** X6: for any list of entities, [extractCalculationData] sorts the five
    fields into two lists: a field is mentioned exactly when an entity of
    that type is in the list, missing exactly when none is, and nothing
    else is in either list; there is no partial data exactly when all
    five fields are missing. *)
Theorem extractCalculationData_partition :
  forall entities : list Entity.t,
    (forall f, In f (mentionedFields (extractCalculationData entities))
               <-> In f calculation_fields /\ In f (map Entity.type entities))
    /\ (forall f, In f (missingFields (extractCalculationData entities))
                  <-> In f calculation_fields /\ ~ In f (map Entity.type entities))
    /\ (hasPartialData (extractCalculationData entities) = false
        <-> missingFields (extractCalculationData entities) = calculation_fields).
Proof.
  intros entities. split; [| split].
  - apply mentionedFields_iff.
  - apply missingFields_iff.
  - pose proof (mentionedFields_iff entities) as Hm.
    pose proof (missingFields_iff entities) as Hs. revert Hm Hs.
    unfold extractCalculationData.
    cbn [mentionedFields missingFields hasPartialData]. fold calculation_fields.
    set (mentioned := List.filter _ entities). intros Hm Hs. split.
    + intros H. destruct mentioned as [| e l]; [reflexivity | discriminate].
    + intros Heq. destruct mentioned as [| e l]; [reflexivity | exfalso].
      assert (Hin : In (Entity.type e) (map Entity.type (e :: l))) by (left; reflexivity).
      pose proof (proj1 (Hm _) Hin) as [Hf Hty].
      rewrite Heq in Hs. apply (proj1 (Hs _)) in Hf as [_ Hnot]. exact (Hnot Hty).
Qed.

Lemma emitted_by_key (message : string) (table : obj pattern) :
  (forall k p, In (k, p) table -> obj_get patterns k = Some p) ->
  flat_map (emitted message) table = flat_map (entity_of message) (obj_keys table).
Proof.
  induction table as [| [k p] table IH]; intros H; [reflexivity |].
  cbn [flat_map obj_keys map fst]. fold (obj_keys table).
  rewrite IH by (intros k' p' Hin; apply H; right; exact Hin).
  f_equal. unfold emitted, entity_of, capture. cbn [fst snd].
  rewrite (H k p) by (left; reflexivity). reflexivity.
Qed.

(** [extract] goes through the types in the order of the table. *)
Lemma extract_by_key (message : string) :
  extract message = flat_map (entity_of message) (obj_keys patterns).
Proof.
  rewrite extract_flat_map. apply emitted_by_key.
  intros k p Hin. apply obj_get_In; [apply patterns_NoDup | exact Hin].
Qed.

Lemma filter_entity_of (message type : string) (fields : list string) :
  List.filter (fun e => array_includes fields (Entity.type e)) (entity_of message type)
  = if array_includes fields type then entity_of message type else [].
Proof.
  unfold entity_of. destruct (capture message type); simpl.
  - destruct (array_includes fields type); reflexivity.
  - destruct (array_includes fields type); reflexivity.
Qed.

(** X7: on the entities of a message the mentioned fields are the fields
    whose pattern matches in the message, in the order energy, fuel,
    employees, travel, waste and without repetition; the missing fields
    are the others, in the same order. *)
Theorem extractCalculationData_of_extract :
  forall message : string,
    mentionedFields (extractCalculationData (extract message))
    = List.filter (has_match message) calculation_fields
    /\ missingFields (extractCalculationData (extract message))
       = List.filter (fun f => negb (has_match message f)) calculation_fields
    /\ hasPartialData (extractCalculationData (extract message))
       = existsb (has_match message) calculation_fields.
Proof.
  intros message. rewrite extract_by_key.
  replace (obj_keys patterns)
    with ["energy"; "fuel"; "employees"; "travel"; "waste";
          "percentage"; "industry"; "timeframe"] by reflexivity.
  unfold calculation_fields, extractCalculationData.
  cbn [mentionedFields missingFields hasPartialData flat_map List.filter existsb].
  rewrite !List.filter_app, !filter_entity_of.
  cbn [array_includes existsb String.eqb Ascii.eqb Bool.eqb orb app].
  unfold has_match, entity_of.
  destruct (capture message "energy"), (capture message "fuel"),
    (capture message "employees"), (capture message "travel"),
    (capture message "waste"); (split; [| split]); reflexivity.
Qed.

End ExtractedValues.

(** ** What preprocessing leaves of a message *)

Section Preprocessing.
Import JsString Regex EntityExtractor IntelligentChatbot.

Lemma strip_char_clean :
  forallb (fun c => implb (Ascii.eqb (lower_char c) c)
                      (is_space (strip_char c) || clean_char (strip_char c)))
    all_ascii = true.
Proof. vm_compute. reflexivity. Qed.

Lemma space_is_space :
  forallb (fun c => implb (Ascii.eqb c " ") (is_space c)) all_ascii = true.
Proof. vm_compute. reflexivity. Qed.

Lemma not_space_char (c : ascii) : is_space c = false -> Ascii.eqb c " " = false.
Proof.
  intros H. pose proof (all_ascii_complete _ space_is_space c) as Hc. simpl in Hc.
  rewrite H in Hc. destruct (Ascii.eqb c " "); [discriminate | reflexivity].
Qed.

Lemma collapse_strip_clean (s : string) :
  lowered s -> forall in_run,
  all_chars clean_char (collapse_spaces in_run (strip_punctuation s)) = true.
Proof.
  induction s as [| c s IH]; intros Hl in_run; [reflexivity |].
  destruct Hl as [Hc Hl]. cbn [strip_punctuation collapse_spaces].
  pose proof (all_ascii_complete _ strip_char_clean c) as Hchar. simpl in Hchar.
  rewrite Hc, Ascii.eqb_refl in Hchar. simpl in Hchar.
  destruct (is_space (strip_char c)).
  - destruct in_run; [apply IH, Hl |]. cbn [all_chars]. rewrite (IH Hl). reflexivity.
  - cbn [all_chars]. simpl in Hchar. rewrite Hchar, (IH Hl). reflexivity.
Qed.

Lemma collapse_no_double (s : string) :
  forall in_run,
    no_double_space (collapse_spaces in_run s) = true
    /\ (in_run = true -> starts_with_space (collapse_spaces in_run s) = false).
Proof.
  induction s as [| c s IH]; intros in_run; [split; reflexivity |].
  cbn [collapse_spaces]. destruct (is_space c) eqn:E.
  - destruct in_run.
    + apply IH.
    + destruct (IH true) as [H1 H2]. split; [| discriminate].
      cbn [no_double_space]. rewrite (H2 eq_refl), H1. reflexivity.
  - destruct (IH false) as [H1 _]. apply not_space_char in E. split.
    + cbn [no_double_space]. rewrite E, H1. reflexivity.
    + intros _. exact E.
Qed.

Lemma all_chars_lowered (s : string) :
  all_chars clean_char s = true -> lowered s.
Proof.
  induction s as [| c s IH]; simpl; [tauto |].
  intros H. apply andb_true_iff in H as [Hc Hs]. split; [| apply IH, Hs].
  pose proof (all_ascii_complete
                (fun c => implb (clean_char c) (Ascii.eqb (lower_char c) c))
                ltac:(vm_compute; reflexivity) c) as Hchar.
  simpl in Hchar. rewrite Hc in Hchar. apply Ascii.eqb_eq, Hchar.
Qed.

Lemma preprocessMessage_clean (message : string) :
  all_chars clean_char (preprocessMessage message) = true.
Proof.
  unfold preprocessMessage, trim. apply collapse_strip_clean.
  apply lowered_trimEnd, lowered_trimStart, lowered_toLowerCase.
Qed.

(** X8: a preprocessed message is made of lower-case ASCII letters,
    digits, underscores, dots, hyphens and single spaces: no other
    character is left, no white space but the space, and never two
    spaces in a row; lower-casing it again changes nothing. *)
Theorem preprocessMessage_alphabet :
  forall message : string,
    all_chars clean_char (preprocessMessage message) = true
    /\ no_double_space (preprocessMessage message) = true
    /\ toLowerCase (preprocessMessage message) = preprocessMessage message.
Proof.
  intros message. split; [apply preprocessMessage_clean | split].
  - apply collapse_no_double.
  - apply lowered_fixed, preprocessMessage_lowered.
Qed.

Lemma trimStart_no_double (s : string) :
  no_double_space s = true -> no_double_space (trimStart s) = true.
Proof.
  induction s as [| c s IH]; [reflexivity |]. intros H. cbn [trimStart].
  destruct (is_space c); [| exact H].
  apply IH. cbn [no_double_space] in H. apply andb_true_iff in H as [_ H]. exact H.
Qed.

Lemma trimStart_start (s : string) : starts_with_space (trimStart s) = false.
Proof.
  induction s as [| c s IH]; [reflexivity |]. cbn [trimStart].
  destruct (is_space c) eqn:E; [exact IH | apply not_space_char, E].
Qed.

Lemma trimEnd_head (s : string) (d : ascii) (t : string) :
  trimEnd s = String d t -> exists r, s = String d r.
Proof.
  destruct s as [| c s]; [discriminate |]. cbn [trimEnd].
  destruct (trimEnd s); [destruct (is_space c) |]; intros H;
    try discriminate; injection H as <- _; eauto.
Qed.

Lemma trimEnd_start (s : string) :
  starts_with_space s = false -> starts_with_space (trimEnd s) = false.
Proof.
  intros H. destruct (trimEnd s) as [| d t] eqn:E; [reflexivity |].
  apply trimEnd_head in E as (r & ->). exact H.
Qed.

Lemma trimEnd_no_double (s : string) :
  no_double_space s = true -> no_double_space (trimEnd s) = true.
Proof.
  induction s as [| c s IH]; [reflexivity |]. intros H.
  cbn [no_double_space] in H. apply andb_true_iff in H as [Hc Hs].
  specialize (IH Hs). cbn [trimEnd].
  destruct (trimEnd s) as [| d t] eqn:E.
  - destruct (is_space c); [reflexivity |].
    cbn [no_double_space starts_with_space]. rewrite andb_false_r. reflexivity.
  - apply trimEnd_head in E as (r & ->).
    cbn [no_double_space starts_with_space] in IH |- *.
    cbn [starts_with_space] in Hc. rewrite Hc. exact IH.
Qed.

Lemma trimEnd_end (s : string) : ends_with_space (trimEnd s) = false.
Proof.
  induction s as [| c s IH]; [reflexivity |]. cbn [trimEnd].
  destruct (trimEnd s) as [| d t].
  - destruct (is_space c) eqn:E; [reflexivity |]. simpl. apply not_space_char, E.
  - exact IH.
Qed.

(** Between single spaces, with none at the end, [split] finds no empty
    piece after the first; the first is empty only for the empty string
    and after a leading space. *)
Lemma split_pieces (s : string) :
  no_double_space s = true -> ends_with_space s = false ->
  Forall (fun w => w <> EmptyString) (tl (split s))
  /\ (s <> EmptyString -> starts_with_space s = false -> hd EmptyString (split s) <> EmptyString).
Proof.
  induction s as [| c s IH]; intros Hnd Hend.
  - split; [constructor | congruence].
  - cbn [no_double_space] in Hnd. apply andb_true_iff in Hnd as [Hc Hnd].
    assert (Hend' : ends_with_space s = false) by (destruct s; [reflexivity | exact Hend]).
    destruct (IH Hnd Hend') as [IHtl IHhd].
    cbn [split]. destruct (Ascii.eqb c " ") eqn:E.
    + split; [| intros _ Hs; cbn [starts_with_space] in Hs; congruence].
      cbn [tl]. simpl in Hc. apply negb_true_iff in Hc.
      assert (Hne : s <> EmptyString).
      { intros ->. cbn [ends_with_space] in Hend. congruence. }
      pose proof (split_nonempty s) as Hsplit.
      destruct (split s) as [| w ws]; [congruence |].
      constructor; [apply (IHhd Hne Hc) | exact IHtl].
    + destruct (split s) as [| w ws]; cbn [tl hd] in *.
      * split; [constructor | discriminate].
      * split; [exact IHtl | discriminate].
Qed.

(** X9: inside the pipeline the classifier splits a preprocessed
    message, so its word list holds no empty word: either the trimmed
    message is empty and the list is the one empty string, or every piece
    between two spaces is a non-empty word. *)
Theorem pipeline_words_not_empty :
  forall message : string,
    let cleanMessage := trim (toLowerCase (preprocessMessage message)) in
    (cleanMessage = EmptyString /\ split cleanMessage = [EmptyString])
    \/ (cleanMessage <> EmptyString
        /\ Forall (fun word => word <> EmptyString) (split cleanMessage)).
Proof.
  intros message cleanMessage. subst cleanMessage.
  rewrite (lowered_fixed _ (preprocessMessage_lowered message)). unfold trim.
  set (t := trimEnd (trimStart (preprocessMessage message))).
  assert (H1 : no_double_space t = true)
    by apply trimEnd_no_double, trimStart_no_double, collapse_no_double.
  assert (H2 : starts_with_space t = false) by apply trimEnd_start, trimStart_start.
  assert (H3 : ends_with_space t = false) by apply trimEnd_end.
  clearbody t.
  destruct (split_pieces _ H1 H3) as [Htl Hhd].
  destruct t as [| c t']; [left; split; reflexivity | right].
  split; [discriminate |].
  pose proof (split_nonempty (String c t')) as Hsplit.
  destruct (split (String c t')) as [| w ws]; [congruence |].
  constructor; [apply Hhd; [discriminate | exact H2] | exact Htl].
Qed.

Lemma all_chars_both (P Q R : ascii -> bool) (s : string) :
  (forall c, P c = true -> Q c = true -> R c = true) ->
  all_chars P s = true -> all_chars Q s = true -> all_chars R s = true.
Proof.
  intros H. induction s as [| c s IH]; simpl; [reflexivity |].
  intros HP HQ. apply andb_true_iff in HP as [HP1 HP2].
  apply andb_true_iff in HQ as [HQ1 HQ2].
  rewrite (H c HP1 HQ1), (IH HP2 HQ2). reflexivity.
Qed.

Lemma clean_numeric_char (c : ascii) :
  clean_char c = true -> numeric_char c = true -> digit_or_dot c = true.
Proof.
  intros Hc Hn.
  pose proof (all_ascii_complete
                (fun c => implb (clean_char c && numeric_char c) (digit_or_dot c))
                ltac:(vm_compute; reflexivity) c) as H.
  simpl in H. rewrite Hc, Hn in H. exact H.
Qed.

(** X10: inside the pipeline the patterns see the preprocessed message,
    so a captured quantity is made of digits and dots only (commas and
    percent signs are gone before the patterns run) and a captured
    industry is one of the nine lower-case names itself. *)
Theorem pipeline_values_are_plain :
  forall message : string,
    Forall (fun e => if String.eqb (Entity.type e) "industry"
                     then In (Entity.value e) industry_names
                     else starts_with_digit (Entity.value e) = true
                          /\ all_chars digit_or_dot (Entity.value e) = true)
      (extract (preprocessMessage message)).
Proof.
  intros message. eapply List.Forall_impl; [| apply extract_matches].
  intros e (p & before & rest & Hget & M & Heq).
  pose proof (preprocessMessage_clean message) as Hclean.
  rewrite Heq in Hclean. apply all_chars_inside in Hclean.
  pose proof (captured_shape _ _ p Hget M) as Hshape.
  destruct (String.eqb (Entity.type e) "industry").
  - rewrite (lowered_fixed _ (all_chars_lowered _ Hclean)) in Hshape. exact Hshape.
  - unfold quantity in Hshape. apply andb_true_iff in Hshape as [Hd Hn].
    split; [exact Hd |].
    apply (all_chars_both clean_char numeric_char); [apply clean_numeric_char | |]; assumption.
Qed.

End Preprocessing.

(** ** Learning keywords *)

Section Learning.
Import JsString IntentClassifier.

Lemma reinforcePattern_fold (intents : obj (list string)) (message intentName : string)
    (kws : list string) :
  obj_get intents intentName = Some kws ->
  reinforcePattern intents message intentName
  = fold_left (push_new intentName) (relevantWords message) intents.
Proof.
  intros H. unfold reinforcePattern. rewrite H. fold (relevantWords message).
  destruct (relevantWords message) as [| w ws]; reflexivity.
Qed.

(** The [forEach] appends, in the order of the words, each word that is
    not yet a keyword, once, and touches nothing else. *)
Lemma push_new_fold (intentName : string) (ws : list string) :
  forall (tbl : obj (list string)) (kws : list string),
    obj_get tbl intentName = Some kws ->
    exists added,
      obj_get (fold_left (push_new intentName) ws tbl) intentName = Some (kws ++ added)%list
      /\ (forall w, In w added <-> In w ws /\ ~ In w kws)
      /\ List.NoDup added
      /\ (forall k, k <> intentName ->
          obj_get (fold_left (push_new intentName) ws tbl) k = obj_get tbl k)
      /\ obj_keys (fold_left (push_new intentName) ws tbl) = obj_keys tbl.
Proof.
  induction ws as [| w ws IH]; intros tbl kws Hget.
  - exists []. rewrite app_nil_r. cbn [fold_left].
    split; [exact Hget | split; [| split; [constructor | split; [reflexivity | reflexivity]]]].
    intros w. simpl. tauto.
  - cbn [fold_left]. unfold push_new at 2 4 6. rewrite Hget.
    destruct (array_includes kws w) eqn:E; cbn [negb].
    + apply array_includes_iff in E.
      destruct (IH tbl kws Hget) as (added & H1 & H2 & H3 & H4 & H5).
      exists added. split; [exact H1 | split; [| split; [exact H3 | split; assumption]]].
      intros x. rewrite H2. simpl. split; [tauto |].
      intros [[<- | Hin] Hnot]; [contradiction | tauto].
    + assert (Hnot : ~ In w kws).
      { intros Hin. apply array_includes_iff in Hin. congruence. }
      destruct (IH (obj_set tbl intentName (kws ++ [w])%list) (kws ++ [w])%list)
        as (added & H1 & H2 & H3 & H4 & H5); [apply obj_get_set_eq |].
      exists (w :: added). split; [| split; [| split; [| split]]].
      * rewrite H1, <- app_assoc. reflexivity.
      * intros x. simpl. rewrite H2, in_app_iff. simpl.
        destruct (string_dec w x) as [<- | Hne]; tauto.
      * constructor; [| exact H3]. intros Hin. apply H2 in Hin as [_ Hin].
        apply Hin, in_app_iff. right. left. reflexivity.
      * intros k Hk. rewrite H4 by exact Hk. apply obj_get_set_ne. congruence.
      * rewrite H5. apply (obj_set_keys_present tbl intentName kws), Hget.
Qed.

Lemma push_new_known (intentName : string) (ws : list string) (tbl : obj (list string))
    (kws : list string) :
  obj_get tbl intentName = Some kws -> (forall w, In w ws -> In w kws) ->
  fold_left (push_new intentName) ws tbl = tbl.
Proof.
  intros Hget. induction ws as [| w ws IH]; intros Hall; [reflexivity |].
  cbn [fold_left]. unfold push_new at 2. rewrite Hget.
  assert (E : array_includes kws w = true) by (apply array_includes_iff, Hall; left; reflexivity).
  rewrite E. cbn [negb]. apply IH. intros x Hx. apply Hall. right. exact Hx.
Qed.

Lemma relevantWords_In (message w : string) :
  In w (relevantWords message)
  <-> In w (split (toLowerCase message)) /\ 3 < JsString.length w.
Proof. unfold relevantWords. rewrite filter_In, Z.ltb_lt. reflexivity. Qed.

Lemma filter_twice_comm {A : Type} (p q : A -> bool) (l : list A) :
  List.filter p (List.filter q l) = List.filter q (List.filter p l).
Proof.
  induction l as [| a l IH]; [reflexivity |]. cbn [List.filter].
  destruct (p a) eqn:Ep, (q a) eqn:Eq; cbn [List.filter]; rewrite ?Ep, ?Eq, IH; reflexivity.
Qed.

Lemma filter_without_rejected (p : string -> bool) (a : string) (l : list string) :
  p a = false ->
  List.filter p (List.filter (fun x => negb (String.eqb x a)) l) = List.filter p l.
Proof.
  intros Ha. induction l as [| y l IH]; [reflexivity |]. cbn [List.filter].
  destruct (String.eqb y a) eqn:E; cbn [negb List.filter].
  - apply String.eqb_eq in E. subst y. rewrite Ha. exact IH.
  - rewrite IH. reflexivity.
Qed.

Lemma first_occurrences_filter (p : string -> bool) (l : list string) :
  first_occurrences (List.filter p l) = List.filter p (first_occurrences l).
Proof.
  induction l as [| a l IH]; [reflexivity |]. cbn [List.filter first_occurrences].
  destruct (p a) eqn:Ea; cbn [first_occurrences].
  - rewrite IH, filter_twice_comm. reflexivity.
  - rewrite IH, filter_without_rejected by exact Ea. reflexivity.
Qed.

Lemma array_includes_snoc (kws : list string) (w x : string) :
  array_includes (kws ++ [w])%list x = array_includes kws x || String.eqb x w.
Proof.
  unfold array_includes. rewrite existsb_app. cbn [existsb]. rewrite orb_false_r.
  reflexivity.
Qed.

Lemma filter_new_snoc (kws : list string) (w : string) (l : list string) :
  List.filter (fun x => negb (String.eqb x w))
    (List.filter (fun x => negb (array_includes kws x)) l)
  = List.filter (fun x => negb (array_includes (kws ++ [w])%list x)) l.
Proof.
  induction l as [| y l IH]; [reflexivity |]. cbn [List.filter].
  rewrite array_includes_snoc.
  destruct (array_includes kws y); cbn [negb orb List.filter].
  - exact IH.
  - destruct (String.eqb y w); cbn [negb]; rewrite IH; reflexivity.
Qed.

(** The keyword list after the [forEach], word by word. *)
Lemma push_new_fold_order (intentName : string) (ws : list string) :
  forall (tbl : obj (list string)) (kws : list string),
    obj_get tbl intentName = Some kws ->
    obj_get (fold_left (push_new intentName) ws tbl) intentName
    = Some (kws ++ first_occurrences
                     (List.filter (fun w => negb (array_includes kws w)) ws))%list.
Proof.
  induction ws as [| w ws IH]; intros tbl kws Hget.
  - cbn [fold_left List.filter first_occurrences]. rewrite app_nil_r. exact Hget.
  - cbn [fold_left List.filter]. unfold push_new at 2. rewrite Hget.
    destruct (array_includes kws w) eqn:E; cbn [negb].
    + apply IH, Hget.
    + rewrite (IH _ (kws ++ [w])%list) by apply obj_get_set_eq.
      cbn [first_occurrences]. rewrite <- first_occurrences_filter, filter_new_snoc.
      rewrite <- app_assoc. reflexivity.
Qed.

(** X11: [reinforcePattern] on an intent the table has appends to its
    keyword list the words of the lower-cased message (split at single
    spaces) that are longer than three characters and not yet keywords,
    in the order in which the message has them and each once, at its
    first occurrence; the old keywords keep their places, and every other
    intent and the order of the intents stay as they were. *)
Theorem reinforcePattern_appends_new_long_words :
  forall (intents : obj (list string)) (message intentName : string)
         (kws : list string),
    obj_get intents intentName = Some kws ->
    exists added : list string,
      added = new_keywords kws message
      /\ obj_get (reinforcePattern intents message intentName) intentName
         = Some (kws ++ added)%list
      /\ (forall w, In w added
                    <-> In w (split (toLowerCase message))
                        /\ 3 < JsString.length w /\ ~ In w kws)
      /\ List.NoDup added
      /\ (forall k, k <> intentName ->
          obj_get (reinforcePattern intents message intentName) k = obj_get intents k)
      /\ obj_keys (reinforcePattern intents message intentName) = obj_keys intents.
Proof.
  intros intents message intentName kws Hget.
  rewrite (reinforcePattern_fold _ _ _ kws Hget).
  destruct (push_new_fold intentName (relevantWords message) intents kws Hget)
    as (added & H1 & H2 & H3 & H4 & H5).
  pose proof (push_new_fold_order intentName (relevantWords message) intents kws Hget)
    as Horder.
  exists added. split.
  - rewrite H1 in Horder. injection Horder as Horder.
    apply app_inv_head in Horder. exact Horder.
  - split; [exact H1 | split; [| split; [exact H3 | split; assumption]]].
    intros w. rewrite H2, relevantWords_In. tauto.
Qed.

Lemma reinforcePattern_appends_new_long_words_witness :
  exists added : list string,
    added = new_keywords ["hello"] "Hello there my friend there"
    /\ obj_get (reinforcePattern [("greeting", ["hello"])] "Hello there my friend there"
                  "greeting")
         "greeting" = Some (["hello"] ++ added)%list
    /\ (forall w, In w added
                  <-> In w (split (toLowerCase "Hello there my friend there"))
                      /\ 3 < JsString.length w /\ ~ In w ["hello"])
    /\ List.NoDup added
    /\ (forall k, k <> "greeting" ->
        obj_get (reinforcePattern [("greeting", ["hello"])] "Hello there my friend there"
                   "greeting") k
        = obj_get [("greeting", ["hello"])] k)
    /\ obj_keys (reinforcePattern [("greeting", ["hello"])] "Hello there my friend there"
                   "greeting")
       = obj_keys [("greeting", ["hello"])].
Proof.
  apply (reinforcePattern_appends_new_long_words
           [("greeting", ["hello"])] "Hello there my friend there" "greeting" ["hello"]).
  reflexivity.
Defined.

(** The order is that of the message: a repeated word is added where it
    comes first. *)
Example reinforcePattern_order :
  new_keywords ["hello"] "Hello there my friend there" = ["there"; "friend"]
  /\ obj_get (reinforcePattern [("greeting", ["hello"])] "Hello there my friend there"
                "greeting") "greeting"
     = Some ["hello"; "there"; "friend"].
Proof. split; vm_compute; reflexivity. Qed.

(** X12: [reinforcePattern] with an intent name the table lacks, or with
    a message that has no word longer than three characters, changes
    nothing; and teaching the same message for the same intent a second
    time changes nothing more. *)
Theorem reinforcePattern_idempotent :
  forall (intents : obj (list string)) (message intentName : string),
    (obj_get intents intentName = None ->
     reinforcePattern intents message intentName = intents)
    /\ (relevantWords message = [] ->
        reinforcePattern intents message intentName = intents)
    /\ reinforcePattern (reinforcePattern intents message intentName) message intentName
       = reinforcePattern intents message intentName.
Proof.
  intros intents message intentName. split; [| split].
  - intros H. unfold reinforcePattern. rewrite H. reflexivity.
  - intros H. unfold reinforcePattern. fold (relevantWords message). rewrite H.
    destruct (obj_get intents intentName); reflexivity.
  - destruct (obj_get intents intentName) as [kws |] eqn:Hget.
    + destruct (push_new_fold intentName (relevantWords message) intents kws Hget)
        as (added & H1 & H2 & _).
      rewrite (reinforcePattern_fold _ _ _ kws Hget).
      rewrite (reinforcePattern_fold _ _ _ _ H1).
      apply (push_new_known _ _ _ _ H1).
      intros w Hw. apply in_app_iff.
      destruct (in_dec string_dec w kws) as [Hin | Hnot]; [left; exact Hin |].
      right. apply H2. split; assumption.
    + assert (E : reinforcePattern intents message intentName = intents)
        by (unfold reinforcePattern; rewrite Hget; reflexivity).
      rewrite E. exact E.
Qed.

End Learning.

(** ** What a score is made of *)

Section Scoring.
Import JsString IntentClassifier.

Lemma zero_scores_other (keys : list string) (k : string) :
  ~ In k keys -> forall acc : obj Z,
  obj_get (fold_left (fun sc intent => obj_set sc intent 0) keys acc) k = obj_get acc k.
Proof.
  induction keys as [| k0 keys IH]; intros Hnot acc; [reflexivity |].
  cbn [fold_left]. rewrite IH by (simpl in Hnot; tauto).
  apply obj_get_set_ne. simpl in Hnot. intros ->. tauto.
Qed.

Lemma zero_scores_get (keys : list string) (k : string) :
  In k keys -> forall acc : obj Z,
  obj_get (fold_left (fun sc intent => obj_set sc intent 0) keys acc) k = Some 0.
Proof.
  induction keys as [| k0 keys IH]; intros Hin acc; [contradiction |].
  cbn [fold_left]. destruct (in_dec string_dec k keys) as [Hk | Hk].
  - apply IH, Hk.
  - destruct Hin as [-> | Hin]; [| contradiction].
    rewrite zero_scores_other by exact Hk. apply obj_get_set_eq.
Qed.

Lemma obj_get_set_cases (sc : obj Z) (k k' : string) (v : Z) :
  obj_get (obj_set sc k v) k' = if String.eqb k' k then Some v else obj_get sc k'.
Proof.
  destruct (String.eqb k' k) eqn:E.
  - apply String.eqb_eq in E. subst. apply obj_get_set_eq.
  - apply String.eqb_neq in E. apply obj_get_set_ne. congruence.
Qed.

(** The score an intent of the table has before the keyword loops. *)
Lemma initial_scores_get (intents : obj (list string)) (message k : string) :
  In k (obj_keys intents) ->
  obj_get (initial_scores intents message) k = Some (head_start message k).
Proof.
  intros Hk. unfold initial_scores, head_start. cbv zeta.
  pose proof (zero_scores_get (obj_keys intents) k Hk []) as H0.
  destruct (_ <=? 2); cbn [andb]; [| exact H0].
  destruct (array_includes greeting_words _), (array_includes goodbye_words _);
    rewrite ?obj_get_set_cases, ?andb_true_r, ?andb_false_r, ?orb_false_r, ?orb_false_l, H0;
    destruct (String.eqb k "greeting") eqn:E1, (String.eqb k "goodbye") eqn:E2;
    try reflexivity.
Qed.

(** The score of an intent when [classify] has run its loops. *)
Lemma compute_scores_get (intents : obj (list string)) (message k : string)
    (kws : list string) :
  List.NoDup (obj_keys intents) -> obj_get intents k = Some kws ->
  obj_get (compute_scores intents message) k
  = Some (head_start message k
          + intent_points (trim (toLowerCase message))
              (split (trim (toLowerCase message))) kws).
Proof.
  intros Hnd Hget. rewrite compute_scores_unfold.
  apply obj_get_Some_In in Hget.
  apply scores_fold_get; [exact Hnd | exact Hget |].
  apply initial_scores_get. apply (in_map fst) in Hget. exact Hget.
Qed.

Lemma intent_points_app (cleanMessage : string) (words kws more : list string) :
  intent_points cleanMessage words (kws ++ more)
  = intent_points cleanMessage words kws + intent_points cleanMessage words more.
Proof.
  unfold intent_points. induction kws as [| kw kws IH]; cbn [app fold_right]; [lia |].
  rewrite IH. lia.
Qed.

(** X13: for a keyword table with distinct intent names, the score
    [classify] computes for an intent is its head start (100 for a short
    greeting or goodbye, else 0) plus the points of its keywords: for
    each keyword, three times the number of its words when the message
    contains the keyword, plus one for every word of the message longer
    than two characters that occurs in the keyword. *)
Theorem compute_scores_formula :
  forall (intents : obj (list string)) (message k : string) (kws : list string),
    List.NoDup (obj_keys intents) -> obj_get intents k = Some kws ->
    obj_get (compute_scores intents message) k
    = Some (head_start message k
            + intent_points (trim (toLowerCase message))
                (split (trim (toLowerCase message))) kws).
Proof. intros intents message k kws. apply compute_scores_get. Qed.

Lemma compute_scores_formula_witness :
  obj_get (compute_scores [("greeting", ["hello"]); ("goodbye", ["see you"])]
             "hello and see you")
    "goodbye"
  = Some (head_start "hello and see you" "goodbye"
          + intent_points "hello and see you" ["hello"; "and"; "see"; "you"] ["see you"]).
Proof.
  apply (compute_scores_formula [("greeting", ["hello"]); ("goodbye", ["see you"])]
           "hello and see you" "goodbye" ["see you"]).
  - repeat (constructor; [simpl; intuition discriminate |]). constructor.
  - reflexivity.
Defined.

(** X14: teaching the classifier a message for one intent never lowers
    a score: for any later message the score of the taught intent is at
    least what it was, and the score of every other intent is unchanged. *)
Theorem learning_never_lowers_a_score :
  forall (intents : obj (list string)) (lesson intentName message k : string)
         (kws : list string),
    List.NoDup (obj_keys intents) -> obj_get intents k = Some kws ->
    exists v v' : Z,
      obj_get (compute_scores intents message) k = Some v
      /\ obj_get (compute_scores (reinforcePattern intents lesson intentName) message) k
         = Some v'
      /\ v <= v'
      /\ (k <> intentName -> v' = v).
Proof.
  intros intents lesson intentName message k kws Hnd Hget.
  destruct (reinforcePattern_grows intents lesson intentName) as [Hkeys Hext].
  destruct (Hext k kws Hget) as [more Hmore].
  assert (Hnd' : List.NoDup (obj_keys (reinforcePattern intents lesson intentName)))
    by (rewrite Hkeys; exact Hnd).
  eexists. eexists. split; [apply (compute_scores_get _ _ _ kws Hnd Hget) |].
  split; [apply (compute_scores_get _ _ _ _ Hnd' Hmore) |].
  rewrite intent_points_app. split.
  - pose proof (intent_points_nonneg (trim (toLowerCase message))
                  (split (trim (toLowerCase message))) more). lia.
  - intros Hne.
    assert (E : obj_get (reinforcePattern intents lesson intentName) k = Some kws).
    { destruct (obj_get intents intentName) as [kws_n |] eqn:En.
      - rewrite (reinforcePattern_fold _ _ _ kws_n En).
        destruct (push_new_fold intentName (relevantWords lesson) intents kws_n En)
          as (added & _ & _ & _ & H4 & _).
        rewrite H4 by exact Hne. exact Hget.
      - unfold reinforcePattern. rewrite En. exact Hget. }
    rewrite Hmore in E. injection E as E.
    assert (Hnil : more = []).
    { apply (f_equal (@List.length string)) in E. rewrite length_app in E.
      destruct more; [reflexivity | simpl in E; lia]. }
    rewrite Hnil. simpl. lia.
Qed.

Lemma learning_never_lowers_a_score_witness :
  exists v v' : Z,
    obj_get (compute_scores [("greeting", ["hello"]); ("goodbye", ["see you"])] "good morning")
      "greeting" = Some v
    /\ obj_get (compute_scores
                  (reinforcePattern [("greeting", ["hello"]); ("goodbye", ["see you"])]
                     "good morning" "greeting")
                  "good morning") "greeting" = Some v'
    /\ v <= v'
    /\ ("greeting" <> "greeting" -> v' = v).
Proof.
  apply (learning_never_lowers_a_score
           [("greeting", ["hello"]); ("goodbye", ["see you"])]
           "good morning" "greeting" "good morning" "greeting" ["hello"]).
  - repeat (constructor; [simpl; intuition discriminate |]). constructor.
  - reflexivity.
Defined.

(** The [reduce] keeps the running winner unless the next entry is at
    least as good: what it returns is the last of the best entries. *)
Lemma reduce_last_best (sc : obj Z) (es : list (string * Z)) :
  List.NoDup (obj_keys sc) ->
  forall (pre : list (string * Z)) (a : string * Z) (mid : list (string * Z)),
    (forall x, In x (pre ++ a :: mid ++ es)%list -> In x sc) ->
    (forall x, In x pre -> snd x <= snd a) ->
    (forall x, In x mid -> snd x < snd a) ->
    exists before after,
      (pre ++ a :: mid ++ es)%list
      = (before ++ fold_left (keep_better sc) es a :: after)%list
      /\ (forall x, In x before -> snd x <= snd (fold_left (keep_better sc) es a))
      /\ (forall x, In x after -> snd x < snd (fold_left (keep_better sc) es a)).
Proof.
  intros Hnd. induction es as [| b es IH]; intros pre a mid Hin Hpre Hmid.
  - exists pre, mid. rewrite app_nil_r. simpl. auto.
  - cbn [fold_left].
    assert (Ha : In a sc) by (apply Hin, in_app_iff; right; left; reflexivity).
    assert (Hb : In b sc).
    { apply Hin, in_app_iff. right. right. apply in_app_iff. right. left. reflexivity. }
    rewrite (keep_better_entries sc a b Hnd Ha Hb).
    destruct (snd b <? snd a) eqn:E.
    + apply Z.ltb_lt in E.
      destruct (IH pre a (mid ++ [b])%list) as (before & after & Heq & H1 & H2).
      * intros x Hx. apply Hin. rewrite <- app_assoc in Hx. exact Hx.
      * exact Hpre.
      * intros x Hx. apply in_app_iff in Hx as [Hx | [<- | []]]; [apply Hmid, Hx | exact E].
      * exists before, after. rewrite <- app_assoc in Heq. auto.
    + apply Z.ltb_ge in E.
      destruct (IH (pre ++ a :: mid)%list b []) as (before & after & Heq & H1 & H2).
      * intros x Hx. apply Hin. rewrite <- app_assoc in Hx. exact Hx.
      * intros x Hx. apply in_app_iff in Hx as [Hx | [<- | Hx]].
        -- specialize (Hpre x Hx). lia.
        -- exact E.
        -- specialize (Hmid x Hx). lia.
      * intros x [].
      * exists before, after. rewrite <- app_assoc in Heq. auto.
Qed.

(** X15: on a scores object with distinct keys, the [reduce] of
    [classify] picks the last entry that has the largest score: no entry
    before it has a larger score and every entry after it has a smaller
    one, so of two intents with equal best scores the later one wins. *)
Theorem bestIntent_picks_last_maximum :
  forall sc : obj Z,
    sc <> [] -> List.NoDup (obj_keys sc) ->
    exists before k v after,
      bestIntent sc = Ok (k, v)
      /\ sc = (before ++ (k, v) :: after)%list
      /\ (forall x, In x before -> snd x <= v)
      /\ (forall x, In x after -> snd x < v).
Proof.
  intros sc Hne Hnd. destruct sc as [| e es]; [congruence |].
  destruct (reduce_last_best (e :: es) es Hnd [] e []) as (before & after & Heq & H1 & H2).
  - intros x Hx. exact Hx.
  - intros x [].
  - intros x [].
  - unfold bestIntent. fold (keep_better (e :: es)).
    destruct (fold_left (keep_better (e :: es)) es e) as [k v].
    exists before, k, v, after. auto.
Qed.

Lemma bestIntent_picks_last_maximum_witness :
  exists before k v after,
    bestIntent [("greeting", 3); ("goodbye", 3); ("general_info", 1)] = Ok (k, v)
    /\ [("greeting", 3); ("goodbye", 3); ("general_info", 1)]
       = (before ++ (k, v) :: after)%list
    /\ (forall x, In x before -> snd x <= v)
    /\ (forall x, In x after -> snd x < v).
Proof.
  apply (bestIntent_picks_last_maximum [("greeting", 3); ("goodbye", 3); ("general_info", 1)]).
  - discriminate.
  - repeat (constructor; [simpl; intuition discriminate |]). constructor.
Defined.

End Scoring.

(** ** One message through the chatbot *)

Section Conversations.
Import JsString IntentClassifier EntityExtractor IntelligentChatbot.

(** *** A call that runs alone *)

Lemma processMessage_run (env : Env) (message sessionId : string) (bot : Chatbot)
    (intent : Intent.t) :
  classify (intents bot) (preprocessMessage message) = Ok intent ->
  processMessage env message sessionId bot
  = match updateContext intent (extract (preprocessMessage message)) sessionId bot with
    | (Ok _, bot1) =>
        match generateResponse bot1 env intent (extract (preprocessMessage message))
                sessionId with
        | Ok response =>
            (Ok (reply_of response),
             storeConversation env message response intent sessionId bot1)
        | Throw _ => (Ok (getFallbackResponse env), bot1)
        end
    | (Throw _, bot1) => (Ok (getFallbackResponse env), bot1)
    end.
Proof.
  intros H. unfold processMessage, try_catch, pipeline, bind, read, modify, ret.
  rewrite H.
  destruct (updateContext intent _ sessionId bot) as [[[] | e] bot1]; [| reflexivity].
  destruct (generateResponse _ env intent _ sessionId); reflexivity.
Qed.

Lemma processMessage_classify_throws (env : Env) (message sessionId : string)
    (bot : Chatbot) (e : error) :
  classify (intents bot) (preprocessMessage message) = Throw e ->
  processMessage env message sessionId bot = (Ok (getFallbackResponse env), bot).
Proof.
  intros H. unfold processMessage, try_catch, pipeline, bind, read, modify, ret.
  rewrite H. reflexivity.
Qed.

(** *** A call among others *)

Lemma processMessage_among_run (others : Others) (env : Env) (message sessionId : string)
    (bot : Chatbot) (intent : Intent.t) :
  classify (intents bot) (preprocessMessage message) = Ok intent ->
  processMessage_among others env message sessionId bot
  = match updateContext intent (extract (preprocessMessage message)) sessionId
            (run_steps (during_extract others) (run_steps (during_classify others) bot))
    with
    | (Ok _, bot3) =>
        match generateResponse (run_steps (during_handler others) bot3) env intent
                (extract (preprocessMessage message)) sessionId with
        | Ok response =>
            (Ok (reply_of response),
             storeConversation env message response intent sessionId
               (run_steps (during_return others) (run_steps (during_handler others) bot3)))
        | Throw _ =>
            (Ok (getFallbackResponse env),
             run_steps (during_return others) (run_steps (during_handler others) bot3))
        end
    | (Throw _, bot3) => (Ok (getFallbackResponse env), bot3)
    end.
Proof.
  intros H. unfold processMessage_among, try_catch, pipeline_among, ret.
  rewrite H.
  destruct (updateContext intent _ sessionId _) as [[[] | e] bot3]; [| reflexivity].
  destruct (generateResponse _ env intent _ sessionId); reflexivity.
Qed.

Lemma processMessage_among_classify_throws (others : Others) (env : Env)
    (message sessionId : string) (bot : Chatbot) (e : error) :
  classify (intents bot) (preprocessMessage message) = Throw e ->
  processMessage_among others env message sessionId bot
  = (Ok (getFallbackResponse env), run_steps (during_classify others) bot).
Proof.
  intros H. unfold processMessage_among, try_catch, pipeline_among, ret.
  rewrite H. reflexivity.
Qed.

(** With no other call in flight, the call among others is the call
    that runs alone. *)
Lemma processMessage_alone (env : Env) (message sessionId : string) (bot : Chatbot) :
  processMessage_among alone env message sessionId bot
  = processMessage env message sessionId bot.
Proof.
  destruct (classify (intents bot) (preprocessMessage message)) as [intent | e] eqn:Hc.
  - rewrite (processMessage_among_run alone env message sessionId bot intent Hc).
    rewrite (processMessage_run env message sessionId bot intent Hc). reflexivity.
  - rewrite (processMessage_among_classify_throws alone env message sessionId bot e Hc).
    rewrite (processMessage_classify_throws env message sessionId bot e Hc). reflexivity.
Qed.

Lemma updateContext_lastAction (intent : Intent.t) (entities : list Entity.t)
    (sessionId : string) (bot : Chatbot) :
  finds_inherited bot sessionId = false ->
  lastAction_of (readContext (snd (updateContext intent entities sessionId bot)) sessionId)
  = Some (Intent.name intent).
Proof.
  intros Hown. unfold readContext.
  pose proof (updateContext_lookup intent entities sessionId bot Hown) as H.
  cbv zeta in H. rewrite H. destruct (10 <? _)%nat; reflexivity.
Qed.

Lemma updateContext_other (intent : Intent.t) (entities : list Entity.t)
    (sessionId other : string) (bot : Chatbot) :
  other <> sessionId ->
  readContext (snd (updateContext intent entities sessionId bot)) other
  = readContext bot other.
Proof.
  intros Hne. unfold readContext, updateContext.
  destruct (finds_inherited bot sessionId); cbn [snd contextMemory]; [reflexivity |].
  apply lookup_insert_ne. congruence.
Qed.

Lemma storeConversation_context (env : Env) (message : string) (response : Response.t)
    (intent : Intent.t) (sessionId : string) (bot : Chatbot) :
  contextMemory (storeConversation env message response intent sessionId bot)
  = contextMemory bot
  /\ conversationHistory (storeConversation env message response intent sessionId bot)
     = (conversationHistory bot ++ [record_of env message sessionId response intent])%list.
Proof.
  unfold storeConversation, updateLearningModel, record_of.
  cbn [conv_intent userMessage].
  destruct (0.8 <? _)%float; split; reflexivity.
Qed.

(** Steps that do not update a session leave its context as it was. *)
Lemma quiet_context (sessionId : string) (steps : list Step) :
  quiet sessionId steps = true ->
  forall bot, readContext (run_steps steps bot) sessionId = readContext bot sessionId.
Proof.
  unfold run_steps. induction steps as [| step steps IH]; intros Hq bot; [reflexivity |].
  cbn [quiet forallb] in Hq. apply andb_true_iff in Hq as [Hstep Hq].
  cbn [fold_left]. rewrite (IH Hq). destruct step as [i es sid | e m r i sid]; cbn [run_step].
  - apply updateContext_other. apply negb_true_iff, String.eqb_neq in Hstep. congruence.
  - unfold readContext. rewrite (proj1 (storeConversation_context _ _ _ _ _ _)). reflexivity.
Qed.

(** Of the context, [generateResponse] reads the last action only. *)
Lemma generateResponse_lastAction (bot1 bot2 : Chatbot) (env : Env) (intent : Intent.t)
    (entities : list Entity.t) (sessionId1 sessionId2 : string) :
  lastAction_of (readContext bot1 sessionId1) = lastAction_of (readContext bot2 sessionId2) ->
  generateResponse bot1 env intent entities sessionId1
  = generateResponse bot2 env intent entities sessionId2.
Proof.
  intros H. unfold generateResponse, handleRecommendations. rewrite H. reflexivity.
Qed.

Lemma handleConceptExplanation_of_extract (message : string) :
  exists response, handleConceptExplanation (extract message) = Ok response.
Proof.
  unfold handleConceptExplanation, extractConcept.
  rewrite value_or_absent by (simpl; intuition discriminate).
  eexists. reflexivity.
Qed.

(** With the last action set to the intent's own name, every intent of
    the table gets a response to the entities of a message. *)
Lemma generateResponse_known (bot : Chatbot) (env : Env) (intent : Intent.t)
    (message sessionId : string) :
  In (Intent.name intent) (obj_keys intents_init) ->
  lastAction_of (readContext bot sessionId) = Some (Intent.name intent) ->
  exists response, generateResponse bot env intent (extract message) sessionId = Ok response.
Proof.
  intros Hin Hlast. destruct (handleConceptExplanation_of_extract message) as [r Hr].
  unfold generateResponse, handleRecommendations. rewrite Hlast, Hr.
  destruct intent as [name conf sc]. cbn [Intent.name] in *.
  change (obj_keys intents_init)
    with ["greeting"; "goodbye"; "basic_concepts"; "calculator_usage";
          "industry_benchmarks"; "recommendations"; "advanced_analytics";
          "ai_ml_features"; "reporting_tracking"; "industry_specific";
          "general_info"; "calculate_carbon"; "get_recommendations";
          "explain_concept"; "compliance_standards"; "cost_analysis";
          "reduction_strategies"] in Hin.
  cbn [In] in Hin.
  repeat (destruct Hin as [<- | Hin]; [eexists; reflexivity |]). contradiction.
Qed.

Lemma generateResponse_unknown (bot : Chatbot) (env : Env) (intent : Intent.t)
    (entities : list Entity.t) (sessionId : string) :
  Intent.name intent = "unknown" ->
  generateResponse bot env intent entities sessionId
  = Throw (TypeError "this.handleGeneralQuery is not a function").
Proof. intros H. unfold generateResponse. rewrite H. reflexivity. Qed.

(** What [classify] names, whatever it has learned: [unknown] or an
    intent of the table. *)
Lemma classify_learned (table : obj (list string)) (message : string) :
  learned table ->
  exists intent,
    classify table message = Ok intent
    /\ (Intent.name intent = "unknown" \/ In (Intent.name intent) (obj_keys intents_init)).
Proof.
  intros Hl.
  destruct (classify_shape table message (learned_nonempty _ Hl))
    as (winner & score & _ & Hin & _ & _ & Hclassify).
  eexists. split; [exact Hclassify |]. cbn [Intent.name].
  destruct (_ || _); [left; reflexivity | right].
  rewrite <- (compute_scores_keys_learned table message Hl).
  apply (in_map fst) in Hin. exact Hin.
Qed.

(** The response of the handler when no other call has updated the
    session during its suspension: the one computed right after the
    call's own update. *)
Lemma generateResponse_quiet (others : Others) (env : Env) (intent : Intent.t)
    (entities : list Entity.t) (sessionId : string) (bot : Chatbot) :
  quiet sessionId (during_handler others) = true ->
  generateResponse (run_steps (during_handler others) bot) env intent entities sessionId
  = generateResponse bot env intent entities sessionId.
Proof.
  intros Hq. apply generateResponse_lastAction.
  rewrite (quiet_context _ _ Hq). reflexivity.
Qed.

(** X16: what one [processMessage] call does, among other calls in
    flight, when the classifier holds the constructor's table or one
    learned from it and no other call updates the call's session while
    its handler is suspended. The classifier names [unknown] or an intent
    of the table. When the session id finds an inherited property in the
    store, the update throws: the reply is the fallback and nothing is
    written. For
    [unknown] the reply is the fallback, the context has been updated and
    no conversation is stored. For every other intent the handler returns
    its response (the branches that call missing methods are not reached),
    the reply is made of it and the conversation is stored. *)
Theorem processMessage_outcome :
  forall (others : Others) (env : Env) (message sessionId : string) (bot : Chatbot),
    learned (intents bot) ->
    quiet sessionId (during_handler others) = true ->
    exists intent : Intent.t,
      classify (intents bot) (preprocessMessage message) = Ok intent
      /\ In (Intent.name intent) ("unknown" :: obj_keys intents_init)
      /\ let entities := extract (preprocessMessage message) in
         let bot2 :=
           run_steps (during_extract others) (run_steps (during_classify others) bot) in
         let bot3 := snd (updateContext intent entities sessionId bot2) in
         let bot5 :=
           run_steps (during_return others) (run_steps (during_handler others) bot3) in
         if finds_inherited bot2 sessionId
         then processMessage_among others env message sessionId bot
              = (Ok (getFallbackResponse env), bot2)
         else if String.eqb (Intent.name intent) "unknown"
         then processMessage_among others env message sessionId bot
              = (Ok (getFallbackResponse env), bot5)
         else exists response : Response.t,
             generateResponse bot3 env intent entities sessionId = Ok response
             /\ processMessage_among others env message sessionId bot
                = (Ok (reply_of response),
                   storeConversation env message response intent sessionId bot5).
Proof.
  intros others env message sessionId bot Hl Hq.
  destruct (classify_learned _ (preprocessMessage message) Hl) as (intent & Hc & Hname).
  exists intent. split; [exact Hc |].
  split; [destruct Hname as [Hn | Hn]; [left; symmetry; exact Hn | right; exact Hn] |].
  cbv zeta.
  rewrite (processMessage_among_run others env message sessionId bot intent Hc).
  destruct (finds_inherited _ sessionId) eqn:Hown.
  - rewrite updateContext_inherited by exact Hown. reflexivity.
  - rewrite updateContext_own by exact Hown. cbn [snd].
    rewrite (generateResponse_quiet others env intent _ sessionId _ Hq).
    destruct (String.eqb (Intent.name intent) "unknown") eqn:E.
    + apply String.eqb_eq in E. rewrite generateResponse_unknown by exact E. reflexivity.
    + apply String.eqb_neq in E. destruct Hname as [Hname | Hname]; [contradiction |].
      destruct (generateResponse_known
                  (snd (updateContext intent (extract (preprocessMessage message)) sessionId
                          (run_steps (during_extract others)
                             (run_steps (during_classify others) bot))))
                  env intent (preprocessMessage message) sessionId Hname
                  (updateContext_lastAction _ _ _ _ Hown)) as [response Hr].
      exists response. rewrite Hr. split; reflexivity.
Qed.

Lemma processMessage_outcome_witness :
  exists intent : Intent.t,
    classify (intents new) (preprocessMessage "Hello!") = Ok intent
    /\ In (Intent.name intent) ("unknown" :: obj_keys intents_init)
    /\ let others :=
         mkOthers [] []
           [UpdateStep (Intent.mk "calculate_carbon" 0.9%float []) [] "other"] [] in
       let env := mkEnv 0 "2024-01-01T00:00:00.000Z" in
       let entities := extract (preprocessMessage "Hello!") in
       let bot2 :=
         run_steps (during_extract others) (run_steps (during_classify others) new) in
       let bot3 := snd (updateContext intent entities "default" bot2) in
       let bot5 :=
         run_steps (during_return others) (run_steps (during_handler others) bot3) in
       if finds_inherited bot2 "default"
       then processMessage_among others env "Hello!" "default" new
            = (Ok (getFallbackResponse env), bot2)
       else if String.eqb (Intent.name intent) "unknown"
       then processMessage_among others env "Hello!" "default" new
            = (Ok (getFallbackResponse env), bot5)
       else exists response : Response.t,
           generateResponse bot3 env intent entities "default" = Ok response
           /\ processMessage_among others env "Hello!" "default" new
              = (Ok (reply_of response),
                 storeConversation env "Hello!" response intent "default" bot5).
Proof.
  apply (processMessage_outcome
           (mkOthers [] []
              [UpdateStep (Intent.mk "calculate_carbon" 0.9%float []) [] "other"] [])
           (mkEnv 0 "2024-01-01T00:00:00.000Z") "Hello!" "default" new).
  - apply learned_init.
  - reflexivity.
Defined.

(** When another call updates the session while the handler is
    suspended, the outcome above is lost: a request for recommendations
    gets its response alone, and the fallback when a calculation on the
    same session slips in between its update and its read of the last
    action. *)
Example recommendations_race :
  let env := mkEnv 0 "2024-01-01T00:00:00.000Z" in
  let others :=
    mkOthers [] []
      [UpdateStep (Intent.mk "calculate_carbon" 0.9%float []) [] "default"] [] in
  (exists reply,
      fst (processMessage env "what do you recommend" "default" new) = Ok reply
      /\ Reply.confidence reply = 0.92%float)
  /\ quiet "default" (during_handler others) = false
  /\ fst (processMessage_among others env "what do you recommend" "default" new)
     = Ok (getFallbackResponse env).
Proof.
  cbv zeta. split; [eexists; split; vm_compute; reflexivity |].
  split; vm_compute; reflexivity.
Qed.

(** X17: the reply to a message does not depend on the conversation so
    far. Two calls with the same message get the same reply when the
    chatbots hold the same keyword table as the calls begin, whatever
    their context memories and histories hold and whatever other calls
    are in flight, provided that the session ids are not names of
    inherited properties and that no other call updates the call's own
    session while its handler is suspended. *)
Theorem replies_ignore_context :
  forall (others1 others2 : Others) (env : Env)
         (message sessionId1 sessionId2 : string) (bot1 bot2 : Chatbot),
    intents bot1 = intents bot2 ->
    inherited sessionId1 = false ->
    inherited sessionId2 = false ->
    quiet sessionId1 (during_handler others1) = true ->
    quiet sessionId2 (during_handler others2) = true ->
    fst (processMessage_among others1 env message sessionId1 bot1)
    = fst (processMessage_among others2 env message sessionId2 bot2).
Proof.
  intros others1 others2 env message sessionId1 sessionId2 bot1 bot2 Heq H1 H2 Hq1 Hq2.
  destruct (classify (intents bot1) (preprocessMessage message)) as [intent | e] eqn:Hc.
  - rewrite (processMessage_among_run others1 env message sessionId1 bot1 intent Hc).
    rewrite Heq in Hc.
    rewrite (processMessage_among_run others2 env message sessionId2 bot2 intent Hc).
    rewrite (updateContext_own _ _ sessionId1) by (apply not_inherited, H1).
    rewrite (updateContext_own _ _ sessionId2) by (apply not_inherited, H2). cbn [snd].
    rewrite (generateResponse_quiet others1 env intent _ sessionId1 _ Hq1).
    rewrite (generateResponse_quiet others2 env intent _ sessionId2 _ Hq2).
    match goal with
    | |- context [generateResponse ?b env intent ?es sessionId1] =>
        rewrite (generateResponse_lastAction b
                   (snd (updateContext intent es sessionId2
                           (run_steps (during_extract others2)
                              (run_steps (during_classify others2) bot2))))
                   env intent es sessionId1 sessionId2)
          by (rewrite !updateContext_lastAction by (apply not_inherited; assumption);
              reflexivity)
    end.
    destruct (generateResponse _ env intent _ sessionId2); reflexivity.
  - rewrite (processMessage_among_classify_throws others1 env message sessionId1 bot1 e Hc).
    rewrite Heq in Hc.
    rewrite (processMessage_among_classify_throws others2 env message sessionId2 bot2 e Hc).
    reflexivity.
Qed.

Lemma replies_ignore_context_witness :
  fst (processMessage_among alone (mkEnv 0 "2024-01-01T00:00:00.000Z")
         "what do you recommend" "default" new)
  = fst (processMessage_among
           (mkOthers [UpdateStep (Intent.mk "calculate_carbon" 0.9%float []) [] "other"]
              [] [UpdateStep (Intent.mk "calculate_carbon" 0.9%float []) [] "default"] [])
           (mkEnv 0 "2024-01-01T00:00:00.000Z")
           "what do you recommend" "other"
           (snd (updateContext (Intent.mk "calculate_carbon" 0.9%float []) [] "other" new))).
Proof.
  apply (replies_ignore_context alone
           (mkOthers [UpdateStep (Intent.mk "calculate_carbon" 0.9%float []) [] "other"]
              [] [UpdateStep (Intent.mk "calculate_carbon" 0.9%float []) [] "default"] [])
           (mkEnv 0 "2024-01-01T00:00:00.000Z")
           "what do you recommend" "default" "other" new
           (snd (updateContext (Intent.mk "calculate_carbon" 0.9%float []) [] "other" new)));
    reflexivity.
Defined.

Lemma generateResponse_confidence (bot : Chatbot) (env : Env) (intent : Intent.t)
    (entities : list Entity.t) (sessionId : string) (response : Response.t) :
  generateResponse bot env intent entities sessionId = Ok response ->
  confidence_in_range (Response.confidence response) = true.
Proof.
  unfold generateResponse, handleRecommendations, handleCarbonCalculation,
    handleConceptExplanation, CarbonKnowledgeBase.explainConcept,
    CarbonKnowledgeBase.concepts.
  cbn [obj_get].
  repeat match goal with
         | |- context [if ?b then _ else _] => destruct b
         | |- context [match ?x with Some _ => _ | None => _ end] => destruct x
         end;
    cbn [result_bind]; intros H; try discriminate; injection H as <-; reflexivity.
Qed.

(** X18: whatever state the chatbot is in, [processMessage] returns a
    reply whose confidence lies between 0.5 and 0.95. *)
Theorem reply_confidence_range :
  forall (env : Env) (message sessionId : string) (bot : Chatbot),
    exists (reply : Reply.t) (bot' : Chatbot),
      processMessage env message sessionId bot = (Ok reply, bot')
      /\ confidence_in_range (Reply.confidence reply) = true.
Proof.
  intros env message sessionId bot.
  destruct (classify (intents bot) (preprocessMessage message)) as [intent | e] eqn:Hc.
  - rewrite (processMessage_run env message sessionId bot intent Hc).
    destruct (updateContext intent _ sessionId bot) as [[[] | e] bot1].
    + destruct (generateResponse _ env intent _ sessionId) as [response | e] eqn:Hr.
      * eexists. eexists. split; [reflexivity |].
        apply (generateResponse_confidence _ _ _ _ _ _ Hr).
      * eexists. eexists. split; reflexivity.
    + eexists. eexists. split; reflexivity.
  - rewrite (processMessage_classify_throws env message sessionId bot e Hc).
    eexists. eexists. split; reflexivity.
Qed.

Lemma processMessage_other_session (env : Env) (message sessionId other : string)
    (bot : Chatbot) :
  other <> sessionId ->
  readContext (snd (processMessage env message sessionId bot)) other
  = readContext bot other.
Proof.
  intros Hne.
  destruct (classify (intents bot) (preprocessMessage message)) as [intent | e] eqn:Hc.
  - rewrite (processMessage_run env message sessionId bot intent Hc).
    pose proof (updateContext_other intent (extract (preprocessMessage message))
                  sessionId other bot Hne) as Hup.
    destruct (updateContext intent _ sessionId bot) as [[[] | e] bot1]; cbn [snd] in Hup |- *.
    + destruct (generateResponse _ env intent _ sessionId) as [response | e]; cbn [snd].
      * unfold readContext at 1.
        rewrite (proj1 (storeConversation_context _ _ _ _ _ _)). exact Hup.
      * exact Hup.
    + exact Hup.
  - rewrite (processMessage_classify_throws env message sessionId bot e Hc). reflexivity.
Qed.

(** X19: a message sent on one session leaves the context of every
    other session as it was. *)
Theorem sessions_are_isolated :
  forall (env : Env) (message sessionId other : string) (bot : Chatbot),
    other <> sessionId ->
    readContext (snd (processMessage env message sessionId bot)) other
    = readContext bot other.
Proof. intros env message sessionId other bot. apply processMessage_other_session. Qed.

Lemma sessions_are_isolated_witness :
  readContext
    (snd (processMessage (mkEnv 0 "2024-01-01T00:00:00.000Z") "Hello!" "default"
            (snd (updateContext (Intent.mk "calculate_carbon" 0.9%float []) [] "other"
                    new))))
    "other"
  = readContext
      (snd (updateContext (Intent.mk "calculate_carbon" 0.9%float []) [] "other" new))
      "other".
Proof.
  apply (sessions_are_isolated (mkEnv 0 "2024-01-01T00:00:00.000Z") "Hello!" "default" "other"
           (snd (updateContext (Intent.mk "calculate_carbon" 0.9%float []) [] "other" new))).
  discriminate.
Defined.

(** X20: the conversation history only grows at its end, by at most one
    record per message: either the reply is the fallback and the history
    is as it was, or the history has one more record, which holds the
    message as it was received, the session, the text of the reply, the
    intent with its confidence, and an empty list of entities. *)
Theorem conversationHistory_appends :
  forall (env : Env) (message sessionId : string) (bot : Chatbot),
    (fst (processMessage env message sessionId bot) = Ok (getFallbackResponse env)
     /\ conversationHistory (snd (processMessage env message sessionId bot))
        = conversationHistory bot)
    \/ (exists (intent : Intent.t) (response : Response.t),
          classify (intents bot) (preprocessMessage message) = Ok intent
          /\ fst (processMessage env message sessionId bot) = Ok (reply_of response)
          /\ conversationHistory (snd (processMessage env message sessionId bot))
             = (conversationHistory bot
                ++ [record_of env message sessionId response intent])%list).
Proof.
  intros env message sessionId bot.
  destruct (classify (intents bot) (preprocessMessage message)) as [intent | e] eqn:Hc.
  - rewrite (processMessage_run env message sessionId bot intent Hc).
    assert (Hh : conversationHistory
                   (snd (updateContext intent (extract (preprocessMessage message))
                           sessionId bot))
                 = conversationHistory bot).
    { unfold updateContext. destruct (finds_inherited bot sessionId); reflexivity. }
    destruct (updateContext intent _ sessionId bot) as [[[] | e] bot1]; cbn [snd] in Hh.
    + destruct (generateResponse _ env intent _ sessionId) as [response | e]; cbn [fst snd].
      * right. exists intent, response. split; [reflexivity |]. split; [reflexivity |].
        rewrite (proj2 (storeConversation_context _ _ _ _ _ _)), Hh. reflexivity.
      * left. split; [reflexivity | exact Hh].
    + left. split; [reflexivity | exact Hh].
  - rewrite (processMessage_classify_throws env message sessionId bot e Hc).
    left. split; reflexivity.
Qed.

Lemma emitted_length (message : string) (table : obj Regex.pattern) :
  (List.length (flat_map (emitted message) table) <= List.length table)%nat.
Proof.
  induction table as [| entry table IH]; [simpl; lia |].
  cbn [flat_map]. rewrite length_app. unfold emitted at 1.
  destruct (Regex.match1 _ _); cbn [List.length]; lia.
Qed.

Lemma extract_length (message : string) : (List.length (extract message) <= 8)%nat.
Proof. rewrite extract_flat_map. apply (emitted_length message patterns). Qed.

Lemma slice_last_keeps_last {A : Type} (n : nat) (l : list A) (x : A) :
  (1 <= n)%nat -> exists older, slice_last n (l ++ [x]) = (older ++ [x])%list.
Proof.
  intros Hn. unfold slice_last. rewrite length_app, skipn_app. cbn [List.length].
  replace (List.length l + 1 - n - List.length l)%nat with 0%nat by lia.
  eexists. reflexivity.
Qed.

(** One update of a context that is new or in order leaves it in order. *)
Lemma updateContext_ok (intent : Intent.t) (entities : list Entity.t)
    (sessionId : string) (bot : Chatbot) (c : Context.t) :
  (List.length entities <= 8)%nat ->
  (forall c0, readContext bot sessionId = Some c0 -> context_ok c0) ->
  readContext (snd (updateContext intent entities sessionId bot)) sessionId = Some c ->
  context_ok c.
Proof.
  intros Hent Hold. destruct (finds_inherited bot sessionId) eqn:Hown.
  { rewrite updateContext_inherited by exact Hown. cbn [snd]. apply Hold. }
  unfold readContext.
  pose proof (updateContext_lookup intent entities sessionId bot Hown) as H.
  cbv zeta in H. rewrite H. clear H. intros Hc. injection Hc as <-.
  assert (Hweak : (List.length (Context.intents (context_of bot sessionId)) <= 10)%nat
                  /\ (List.length (Context.entities (context_of bot sessionId))
                      <= 8 * List.length (Context.intents (context_of bot sessionId)))%nat
                  /\ Context.topics (context_of bot sessionId) = []).
  { unfold context_of. unfold readContext in Hold.
    destruct (contextMemory bot !! sessionId) as [c0 |]; simpl.
    - destruct (Hold c0 eq_refl) as (H1 & H2 & H3 & _).
      split; [lia | split; [lia | exact H3]].
    - split; [lia | split; [lia | reflexivity]]. }
  destruct Hweak as (H1 & H2 & H3).
  destruct (10 <? _)%nat eqn:E; unfold context_ok;
    cbn [Context.intents Context.entities Context.topics Context.lastAction].
  - apply Nat.ltb_lt in E. rewrite length_app in E. cbn [List.length] in E.
    rewrite !slice_last_length, !length_app. cbn [List.length].
    split; [lia |]. split; [lia |]. split; [exact H3 |].
    destruct (slice_last_keeps_last 10 (Context.intents (context_of bot sessionId)) intent)
      as [older Holder]; [lia |].
    exists older, intent. split; [exact Holder | reflexivity].
  - apply Nat.ltb_ge in E. rewrite length_app in E. cbn [List.length] in E.
    rewrite !length_app. cbn [List.length].
    split; [lia |]. split; [lia |]. split; [exact H3 |].
    exists (Context.intents (context_of bot sessionId)), intent. split; reflexivity.
Qed.

Lemma processMessage_same_session (env : Env) (message sessionId : string) (bot : Chatbot) :
  readContext (snd (processMessage env message sessionId bot)) sessionId
  = readContext bot sessionId
  \/ exists intent,
      readContext (snd (processMessage env message sessionId bot)) sessionId
      = readContext
          (snd (updateContext intent (extract (preprocessMessage message)) sessionId bot))
          sessionId.
Proof.
  destruct (classify (intents bot) (preprocessMessage message)) as [intent | e] eqn:Hc.
  - right. exists intent. rewrite (processMessage_run env message sessionId bot intent Hc).
    destruct (updateContext intent _ sessionId bot) as [[[] | e] bot1]; cbn [snd];
      [| reflexivity].
    destruct (generateResponse _ env intent _ sessionId) as [response | e]; cbn [snd].
    + unfold readContext at 1.
      rewrite (proj1 (storeConversation_context _ _ _ _ _ _)). reflexivity.
    + reflexivity.
  - left. rewrite (processMessage_classify_throws env message sessionId bot e Hc). reflexivity.
Qed.

(** X21: in a chatbot that was constructed and then only sent messages,
    the keyword table is the constructor's or learned from it, and every
    stored context holds between 1 and 10 intents, at most 8 entities per
    stored intent (so never more than 80), no topics, and as its last
    action the name of its most recent intent. *)
Theorem reachable_contexts_in_order :
  forall bot : Chatbot,
    reachable bot ->
    learned (intents bot)
    /\ forall (sessionId : string) (c : Context.t),
        readContext bot sessionId = Some c -> context_ok c.
Proof.
  induction 1 as [| env message sessionId bot _ [IHl IHc]].
  - split; [apply learned_init |]. intros sessionId c H.
    unfold readContext, new in H. cbn [contextMemory] in H.
    rewrite lookup_empty in H. discriminate.
  - split; [apply processMessage_keeps_learned, IHl |].
    intros sid c Hc. destruct (string_dec sid sessionId) as [-> | Hne].
    + destruct (processMessage_same_session env message sessionId bot) as [E | [intent E]];
        rewrite E in Hc.
      * apply (IHc _ _ Hc).
      * apply (updateContext_ok intent _ sessionId bot c (extract_length _) (IHc sessionId) Hc).
    + rewrite processMessage_other_session in Hc by exact Hne. apply (IHc _ _ Hc).
Qed.

Lemma reachable_contexts_in_order_witness :
  learned (intents (snd (processMessage (mkEnv 0 "2024-01-01T00:00:00.000Z")
                           "Hello!" "default" new)))
  /\ forall (sessionId : string) (c : Context.t),
      readContext (snd (processMessage (mkEnv 0 "2024-01-01T00:00:00.000Z")
                          "Hello!" "default" new)) sessionId = Some c ->
      context_ok c.
Proof.
  apply (reachable_contexts_in_order
           (snd (processMessage (mkEnv 0 "2024-01-01T00:00:00.000Z") "Hello!" "default" new))).
  apply reachable_step, reachable_new.
Defined.

Lemma learning_table :
  forallb (fun score => Bool.eqb (0.8 <? confidence_of score)%float (6 <=? score))
    (map Z.of_nat (seq 1 99)) = true.
Proof. vm_compute. reflexivity. Qed.

Lemma learning_cutoff (score : Z) :
  0 <= score -> (0.8 <? confidence_of score)%float = (6 <=? score).
Proof.
  intros H0. destruct (Z.eq_dec score 0) as [-> | Hne]; [reflexivity |].
  destruct (Z.lt_ge_cases score 100) as [Hlt | Hge].
  - pose proof learning_table as T. rewrite forallb_forall in T.
    apply Bool.eqb_prop, T.
    replace score with (Z.of_nat (Z.to_nat score)) by lia.
    apply in_map, in_seq. lia.
  - rewrite confidence_large by exact Hge.
    replace (6 <=? score) with true by (symmetry; apply Z.leb_le; lia). reflexivity.
Qed.

(** X22: what a message teaches, among other calls in flight, when the
    classifier holds the constructor's table or one learned from it as
    the call begins and no other call updates the call's session while
    its handler is suspended. When the session id finds an inherited
    property in the store nothing is learned. Otherwise the table the
    call leaves is
    [reinforcePattern], applied to the table as it is when the response
    has come back, of the message as it was received (not the
    preprocessed one) for the winning intent when the winning score is 6
    or more (confidence above 0.8), and that table unchanged otherwise. *)
Theorem learning_needs_score_six :
  forall (others : Others) (env : Env) (message sessionId : string) (bot : Chatbot),
    learned (intents bot) ->
    quiet sessionId (during_handler others) = true ->
    exists (intent : Intent.t) (winner : string) (score : Z),
      classify (intents bot) (preprocessMessage message) = Ok intent
      /\ bestIntent (compute_scores (intents bot) (preprocessMessage message))
         = Ok (winner, score)
      /\ let bot2 :=
           run_steps (during_extract others) (run_steps (during_classify others) bot) in
         let bot5 :=
           run_steps (during_return others)
             (run_steps (during_handler others)
                (snd (updateContext intent (extract (preprocessMessage message))
                        sessionId bot2))) in
         intents (snd (processMessage_among others env message sessionId bot))
         = if finds_inherited bot2 sessionId then intents bot2
           else if 6 <=? score
                then reinforcePattern (intents bot5) message winner
                else intents bot5.
Proof.
  intros others env message sessionId bot Hl Hq.
  destruct (classify_shape (intents bot) (preprocessMessage message) (learned_nonempty _ Hl))
    as (winner & score & Hbest & Hin & _ & H0 & Hclassify).
  eexists. exists winner, score. split; [exact Hclassify |]. split; [exact Hbest |].
  cbv zeta.
  rewrite (processMessage_among_run others env message sessionId bot _ Hclassify).
  destruct (finds_inherited _ sessionId) eqn:Hown.
  { rewrite updateContext_inherited by exact Hown. reflexivity. }
  rewrite updateContext_own by exact Hown. cbn [snd].
  rewrite (generateResponse_quiet others env _ _ sessionId _ Hq).
  destruct (Z.eq_dec score 0) as [-> | Hne].
  - rewrite generateResponse_unknown by reflexivity. reflexivity.
  - pose proof (confidence_positive score ltac:(lia)) as Hok.
    unfold confidence_ok in Hok. cbv zeta in Hok.
    apply andb_true_iff in Hok as [_ Hok]. apply negb_true_iff in Hok.
    replace (score =? 0) with false by (symmetry; apply Z.eqb_neq; exact Hne).
    rewrite Hok. cbn [orb].
    match goal with
    | |- context [generateResponse ?b env ?i (extract ?m) sessionId] =>
        destruct (generateResponse_known b env i m sessionId) as [response Hr]
    end.
    + cbn [Intent.name].
      rewrite <- (compute_scores_keys_learned (intents bot) (preprocessMessage message) Hl).
      apply (in_map fst) in Hin. exact Hin.
    + apply updateContext_lastAction, Hown.
    + rewrite Hr. cbn [snd]. unfold storeConversation, updateLearningModel.
      cbn [conv_intent userMessage Intent.confidence Intent.name intents].
      rewrite (learning_cutoff score H0). destruct (6 <=? score); reflexivity.
Qed.

Lemma learning_needs_score_six_witness :
  exists (intent : Intent.t) (winner : string) (score : Z),
    classify (intents new) (preprocessMessage "Hello!") = Ok intent
    /\ bestIntent (compute_scores (intents new) (preprocessMessage "Hello!"))
       = Ok (winner, score)
    /\ let others :=
         mkOthers [] []
           [UpdateStep (Intent.mk "calculate_carbon" 0.9%float []) [] "other"] [] in
       let bot2 :=
         run_steps (during_extract others) (run_steps (during_classify others) new) in
       let bot5 :=
         run_steps (during_return others)
           (run_steps (during_handler others)
              (snd (updateContext intent (extract (preprocessMessage "Hello!"))
                      "default" bot2))) in
       intents (snd (processMessage_among others (mkEnv 0 "2024-01-01T00:00:00.000Z")
                       "Hello!" "default" new))
       = if finds_inherited bot2 "default" then intents bot2
         else if 6 <=? score
              then reinforcePattern (intents bot5) "Hello!" winner
              else intents bot5.
Proof.
  apply (learning_needs_score_six
           (mkOthers [] []
              [UpdateStep (Intent.mk "calculate_carbon" 0.9%float []) [] "other"] [])
           (mkEnv 0 "2024-01-01T00:00:00.000Z") "Hello!" "default" new).
  - apply learned_init.
  - reflexivity.
Defined.

End Conversations.

(** ** What the classifier does not see *)

Section CaseAndMargins.
Import JsString IntentClassifier.

Lemma is_space_lower (c : ascii) : is_space (lower_char c) = is_space c.
Proof.
  apply Bool.eqb_prop.
  apply (all_ascii_complete (fun c => Bool.eqb (is_space (lower_char c)) (is_space c))).
  vm_compute. reflexivity.
Qed.

Lemma toLowerCase_idempotent (s : string) : toLowerCase (toLowerCase s) = toLowerCase s.
Proof. apply lowered_fixed, lowered_toLowerCase. Qed.

Lemma trimStart_lower (s : string) : trimStart (toLowerCase s) = toLowerCase (trimStart s).
Proof.
  induction s as [| c s IH]; [reflexivity |]. cbn [toLowerCase trimStart].
  rewrite is_space_lower. destruct (is_space c); [exact IH | reflexivity].
Qed.

Lemma trimEnd_lower (s : string) : trimEnd (toLowerCase s) = toLowerCase (trimEnd s).
Proof.
  induction s as [| c s IH]; [reflexivity |]. cbn [toLowerCase trimEnd].
  rewrite IH, is_space_lower. destruct (trimEnd s); [destruct (is_space c) |]; reflexivity.
Qed.

Lemma trimEnd_idempotent (s : string) : trimEnd (trimEnd s) = trimEnd s.
Proof.
  induction s as [| c s IH]; [reflexivity |]. cbn [trimEnd].
  destruct (trimEnd s) as [| d t] eqn:E.
  - destruct (is_space c) eqn:Ec; [reflexivity |]. cbn [trimEnd]. rewrite Ec. reflexivity.
  - cbn [trimEnd]. cbn [trimEnd] in IH. rewrite IH. reflexivity.
Qed.

Lemma trimStart_head (s : string) (c : ascii) (t : string) :
  trimStart s = String c t -> is_space c = false.
Proof.
  induction s as [| x s IH]; [discriminate |]. cbn [trimStart].
  destruct (is_space x) eqn:E; [exact IH |]. intros H. injection H as <- _. exact E.
Qed.

Lemma trim_idempotent (s : string) : trim (trim s) = trim s.
Proof.
  unfold trim. destruct (trimStart s) as [| c t] eqn:E; [reflexivity |].
  apply trimStart_head in E.
  assert (H : trimStart (trimEnd (String c t)) = trimEnd (String c t)).
  { destruct (trimEnd (String c t)) as [| d r] eqn:E2; [reflexivity |].
    apply trimEnd_head in E2 as (r' & E2). injection E2 as <- _.
    cbn [trimStart]. rewrite E. reflexivity. }
  rewrite H. apply trimEnd_idempotent.
Qed.

(** [classify] reads its message through [toLowerCase().trim()] only. *)
Lemma classify_clean (table : obj (list string)) (message1 message2 : string) :
  trim (toLowerCase message1) = trim (toLowerCase message2) ->
  classify table message1 = classify table message2.
Proof.
  intros H. unfold classify, compute_scores, initial_scores. rewrite H. reflexivity.
Qed.

(** X23: the classifier sees neither the case of the letters nor white
    space around the message: lower-casing a message, or trimming it,
    before it is classified changes nothing in the result. *)
Theorem classify_ignores_case_and_margins :
  forall (table : obj (list string)) (message : string),
    classify table (toLowerCase message) = classify table message
    /\ classify table (trim message) = classify table message.
Proof.
  intros table message. split; apply classify_clean.
  - rewrite toLowerCase_idempotent. reflexivity.
  - unfold trim at 2. rewrite <- trimEnd_lower, <- trimStart_lower.
    apply trim_idempotent.
Qed.

End CaseAndMargins.

(** ** The table the constructor installs *)

Section ConstructorTable.
Import JsString IntentClassifier.
Context {V : Type}.

Lemma obj_get_app (o1 o2 : obj V) (k : string) :
  obj_get (o1 ++ o2)%list k
  = match obj_get o1 k with Some v => Some v | None => obj_get o2 k end.
Proof.
  induction o1 as [| [k1 v1] o1 IH]; [reflexivity |]. cbn [app obj_get].
  destruct (String.eqb k1 k); [reflexivity | exact IH].
Qed.

Lemma obj_get_set (o : obj V) (k k' : string) (v : V) :
  obj_get (obj_set o k v) k' = if String.eqb k k' then Some v else obj_get o k'.
Proof.
  destruct (String.eqb k k') eqn:E.
  - apply String.eqb_eq in E. subst. apply obj_get_set_eq.
  - apply String.eqb_neq in E. apply obj_get_set_ne, E.
Qed.

(** Reading an object built entry by entry: the last entry written for
    the key, else what the object held before. *)
Lemma obj_literal_fold (l : list (string * V)) :
  forall (acc : obj V) (k : string),
    obj_get (fold_left (fun o kv => obj_set o (fst kv) (snd kv)) l acc) k
    = match obj_get (rev l) k with Some v => Some v | None => obj_get acc k end.
Proof.
  induction l as [| [k0 v0] l IH]; intros acc k; [reflexivity |].
  cbn [fold_left rev fst snd]. rewrite IH, obj_get_app, obj_get_set. cbn [obj_get].
  destruct (obj_get (rev l) k); [reflexivity |].
  destruct (String.eqb k0 k); reflexivity.
Qed.

Lemma obj_literal_keys_fold (l : list (string * V)) :
  forall (acc : obj V) (k : string),
    In k (obj_keys (fold_left (fun o kv => obj_set o (fst kv) (snd kv)) l acc))
    <-> In k (obj_keys acc) \/ In k (map fst l).
Proof.
  induction l as [| [k0 v0] l IH]; intros acc k; [simpl; tauto |].
  cbn [fold_left map fst snd In]. rewrite IH, obj_keys_set_In.
  split; [intros [[H | H] | H] | intros [H | [H | H]]]; auto.
Qed.

Lemma obj_literal_NoDup_fold (l : list (string * V)) :
  forall acc : obj V,
    List.NoDup (obj_keys acc) ->
    List.NoDup (obj_keys (fold_left (fun o kv => obj_set o (fst kv) (snd kv)) l acc)).
Proof.
  induction l as [| [k0 v0] l IH]; intros acc H; [exact H |].
  cbn [fold_left]. apply IH, obj_set_NoDup, H.
Qed.

End ConstructorTable.

Section ConstructorTableFacts.
Import JsString IntentClassifier.

(** X24: the object literal of the classifier's constructor writes six
    intent names twice. The table it installs holds every name of the
    literal once, and for every name the keyword list of the last entry
    written under it: the earlier list of a repeated name is never used. *)
Theorem intents_init_last_entry_wins :
  forall k : string,
    obj_get intents_init k = obj_get (rev intents_literal) k
    /\ (In k (obj_keys intents_init) <-> In k (map fst intents_literal))
    /\ List.NoDup (obj_keys intents_init)
    /\ List.length intents_literal = (List.length intents_init + 6)%nat.
Proof.
  intros k.
  change intents_init with (obj_literal intents_literal). unfold obj_literal.
  split; [| split; [| split]].
  - rewrite obj_literal_fold. destruct (obj_get (rev intents_literal) k); reflexivity.
  - rewrite obj_literal_keys_fold. simpl; tauto.
  - apply obj_literal_NoDup_fold. constructor.
  - vm_compute. reflexivity.
Qed.

End ConstructorTableFacts.
